(** * The mail index (src/lib-index/mail-index.c)

    A shallow embedding of the index handle, the memory-mapped index file
    and the operations on them: mapping refresh, locking, lookup by uid
    range and by sequence number, append, expunge, flag updates and the
    flag counters.

    Conventions.
    - [unsigned int] values are [Z] in [0, 2^32); every increment and
      decrement of the source is written with its wrap-around ([wrap]).
    - [off_t] and [size_t] values are file offsets and lengths, kept as
      unbounded [Z].
    - A [MailIndexRecord *] into the mapping is its byte offset from
      [mmap_base]; [INDEX_FILE_POSITION] is therefore the identity on it.
      The remembered [last_lookup] is such an offset too, so it denotes
      the same slot after a remap, where the program holds on to an
      address of the old mapping.
    - The header and the records are the content of the index file; the
      mapping is shared with the file, so [index->header->f] reads and
      writes the file header.
    - [index->header] is dereferenced without a guard, as in the source.
      The pointer is set by every successful [mmap_update]; where
      [mail_index_set_lock] goes through it on the way out of a lock, after
      an [mmap_update] that may have failed, the model asks whether it
      still points at a mapped header ([header_mapped]).
    - A record slot inside the mapping that lies behind the end of the
      file (the file was cut while mapped) reads as zero bytes as far as
      the file's last page goes, and is a fault behind that page.
    - System calls and the collaborating modules (data store, hash file,
      modification log, the [sync]/[rebuild] callbacks) are an environment
      [Env] of functions of the current world; every call that matters to
      an observer is also appended to the world's [trace]. *)

From stdpp Require Import base numbers option list gmap.
From Stdlib Require Import ZArith Lia.

Local Open Scope Z_scope.

(** ** Platform constants

    [mail-index.h] is not part of the sources: the sizes of the two
    structures and the values of the flag bits are parameters, and so is
    the page size of the system. *)

Class Platform := {
  HSIZE : Z;                      (* sizeof(MailIndexHeader) *)
  RSIZE : Z;                      (* sizeof(MailIndexRecord) *)
  PAGE_SIZE : Z;                  (* the unit of mmap() *)
  MAIL_INDEX_FLAG_REBUILD : Z;
  MAIL_INDEX_FLAG_FSCK : Z;
  MAIL_INDEX_FLAG_COMPRESS : Z;
  MAIL_SEEN : Z;
  MAIL_DELETED : Z;
  rsize_nonneg : 0 <= RSIZE       (* sizeof yields a size_t *)
}.

(** What the proofs need of a platform: positive sizes, flag values that
    are non-zero 32-bit numbers. *)
Record PlatformOk `{Platform} : Prop := {
  hsize_pos : 0 < HSIZE;
  rsize_pos : 0 < RSIZE;
  rebuild_bit : 0 < MAIL_INDEX_FLAG_REBUILD < 2 ^ 32;
  fsck_bit : 0 < MAIL_INDEX_FLAG_FSCK < 2 ^ 32;
  compress_bit : 0 < MAIL_INDEX_FLAG_COMPRESS < 2 ^ 32
}.

(** ** Unsigned 32-bit arithmetic *)

Definition UINT_MAX : Z := 2 ^ 32 - 1.

Definition wrap (x : Z) : Z := x mod 2 ^ 32.

(** [(x & m) != 0] *)
Definition has_flag (x m : Z) : bool := negb (Z.land x m =? 0).

(** ** Data *)

Inductive MailLockType := MAIL_LOCK_UNLOCK | MAIL_LOCK_SHARED | MAIL_LOCK_EXCLUSIVE.

#[global] Instance MailLockType_eq_dec : EqDecision MailLockType.
Proof. solve_decision. Defined.

(** [a == b] on lock types. *)
Definition lock_eqb (a b : MailLockType) : bool :=
  match a, b with
  | MAIL_LOCK_UNLOCK, MAIL_LOCK_UNLOCK
  | MAIL_LOCK_SHARED, MAIL_LOCK_SHARED
  | MAIL_LOCK_EXCLUSIVE, MAIL_LOCK_EXCLUSIVE => true
  | _, _ => false
  end.

Record MailIndexHeader := mkHeader {
  hdr_indexid : Z;
  flags : Z;
  cache_fields : Z;
  first_hole_position : Z;        (* off_t *)
  first_hole_records : Z;
  next_uid : Z;
  messages_count : Z;
  seen_messages_count : Z;
  deleted_messages_count : Z;
  last_nonrecent_uid : Z;
  first_unseen_uid_lowwater : Z;
  first_deleted_uid_lowwater : Z
}.

Record MailIndexRecord := mkRecord {
  uid : Z;
  msg_flags : Z;
  cached_fields : Z;
  data_size : Z
}.

(** Messages stored by [index_set_error]. *)
Inductive ErrorMsg :=
  | ErrMmapFailed | ErrTruncatedFile | ErrMsync | ErrUtime | ErrFsync
  | ErrFcntl (l : MailLockType) | ErrInconsistency | ErrLseek | ErrAppend.

(** The handle.  [mmap_base] and [header] record whether the pointer is
    non-NULL; [hash] is [None] for a NULL hash. *)
Record MailIndex := mkIndex {
  lock_type : MailLockType;
  inconsistent : bool;
  updating : bool;
  dirty_mmap : bool;
  indexid : Z;
  set_flags : Z;
  set_cache_fields : Z;
  mmap_base : bool;
  mmap_length : Z;
  header : bool;
  last_lookup : option Z;
  last_lookup_seq : Z;
  hash : option (gmap Z Z);
  error : option ErrorMsg
}.

(** Calls that leave the process, in the order they were made (newest
    first).  Lock and sync calls carry the header as it was at the call. *)
Inductive Event :=
  | EvFtruncate (len : Z) (ok : bool)
  | EvFcntl (l : MailLockType) (ok : bool) (h : MailIndexHeader)
  | EvMsync (len : Z) (ok : bool) (h : MailIndexHeader)
  | EvFsync (ok : bool)
  | EvWrite (pos : Z) (r : MailIndexRecord) (ok : bool)
  | EvHashLookup (u : Z)
  | EvHashUpdate (u pos : Z)
  | EvDataReset (ok : bool)
  | EvDataAddDeletedSpace (n : Z)
  | EvModifylogExpunge (seq u : Z) (external_change : bool) (ok : bool).

(** The handle together with the file it has open.  [file_recs] are the
    whole record slots of the file, slot [k] at offset
    [HSIZE + k * RSIZE]; [file_size] is the length of the file in bytes. *)
Record World := mkWorld {
  idx : MailIndex;
  file_size : Z;
  file_hdr : MailIndexHeader;
  file_recs : list MailIndexRecord;
  trace : list Event
}.

(** ** Field updates *)

Definition with_idx (f : MailIndex -> MailIndex) (w : World) : World :=
  mkWorld (f (idx w)) (file_size w) (file_hdr w) (file_recs w) (trace w).
Definition with_hdr (f : MailIndexHeader -> MailIndexHeader) (w : World) : World :=
  mkWorld (idx w) (file_size w) (f (file_hdr w)) (file_recs w) (trace w).
Definition with_recs (f : list MailIndexRecord -> list MailIndexRecord) (w : World) : World :=
  mkWorld (idx w) (file_size w) (file_hdr w) (f (file_recs w)) (trace w).
Definition with_file_size (n : Z) (w : World) : World :=
  mkWorld (idx w) n (file_hdr w) (file_recs w) (trace w).
Definition emit (e : Event) (w : World) : World :=
  mkWorld (idx w) (file_size w) (file_hdr w) (file_recs w) (e :: trace w).

Definition ix_lock_type v (i : MailIndex) :=
  mkIndex v (inconsistent i) (updating i) (dirty_mmap i) (indexid i) (set_flags i)
    (set_cache_fields i) (mmap_base i) (mmap_length i) (header i) (last_lookup i)
    (last_lookup_seq i) (hash i) (error i).
Definition ix_inconsistent v (i : MailIndex) :=
  mkIndex (lock_type i) v (updating i) (dirty_mmap i) (indexid i) (set_flags i)
    (set_cache_fields i) (mmap_base i) (mmap_length i) (header i) (last_lookup i)
    (last_lookup_seq i) (hash i) (error i).
Definition ix_updating v (i : MailIndex) :=
  mkIndex (lock_type i) (inconsistent i) v (dirty_mmap i) (indexid i) (set_flags i)
    (set_cache_fields i) (mmap_base i) (mmap_length i) (header i) (last_lookup i)
    (last_lookup_seq i) (hash i) (error i).
Definition ix_dirty_mmap v (i : MailIndex) :=
  mkIndex (lock_type i) (inconsistent i) (updating i) v (indexid i) (set_flags i)
    (set_cache_fields i) (mmap_base i) (mmap_length i) (header i) (last_lookup i)
    (last_lookup_seq i) (hash i) (error i).
Definition ix_set_flags v (i : MailIndex) :=
  mkIndex (lock_type i) (inconsistent i) (updating i) (dirty_mmap i) (indexid i) v
    (set_cache_fields i) (mmap_base i) (mmap_length i) (header i) (last_lookup i)
    (last_lookup_seq i) (hash i) (error i).
Definition ix_set_cache_fields v (i : MailIndex) :=
  mkIndex (lock_type i) (inconsistent i) (updating i) (dirty_mmap i) (indexid i) (set_flags i)
    v (mmap_base i) (mmap_length i) (header i) (last_lookup i)
    (last_lookup_seq i) (hash i) (error i).
Definition ix_mmap_base v (i : MailIndex) :=
  mkIndex (lock_type i) (inconsistent i) (updating i) (dirty_mmap i) (indexid i) (set_flags i)
    (set_cache_fields i) v (mmap_length i) (header i) (last_lookup i)
    (last_lookup_seq i) (hash i) (error i).
Definition ix_mmap_length v (i : MailIndex) :=
  mkIndex (lock_type i) (inconsistent i) (updating i) (dirty_mmap i) (indexid i) (set_flags i)
    (set_cache_fields i) (mmap_base i) v (header i) (last_lookup i)
    (last_lookup_seq i) (hash i) (error i).
Definition ix_header v (i : MailIndex) :=
  mkIndex (lock_type i) (inconsistent i) (updating i) (dirty_mmap i) (indexid i) (set_flags i)
    (set_cache_fields i) (mmap_base i) (mmap_length i) v (last_lookup i)
    (last_lookup_seq i) (hash i) (error i).
Definition ix_last_lookup v (i : MailIndex) :=
  mkIndex (lock_type i) (inconsistent i) (updating i) (dirty_mmap i) (indexid i) (set_flags i)
    (set_cache_fields i) (mmap_base i) (mmap_length i) (header i) v
    (last_lookup_seq i) (hash i) (error i).
Definition ix_last_lookup_seq v (i : MailIndex) :=
  mkIndex (lock_type i) (inconsistent i) (updating i) (dirty_mmap i) (indexid i) (set_flags i)
    (set_cache_fields i) (mmap_base i) (mmap_length i) (header i) (last_lookup i)
    v (hash i) (error i).
Definition ix_hash v (i : MailIndex) :=
  mkIndex (lock_type i) (inconsistent i) (updating i) (dirty_mmap i) (indexid i) (set_flags i)
    (set_cache_fields i) (mmap_base i) (mmap_length i) (header i) (last_lookup i)
    (last_lookup_seq i) v (error i).
Definition ix_error v (i : MailIndex) :=
  mkIndex (lock_type i) (inconsistent i) (updating i) (dirty_mmap i) (indexid i) (set_flags i)
    (set_cache_fields i) (mmap_base i) (mmap_length i) (header i) (last_lookup i)
    (last_lookup_seq i) (hash i) v.

Definition h_flags v (h : MailIndexHeader) :=
  mkHeader (hdr_indexid h) v (cache_fields h) (first_hole_position h) (first_hole_records h)
    (next_uid h) (messages_count h) (seen_messages_count h) (deleted_messages_count h)
    (last_nonrecent_uid h) (first_unseen_uid_lowwater h) (first_deleted_uid_lowwater h).
Definition h_cache_fields v (h : MailIndexHeader) :=
  mkHeader (hdr_indexid h) (flags h) v (first_hole_position h) (first_hole_records h)
    (next_uid h) (messages_count h) (seen_messages_count h) (deleted_messages_count h)
    (last_nonrecent_uid h) (first_unseen_uid_lowwater h) (first_deleted_uid_lowwater h).
Definition h_first_hole_position v (h : MailIndexHeader) :=
  mkHeader (hdr_indexid h) (flags h) (cache_fields h) v (first_hole_records h)
    (next_uid h) (messages_count h) (seen_messages_count h) (deleted_messages_count h)
    (last_nonrecent_uid h) (first_unseen_uid_lowwater h) (first_deleted_uid_lowwater h).
Definition h_first_hole_records v (h : MailIndexHeader) :=
  mkHeader (hdr_indexid h) (flags h) (cache_fields h) (first_hole_position h) v
    (next_uid h) (messages_count h) (seen_messages_count h) (deleted_messages_count h)
    (last_nonrecent_uid h) (first_unseen_uid_lowwater h) (first_deleted_uid_lowwater h).
Definition h_next_uid v (h : MailIndexHeader) :=
  mkHeader (hdr_indexid h) (flags h) (cache_fields h) (first_hole_position h) (first_hole_records h)
    v (messages_count h) (seen_messages_count h) (deleted_messages_count h)
    (last_nonrecent_uid h) (first_unseen_uid_lowwater h) (first_deleted_uid_lowwater h).
Definition h_messages_count v (h : MailIndexHeader) :=
  mkHeader (hdr_indexid h) (flags h) (cache_fields h) (first_hole_position h) (first_hole_records h)
    (next_uid h) v (seen_messages_count h) (deleted_messages_count h)
    (last_nonrecent_uid h) (first_unseen_uid_lowwater h) (first_deleted_uid_lowwater h).
Definition h_seen_messages_count v (h : MailIndexHeader) :=
  mkHeader (hdr_indexid h) (flags h) (cache_fields h) (first_hole_position h) (first_hole_records h)
    (next_uid h) (messages_count h) v (deleted_messages_count h)
    (last_nonrecent_uid h) (first_unseen_uid_lowwater h) (first_deleted_uid_lowwater h).
Definition h_deleted_messages_count v (h : MailIndexHeader) :=
  mkHeader (hdr_indexid h) (flags h) (cache_fields h) (first_hole_position h) (first_hole_records h)
    (next_uid h) (messages_count h) (seen_messages_count h) v
    (last_nonrecent_uid h) (first_unseen_uid_lowwater h) (first_deleted_uid_lowwater h).
Definition h_first_unseen_uid_lowwater v (h : MailIndexHeader) :=
  mkHeader (hdr_indexid h) (flags h) (cache_fields h) (first_hole_position h) (first_hole_records h)
    (next_uid h) (messages_count h) (seen_messages_count h) (deleted_messages_count h)
    (last_nonrecent_uid h) v (first_deleted_uid_lowwater h).
Definition h_first_deleted_uid_lowwater v (h : MailIndexHeader) :=
  mkHeader (hdr_indexid h) (flags h) (cache_fields h) (first_hole_position h) (first_hole_records h)
    (next_uid h) (messages_count h) (seen_messages_count h) (deleted_messages_count h)
    (last_nonrecent_uid h) (first_unseen_uid_lowwater h) v.

Definition r_uid v (r : MailIndexRecord) :=
  mkRecord v (msg_flags r) (cached_fields r) (data_size r).

(** [index_set_error]: remember the message on the handle. *)
Definition index_set_error (e : ErrorMsg) (w : World) : World :=
  with_idx (ix_error (Some e)) w.

(** ** Outcomes

    A call returns, dies in [i_assert], touches memory that is not a
    mapped record slot, or (for the bounded loops of the model) runs out
    of fuel. *)
Inductive outcome (A : Type) :=
  | Done (a : A)
  | AssertFailed
  | WildAccess
  | OutOfFuel.
Arguments Done {A} a.
Arguments AssertFailed {A}.
Arguments WildAccess {A}.
Arguments OutOfFuel {A}.

#[global] Instance outcome_ret : MRet outcome := fun A a => Done a.
#[global] Instance outcome_bind : MBind outcome := fun A B k m =>
  match m with
  | Done a => k a
  | AssertFailed => AssertFailed
  | WildAccess => WildAccess
  | OutOfFuel => OutOfFuel
  end.

Definition i_assert (b : bool) : outcome unit :=
  if b then Done tt else AssertFailed.

(** ** The environment *)

Record Env := mkEnv {
  env_mmap_ok : World -> bool;              (* mmap_rw_file succeeds *)
  env_ftruncate_ok : World -> Z -> bool;
  env_fcntl_ok : World -> MailLockType -> bool;
      (* fcntl(F_SETLKW) is granted; the EINTR retries are inside *)
  env_msync_ok : World -> bool;
  env_fsync_ok : World -> bool;
  env_utime_ok : World -> bool;
  env_data_sync_ok : World -> bool;         (* mail_index_data_sync_file *)
  env_hash_sync_ok : World -> bool;         (* mail_hash_sync_file *)
  env_modifylog_sync_ok : World -> bool;    (* mail_modifylog_sync_file *)
  env_lseek_ok : World -> bool;
  env_write_ok : World -> bool;             (* write_full succeeds *)
  env_write_partial : World -> Z;           (* bytes a failing write_full left *)
  env_torn : World -> MailIndexRecord -> MailIndexRecord;
      (* what a slot reads as after a record was written across its border *)
  env_data_reset_ok : World -> bool;        (* mail_index_data_reset *)
  env_modifylog_add_ok : World -> bool;     (* mail_modifylog_add_expunge *)
  env_sync : World -> World;                (* index->sync(index) *)
  env_rebuild : World -> bool * World;      (* index->rebuild(index) *)
  env_hash_rebuild : World -> bool * World  (* mail_hash_rebuild *)
}.

(** ** A record reference held by a caller of [mail_index_append]: the
    caller's own buffer, or a record of the mapping. *)
Inductive RecRef :=
  | InBuffer (r : MailIndexRecord)
  | InMapping (pos : Z).

Section Model.
Context `{Platform} (E : Env).

(** *** Macros of mail-index.h *)

(** Modelled from the spec: [INDEX_MARK_CORRUPTED] is not in the sources;
    "Corruption ... sets REBUILD so the next open fixes it", and the
    corruption paths of mail-index.c that are written out do it as
    [index->set_flags |= MAIL_INDEX_FLAG_REBUILD]. *)
Definition INDEX_MARK_CORRUPTED (w : World) : World :=
  with_idx (fun i => ix_set_flags (Z.lor (set_flags i) MAIL_INDEX_FLAG_REBUILD) i) w.

(** *** Records of the mapping *)

Definition slot_of (pos : Z) : option nat :=
  if (HSIZE <=? pos) && ((pos - HSIZE) mod RSIZE =? 0)
  then Some (Z.to_nat ((pos - HSIZE) / RSIZE)) else None.

Definition zero_rec : MailIndexRecord := mkRecord 0 0 0 0.

(** The end of the last page of a file of [size] bytes. *)
Definition page_end (size : Z) : Z :=
  (size + PAGE_SIZE - 1) / PAGE_SIZE * PAGE_SIZE.

(** [*rec] for a pointer [rec = mmap_base + pos].  Only whole slots
    below [mmap_length] are records of the mapping.  A slot of the
    mapping that the file no longer reaches holds zero bytes up to the
    end of the file's last page; behind that page the access faults.
    (The index cuts its file on slot borders only, so the end of the
    file never lies inside a mapped slot.) *)
Definition read_rec (w : World) (pos : Z) : outcome MailIndexRecord :=
  match slot_of pos with
  | Some k =>
      if pos + RSIZE <=? mmap_length (idx w) then
        match file_recs w !! k with
        | Some r => Done r
        | None =>
            if (file_size w <=? pos) && (pos + RSIZE <=? page_end (file_size w))
            then Done zero_rec
            else WildAccess
        end
      else WildAccess
  | None => WildAccess
  end.

(** *** The file *)

Definition whole_slots (size : Z) : nat := Z.to_nat ((size - HSIZE) / RSIZE).

Definition pad_to (n : nat) (junk : MailIndexRecord) (recs : list MailIndexRecord) :=
  recs ++ replicate (n - length recs)%nat junk.

Definition put_slot (k : nat) (r : MailIndexRecord) (recs : list MailIndexRecord) :=
  if (k <? length recs)%nat then <[k := r]> recs
  else pad_to k zero_rec recs ++ [r].

(** [ftruncate(index->fd, len)]; the index only ever shortens its file. *)
Definition ftruncate (len : Z) (w : World) : bool * World :=
  let ok := env_ftruncate_ok E w len in
  let w' := if ok then with_recs (take (whole_slots len)) (with_file_size len w) else w in
  (ok, emit (EvFtruncate len ok) w').

(** The file after [n] bytes of [r] were written at its end [pos]:
    a write on a slot border fills that slot, any other write leaves
    torn slots behind. *)
Definition file_write (pos n : Z) (r : MailIndexRecord) (w : World) : World :=
  let w1 := with_file_size (pos + n) w in
  if n =? RSIZE then
    match slot_of pos with
    | Some k => with_recs (put_slot k r) w1
    | None => with_recs (pad_to (whole_slots (pos + n)) (env_torn E w r)) w1
    end
  else with_recs (pad_to (whole_slots (pos + n)) (env_torn E w r)) w1.

(** *** mmap_update (lines 22-62) *)
Definition mmap_update (w : World) : bool * World :=
  if negb (dirty_mmap (idx w)) then
    (true, with_idx (fun i => ix_header (mmap_base i) i) w)
  else if negb (env_mmap_ok E w) then
    (false, index_set_error ErrMmapFailed (with_idx (ix_mmap_base false) w))
  else
    let w1 := with_idx (fun i => ix_mmap_length (file_size w) (ix_mmap_base true i)) w in
    if mmap_length (idx w1) <? HSIZE then
      (false, index_set_error ErrTruncatedFile (INDEX_MARK_CORRUPTED w1))
    else
      let extra := (mmap_length (idx w1) - HSIZE) mod RSIZE in
      let w2 :=
        if negb (extra =? 0) then
          let w' := with_idx (fun i => ix_mmap_length (mmap_length i - extra) i) w1 in
          snd (ftruncate (mmap_length (idx w')) w')
        else w1 in
      (true, with_idx (fun i => ix_dirty_mmap false (ix_header true i)) w2).

(** *** index_mark_flag_changes (lines 1006-1037) *)
Definition index_mark_flag_changes (w : World) (rec : MailIndexRecord)
    (old_flags new_flags : Z) : World :=
  let h := file_hdr w in
  if (Z.land old_flags MAIL_SEEN =? 0) && has_flag new_flags MAIL_SEEN then
    (* unseen -> seen *)
    with_hdr (h_seen_messages_count (wrap (seen_messages_count h + 1))) w
  else if has_flag old_flags MAIL_SEEN && (Z.land new_flags MAIL_SEEN =? 0) then
    (* seen -> unseen *)
    let w1 :=
      if seen_messages_count h =? messages_count h then
        with_hdr (h_first_unseen_uid_lowwater (uid rec)) w
      else if uid rec <? first_unseen_uid_lowwater h then
        with_hdr (h_first_unseen_uid_lowwater (uid rec)) w
      else w in
    with_hdr (fun h1 => h_seen_messages_count (wrap (seen_messages_count h1 - 1)) h1) w1
  else if (Z.land old_flags MAIL_DELETED =? 0) && has_flag new_flags MAIL_DELETED then
    (* undeleted -> deleted *)
    let w1 :=
      with_hdr (h_deleted_messages_count (wrap (deleted_messages_count h + 1))) w in
    if deleted_messages_count (file_hdr w1) =? 1 then
      with_hdr (h_first_deleted_uid_lowwater (uid rec)) w1
    else if uid rec <? first_deleted_uid_lowwater (file_hdr w1) then
      with_hdr (h_first_deleted_uid_lowwater (uid rec)) w1
    else w1
  else if has_flag old_flags MAIL_DELETED && (Z.land new_flags MAIL_DELETED =? 0) then
    (* deleted -> undeleted *)
    with_hdr (h_deleted_messages_count (wrap (deleted_messages_count h - 1))) w
  else w.

(** *** update_first_hole_records (lines 990-1004)

    The walk reads one more slot per round, so [fuel] rounds with
    [fuel] above the number of slots never run out. *)
Fixpoint hole_walk (fuel : nat) (w : World) (rec : Z) : outcome World :=
  match fuel with
  | O => OutOfFuel
  | S fuel' =>
      if rec =? mmap_length (idx w) then Done w
      else
        r ← read_rec w rec;
        if uid r =? 0 then
          hole_walk fuel'
            (with_hdr (fun h => h_first_hole_records (wrap (first_hole_records h + 1)) h) w)
            (rec + RSIZE)
        else Done w
  end.

Definition update_first_hole_records (w : World) : outcome World :=
  let rec := first_hole_position (file_hdr w)
             + first_hole_records (file_hdr w) * RSIZE in
  hole_walk (S (length (file_recs w))) w rec.

(** *** The collaborating modules, as far as the index calls them *)

(** Modelled from the spec: the UID hash, "lookup(uid) -> offset or 0,
    update(uid, offset)".  A NULL hash is not looked into. *)
Definition mail_hash_lookup_uid (w : World) (u : Z) : outcome (Z * World) :=
  match hash (idx w) with
  | Some m => Done (default 0 (m !! u), emit (EvHashLookup u) w)
  | None => WildAccess
  end.

Definition mail_hash_update (w : World) (u pos : Z) : outcome World :=
  match hash (idx w) with
  | Some m => Done (emit (EvHashUpdate u pos) (with_idx (ix_hash (Some (<[u := pos]> m))) w))
  | None => WildAccess
  end.

(** Modelled from the spec: the data store, "track deleted byte count,
    reset"; the calls are recorded, the store itself is not modelled. *)
Definition mail_index_data_reset (w : World) : bool * World :=
  let ok := env_data_reset_ok E w in (ok, emit (EvDataReset ok) w).

Definition mail_index_data_add_deleted_space (w : World) (n : Z) : World :=
  emit (EvDataAddDeletedSpace n) w.

(** Modelled from the spec: the modification log, "add_expunge". *)
Definition mail_modifylog_add_expunge (w : World) (seq u : Z) (ext : bool)
    : bool * World :=
  let ok := env_modifylog_add_ok E w in
  (ok, emit (EvModifylogExpunge seq u ext ok) w).

(** *** mail_index_truncate (lines 1039-1051) *)
Definition mail_index_truncate (w : World) : bool * World :=
  let w1 := with_hdr (fun h => h_first_hole_records 0 (h_first_hole_position 0 h)) w in
  let '(ok, w2) := ftruncate HSIZE w1 in
  if negb ok then (false, w2)
  else mail_index_data_reset w2.

(** *** mail_index_expunge (lines 1053-1128)

    [rec] is the pointer handed in by the caller.  The body is cut at
    its two comments "update first hole" and "update message counts". *)

(** Lines 1083-1112; [pos] is [INDEX_FILE_POSITION(index, rec)]. *)
Definition expunge_update_first_hole (w : World) (pos : Z) : outcome World :=
  let hdr := file_hdr w in
  if first_hole_position hdr =? 0 then
    (* first deleted message in index *)
    Done (with_hdr (fun h => h_first_hole_records 1 (h_first_hole_position pos h)) w)
  else if first_hole_position hdr - RSIZE =? pos then
    (* deleted the previous record before hole *)
    Done (with_hdr (fun h =>
            h_first_hole_records (wrap (first_hole_records h + 1))
              (h_first_hole_position (first_hole_position h - RSIZE) h)) w)
  else if first_hole_position hdr + first_hole_records hdr * RSIZE =? pos then
    (* deleted the next record after hole *)
    update_first_hole_records
      (with_hdr (fun h => h_first_hole_records (wrap (first_hole_records h + 1)) h) w)
  else
    (* second hole coming to index file *)
    let w := with_idx (fun i =>
               ix_set_flags (Z.lor (set_flags i) MAIL_INDEX_FLAG_COMPRESS) i) w in
    if pos <? first_hole_position hdr then
      (* new hole before the old hole *)
      Done (with_hdr (fun h => h_first_hole_records 1 (h_first_hole_position pos h)) w)
    else Done w.

(** Lines 1114-1125; [rec] is the record as the mapping holds it now. *)
Definition expunge_update_counts (w : World) (rec : MailIndexRecord) : World :=
  let w := with_hdr (fun h => h_messages_count (wrap (messages_count h - 1)) h) w in
  let w := index_mark_flag_changes w rec (msg_flags rec) 0 in
  if messages_count (file_hdr w) =? 0 then
    (* all messages are deleted, truncate the index files *)
    snd (mail_index_truncate w)
  else
    (* update deleted_space in data file *)
    mail_index_data_add_deleted_space w (data_size rec).

Definition mail_index_expunge (w : World) (rec : Z) (seq : Z)
    (external_change : bool) : outcome (bool * World) :=
  _ ← i_assert (lock_eqb (lock_type (idx w)) MAIL_LOCK_EXCLUSIVE);
  r ← read_rec w rec;
  _ ← i_assert (negb (uid r =? 0));
  let '(logged, w) :=
    if negb (seq =? 0) then mail_modifylog_add_expunge w seq (uid r) external_change
    else (true, w) in
  if negb logged then Done (false, w)
  else
    w ← mail_hash_update w (uid r) 0;
    (* setting UID to 0 is enough for deleting the mail from index *)
    let w := with_recs (fun l => match slot_of rec with
                                 | Some k => alter (r_uid 0) k l
                                 | None => l
                                 end) w in
    let r := r_uid 0 r in
    (* update last_lookup_seq *)
    let w :=
      if negb (seq =? 0) then
        if seq =? last_lookup_seq (idx w) then with_idx (ix_last_lookup None) w
        else if seq <? last_lookup_seq (idx w) then
          with_idx (fun i => ix_last_lookup_seq (wrap (last_lookup_seq i - 1)) i) w
        else w
      else w in
    w ← expunge_update_first_hole w rec;
    Done (true, expunge_update_counts w r).

(** *** mail_index_append (lines 1147-1180)

    [rec] is the caller's record; the result carries what [*rec] refers
    to when the call returns. *)
Definition mail_index_append (w : World) (rec : MailIndexRecord)
    : outcome (bool * RecRef * World) :=
  _ ← i_assert (lock_eqb (lock_type (idx w)) MAIL_LOCK_EXCLUSIVE);
  let rec := r_uid (next_uid (file_hdr w)) rec in
  let w := with_hdr (fun h => h_next_uid (wrap (next_uid h + 1)) h) w in
  if negb (env_lseek_ok E w) then
    Done (false, InBuffer rec, index_set_error ErrLseek w)
  else
    let pos := file_size w in
    if negb (env_write_ok E w) then
      let w := emit (EvWrite pos rec false) (file_write pos (env_write_partial E w) rec w) in
      Done (false, InBuffer rec, index_set_error ErrAppend w)
    else
      let w := emit (EvWrite pos rec true) (file_write pos RSIZE rec w) in
      let w := with_hdr (fun h => h_messages_count (wrap (messages_count h + 1)) h) w in
      let w := index_mark_flag_changes w rec 0 (msg_flags rec) in
      w ← (match hash (idx w) with
           | Some _ => mail_hash_update w (uid rec) pos
           | None => Done w
           end);
      let w := with_idx (ix_dirty_mmap true) w in
      let '(ok, w) := mmap_update w in
      if negb ok then Done (false, InBuffer rec, w)
      else Done (true, InMapping pos, w).

(** *** mail_index_lookup_uid_range (lines 862-910) *)

(** The [for] loop over the hash; [uid++] wraps, so the loop is bounded
    by [fuel].  [None] is a miss on every probed uid. *)
Fixpoint probe_loop (fuel : nat) (w : World) (u last_try_uid : Z)
    : outcome (option Z * World) :=
  match fuel with
  | O => OutOfFuel
  | S fuel' =>
      if u <=? last_try_uid then
        '(pos, w) ← mail_hash_lookup_uid w u;
        if negb (pos =? 0) then Done (Some pos, w)
        else probe_loop fuel' w (wrap (u + 1)) last_try_uid
      else Done (None, w)
  end.

(** The [while (rec < end_rec)] loop over the records that follow [rec]. *)
Fixpoint scan_loop (fuel : nat) (w : World) (rec first_uid last_uid : Z)
    : outcome (option Z) :=
  match fuel with
  | O => OutOfFuel
  | S fuel' =>
      if rec <? mmap_length (idx w) then
        r ← read_rec w rec;
        if negb (uid r =? 0) then
          if last_uid <? uid r then Done None
          else if first_uid <=? uid r then Done (Some rec)
          else scan_loop fuel' w (rec + RSIZE) first_uid last_uid
        else scan_loop fuel' w (rec + RSIZE) first_uid last_uid
      else Done None
  end.

Definition mail_index_lookup_uid_range (fuel : nat) (w : World)
    (first_uid last_uid : Z) : outcome (option Z * World) :=
  _ ← i_assert (negb (lock_eqb (lock_type (idx w)) MAIL_LOCK_UNLOCK));
  _ ← i_assert ((0 <? first_uid) && (0 <? last_uid));
  if last_uid <? first_uid then Done (None, w)
  else
    let '(ok, w) := mmap_update w in
    if negb ok then Done (None, w)
    else
      (* try the few first with hash lookups *)
      let last_try_uid :=
        if wrap (last_uid - first_uid) <? 10 then last_uid else wrap (first_uid + 4) in
      '(hit, w) ← probe_loop fuel w first_uid last_try_uid;
      match hit with
      | Some pos => Done (Some pos, w)
      | None =>
          if last_try_uid =? last_uid then Done (None, w)
          else
            res ← scan_loop (S (length (file_recs w))) w HSIZE first_uid last_uid;
            Done (res, w)
      end.

(** *** Syncing (lines 113-169) *)

Definition msync (len : Z) (w : World) : bool * World :=
  let ok := env_msync_ok E w in (ok, emit (EvMsync len ok (file_hdr w)) w).

Definition fsync (w : World) : bool * World :=
  let ok := env_fsync_ok E w in (ok, emit (EvFsync ok) w).

Definition mail_index_sync_file (w : World) : bool * World :=
  if negb (env_data_sync_ok E w) then (false, w)
  else
    let '(ok, w) :=
      if mmap_base (idx w) then msync (mmap_length (idx w)) w else (true, w) in
    if negb ok then (false, index_set_error ErrMsync w)
    else
      let failed := negb (env_hash_sync_ok E w) in
      let failed := if negb (env_modifylog_sync_ok E w) then true else failed in
      if negb (env_utime_ok E w) then (false, index_set_error ErrUtime w)
      else
        let '(ok, w) := fsync w in
        if negb ok then (false, index_set_error ErrFsync w)
        else (negb failed, w).

Definition mail_index_fmsync (w : World) (size : Z) : outcome (bool * World) :=
  _ ← i_assert (lock_eqb (lock_type (idx w)) MAIL_LOCK_EXCLUSIVE);
  let '(ok, w) := msync size w in
  if negb ok then Done (false, index_set_error ErrMsync w)
  else
    let '(ok, w) := fsync w in
    if negb ok then Done (false, index_set_error ErrFsync w)
    else Done (true, w).

(** *** mail_index_rebuild_all (lines 171-180) *)
Definition mail_index_rebuild_all (w : World) : bool * World :=
  let '(ok, w) := env_rebuild E w in
  if negb ok then (false, w)
  else
    let '(ok, w) := env_hash_rebuild E w in
    if negb ok then (false, w) else (true, w).

(** *** mail_index_update_header_changes (lines 182-195) *)
Definition mail_index_update_header_changes (w : World) : outcome World :=
  _ ← i_assert (lock_eqb (lock_type (idx w)) MAIL_LOCK_EXCLUSIVE);
  let w :=
    if negb (set_flags (idx w) =? 0) then
      with_idx (ix_set_flags 0)
        (with_hdr (fun h => h_flags (Z.lor (flags h) (set_flags (idx w))) h) w)
    else w in
  let w :=
    if negb (set_cache_fields (idx w) =? 0) then
      with_idx (ix_set_cache_fields 0)
        (with_hdr (h_cache_fields (set_cache_fields (idx w))) w)
    else w in
  Done w.

(** *** mail_index_set_lock (lines 226-359)

    The function calls itself; [fuel] bounds the depth of the calls.
    Its body is cut into the release of an exclusive lock (lines
    247-255), the lock request (268-281), what follows a granted request
    (283-324) and the end (326-358); in these, [set_lock] stands for the
    function itself in the calls it makes. *)

(** [fcntl(index->fd, F_SETLKW, &fl)] on the whole file, retried on EINTR. *)
Definition fcntl_setlkw (l : MailLockType) (w : World) : bool * World :=
  let ok := env_fcntl_ok E w l in (ok, emit (EvFcntl l ok (file_hdr w)) w).

(** [index->header] points at a mapped header.  [mmap_update] sets the
    pointer when it returns TRUE; when it fails, the mapping is gone
    ([mmap_base] is NULL) or shorter than a header, and the pointer is
    what an earlier call left. *)
Definition header_mapped (w : World) : bool :=
  header (idx w) && mmap_base (idx w) && (HSIZE <=? mmap_length (idx w)).

(** A read or write through [index->header] with no [mmap_update] of
    the same call before it. *)
Definition deref_header (w : World) : outcome unit :=
  if header_mapped w then Done tt else WildAccess.

(** Lines 247-255: releasing exclusive lock. *)
Definition release_exclusive (w : World) : outcome World :=
  _ ← deref_header w;
  let w := with_hdr (fun h =>
             h_flags (Z.land (flags h) (Z.lnot MAIL_INDEX_FLAG_FSCK)) h) w in
  w ← mail_index_update_header_changes w;
  (* sync mmaped memory *)
  Done (snd (mail_index_sync_file w)).

(** Lines 326-358.  EXCLUSIVE is reached through [mmap_update] only,
    which has set the header pointer; line 337 asks whether it is NULL
    before the header is read. *)
Definition set_lock_finish (set_lock : World -> MailLockType -> outcome (bool * World))
    (lock : MailLockType) (w : World) : outcome (bool * World) :=
  r ← (if lock_eqb lock MAIL_LOCK_EXCLUSIVE then
         (* while holding exclusive lock, keep the FSCK flag on *)
         let w := with_hdr (fun h => h_flags (Z.lor (flags h) MAIL_INDEX_FLAG_FSCK) h) w in
         '(ok, w) ← mail_index_fmsync w HSIZE;
         if negb ok then
           '(_, w) ← set_lock w MAIL_LOCK_UNLOCK; Done (false, w)
         else Done (true, w)
       else Done (true, w));
  let '(go_on, w) := r in
  if negb go_on then Done (false, w)
  else if header (idx w) && negb (updating (idx w))
          && has_flag (flags (file_hdr w)) MAIL_INDEX_FLAG_REBUILD then
    (* index is corrupted, rebuild it *)
    let w := with_idx (ix_updating true) w in
    w ← (if lock_eqb lock MAIL_LOCK_SHARED then
           '(_, w) ← set_lock w MAIL_LOCK_UNLOCK; Done w
         else Done w);
    let '(ok, w) := mail_index_rebuild_all w in
    if negb ok then Done (false, w)
    else
      '(ret, w) ← set_lock w lock;
      Done (ret, with_idx (ix_updating false) w)
  else
    Done (true, if lock_eqb lock MAIL_LOCK_UNLOCK
                then with_idx (ix_last_lookup None) w else w).

(** Lines 283-324, then the end. *)
Definition set_lock_granted (set_lock : World -> MailLockType -> outcome (bool * World))
    (lock : MailLockType) (w : World) : outcome (bool * World) :=
  let w := if lock_eqb lock MAIL_LOCK_UNLOCK
           then with_idx (ix_last_lookup None) w else w in
  let old_lock_type := lock_type (idx w) in
  let w := with_idx (ix_lock_type lock) w in
  if negb (lock_eqb lock MAIL_LOCK_UNLOCK) then
    (* we're always mmap()ed when we're locked *)
    let '(ok, w) := mmap_update w in
    if negb ok then
      '(_, w) ← set_lock w MAIL_LOCK_UNLOCK; Done (false, w)
    else if negb (indexid (idx w) =? hdr_indexid (file_hdr w)) then
      (* read through the pointer that mmap_update has just set *)
      Done (false, with_idx (ix_inconsistent true)
                     (index_set_error ErrInconsistency w))
    else set_lock_finish set_lock lock w
  else if lock_eqb old_lock_type MAIL_LOCK_SHARED then
    (* releasing shared lock *)
    _ ← deref_header w;
    let old_flags := flags (file_hdr w) in
    let old_cache := cache_fields (file_hdr w) in
    if negb (Z.lor old_flags (set_flags (idx w)) =? old_flags)
       || negb (Z.lor old_cache (set_cache_fields (idx w)) =? old_cache) then
      (* need to update the header *)
      let w := with_idx (ix_updating true) w in
      '(ok, w) ← set_lock w MAIL_LOCK_EXCLUSIVE;
      w ← (if (ok : bool) then mail_index_update_header_changes w else Done w);
      let w := with_idx (ix_updating false) w in
      set_lock w MAIL_LOCK_UNLOCK
    else set_lock_finish set_lock lock w
  else set_lock_finish set_lock lock w.

(** Lines 268-281, then the rest. *)
Definition set_lock_request (set_lock : World -> MailLockType -> outcome (bool * World))
    (lock : MailLockType) (w : World) : outcome (bool * World) :=
  let '(ok, w) := fcntl_setlkw lock w in
  if negb ok then Done (false, index_set_error (ErrFcntl lock) w)
  else set_lock_granted set_lock lock w.

Fixpoint mail_index_set_lock (fuel : nat) (w : World) (lock : MailLockType)
    : outcome (bool * World) :=
  match fuel with
  | O => OutOfFuel
  | S fuel' =>
    let set_lock := mail_index_set_lock fuel' in
    if inconsistent (idx w) then
      (* nothing else than free() is allowed *)
      Done (false, w)
    else if lock_eqb (lock_type (idx w)) lock then Done (true, w)
    else
      (* shared -> exclusive isn't allowed *)
      _ ← i_assert (negb (lock_eqb lock MAIL_LOCK_EXCLUSIVE)
                    || negb (lock_eqb (lock_type (idx w)) MAIL_LOCK_SHARED));
      w ← (if lock_eqb (lock_type (idx w)) MAIL_LOCK_EXCLUSIVE
           then release_exclusive w else Done w);
      if negb (lock_eqb lock MAIL_LOCK_UNLOCK)
         && lock_eqb (lock_type (idx w)) MAIL_LOCK_UNLOCK
         && negb (updating (idx w)) then
        (* unlock -> lock *)
        let w := env_sync E (with_idx (ix_updating true) w) in
        '(ret, w) ← set_lock w lock;
        Done (ret, with_idx (ix_updating false) w)
      else set_lock_request set_lock lock w
  end.

(** *** mail_index_is_inconsistency_error (lines 1187-1190) *)
Definition mail_index_is_inconsistency_error (w : World) : bool :=
  inconsistent (idx w).

End Model.

(** ** A concrete platform and environment for the examples *)

Definition sample_platform : Platform := {|
  HSIZE := 80;
  RSIZE := 40;
  PAGE_SIZE := 4096;
  MAIL_INDEX_FLAG_REBUILD := 1;
  MAIL_INDEX_FLAG_FSCK := 2;
  MAIL_INDEX_FLAG_COMPRESS := 8;
  MAIL_SEEN := 8;
  MAIL_DELETED := 4;
  rsize_nonneg := ltac:(lia)
|}.

(** Every call succeeds; the callbacks leave the world alone. *)
Definition calm_env : Env := {|
  env_mmap_ok := fun _ => true;
  env_ftruncate_ok := fun _ _ => true;
  env_fcntl_ok := fun _ _ => true;
  env_msync_ok := fun _ => true;
  env_fsync_ok := fun _ => true;
  env_utime_ok := fun _ => true;
  env_data_sync_ok := fun _ => true;
  env_hash_sync_ok := fun _ => true;
  env_modifylog_sync_ok := fun _ => true;
  env_lseek_ok := fun _ => true;
  env_write_ok := fun _ => true;
  env_write_partial := fun _ => 0;
  env_torn := fun _ r => r;
  env_data_reset_ok := fun _ => true;
  env_modifylog_add_ok := fun _ => true;
  env_sync := fun w => w;
  env_rebuild := fun w => (true, w);
  env_hash_rebuild := fun w => (true, w)
|}.

Definition sample_header : MailIndexHeader := {|
  hdr_indexid := 7; flags := 0; cache_fields := 0;
  first_hole_position := 0; first_hole_records := 0;
  next_uid := 1; messages_count := 0; seen_messages_count := 0;
  deleted_messages_count := 0; last_nonrecent_uid := 0;
  first_unseen_uid_lowwater := 0; first_deleted_uid_lowwater := 0
|}.

Definition sample_index (l : MailLockType) : MailIndex := {|
  lock_type := l; inconsistent := false; updating := false; dirty_mmap := false;
  indexid := 7; set_flags := 0; set_cache_fields := 0;
  mmap_base := true; mmap_length := 80; header := true;
  last_lookup := None; last_lookup_seq := 0;
  hash := Some ∅; error := None
|}.

(** An empty index file, open and mapped, held under lock [l]. *)
Definition empty_world (l : MailLockType) : World := {|
  idx := sample_index l; file_size := 80; file_hdr := sample_header;
  file_recs := []; trace := []
|}.


(** As [calm_env], but [ftruncate] fails. *)
Definition no_truncate_env : Env := {|
  env_mmap_ok := env_mmap_ok calm_env;
  env_ftruncate_ok := fun _ _ => false;
  env_fcntl_ok := env_fcntl_ok calm_env;
  env_msync_ok := env_msync_ok calm_env;
  env_fsync_ok := env_fsync_ok calm_env;
  env_utime_ok := env_utime_ok calm_env;
  env_data_sync_ok := env_data_sync_ok calm_env;
  env_hash_sync_ok := env_hash_sync_ok calm_env;
  env_modifylog_sync_ok := env_modifylog_sync_ok calm_env;
  env_lseek_ok := env_lseek_ok calm_env;
  env_write_ok := env_write_ok calm_env;
  env_write_partial := env_write_partial calm_env;
  env_torn := env_torn calm_env;
  env_data_reset_ok := env_data_reset_ok calm_env;
  env_modifylog_add_ok := env_modifylog_add_ok calm_env;
  env_sync := env_sync calm_env;
  env_rebuild := env_rebuild calm_env;
  env_hash_rebuild := env_hash_rebuild calm_env
|}.



(** Three messages with the flags {}, {SEEN}, {DELETED}, as three appends
    to the empty index leave them. *)
Definition three_records : list MailIndexRecord :=
  [mkRecord 1 0 0 10; mkRecord 2 8 0 10; mkRecord 3 4 0 10].

Definition three_messages (l : MailLockType) : World := {|
  idx := ix_hash (Some (<[3 := 160]> (<[2 := 120]> (<[1 := 80]> ∅))))
           (ix_mmap_length 200 (sample_index l));
  file_size := 200;
  file_hdr := h_first_deleted_uid_lowwater 3
                (h_deleted_messages_count 1
                   (h_seen_messages_count 1
                      (h_messages_count 3 (h_next_uid 4 sample_header))));
  file_recs := three_records;
  trace := []
|}.

(** One message, uid 1. *)
Definition one_message (l : MailLockType) : World := {|
  idx := ix_hash (Some (<[1 := 80]> ∅)) (ix_mmap_length 120 (sample_index l));
  file_size := 120;
  file_hdr := h_messages_count 1 (h_next_uid 2 sample_header);
  file_recs := [mkRecord 1 0 0 10];
  trace := []
|}.

(** One message, uid 5, that the hash does not know. *)
Definition unhashed_message (l : MailLockType) : World := {|
  idx := ix_mmap_length 120 (sample_index l);
  file_size := 120;
  file_hdr := h_messages_count 1 (h_next_uid 6 sample_header);
  file_recs := [mkRecord 5 0 0 10];
  trace := []
|}.

(** The empty index with its last uid about to be handed out. *)
Definition last_uid_world : World :=
  with_hdr (h_next_uid UINT_MAX) (empty_world MAIL_LOCK_EXCLUSIVE).

(** The empty index after it was rebuilt by someone else: the header
    carries another [indexid] than the handle. *)
Definition rebuilt_world : World :=
  with_hdr (fun h => mkHeader 9 (flags h) (cache_fields h) (first_hole_position h)
              (first_hole_records h) (next_uid h) (messages_count h)
              (seen_messages_count h) (deleted_messages_count h)
              (last_nonrecent_uid h) (first_unseen_uid_lowwater h)
              (first_deleted_uid_lowwater h))
    (empty_world MAIL_LOCK_UNLOCK).


(** As [calm_env], but [mmap] fails. *)
Definition no_mmap_env : Env := {|
  env_mmap_ok := fun _ => false;
  env_ftruncate_ok := env_ftruncate_ok calm_env;
  env_fcntl_ok := env_fcntl_ok calm_env;
  env_msync_ok := env_msync_ok calm_env;
  env_fsync_ok := env_fsync_ok calm_env;
  env_utime_ok := env_utime_ok calm_env;
  env_data_sync_ok := env_data_sync_ok calm_env;
  env_hash_sync_ok := env_hash_sync_ok calm_env;
  env_modifylog_sync_ok := env_modifylog_sync_ok calm_env;
  env_lseek_ok := env_lseek_ok calm_env;
  env_write_ok := env_write_ok calm_env;
  env_write_partial := env_write_partial calm_env;
  env_torn := env_torn calm_env;
  env_data_reset_ok := env_data_reset_ok calm_env;
  env_modifylog_add_ok := env_modifylog_add_ok calm_env;
  env_sync := env_sync calm_env;
  env_rebuild := env_rebuild calm_env;
  env_hash_rebuild := env_hash_rebuild calm_env
|}.



(** As [calm_env], but a slot that a record was written across reads
    with uid 9. *)
Definition torn_env : Env := {|
  env_mmap_ok := env_mmap_ok calm_env;
  env_ftruncate_ok := env_ftruncate_ok calm_env;
  env_fcntl_ok := env_fcntl_ok calm_env;
  env_msync_ok := env_msync_ok calm_env;
  env_fsync_ok := env_fsync_ok calm_env;
  env_utime_ok := env_utime_ok calm_env;
  env_data_sync_ok := env_data_sync_ok calm_env;
  env_hash_sync_ok := env_hash_sync_ok calm_env;
  env_modifylog_sync_ok := env_modifylog_sync_ok calm_env;
  env_lseek_ok := env_lseek_ok calm_env;
  env_write_ok := env_write_ok calm_env;
  env_write_partial := env_write_partial calm_env;
  env_torn := fun _ r => r_uid 9 r;
  env_data_reset_ok := env_data_reset_ok calm_env;
  env_modifylog_add_ok := env_modifylog_add_ok calm_env;
  env_sync := env_sync calm_env;
  env_rebuild := env_rebuild calm_env;
  env_hash_rebuild := env_hash_rebuild calm_env
|}.

(** One message with uid 5 under a header whose [next_uid] is 3. *)
Definition stale_next_uid_world : World :=
  with_hdr (h_next_uid 3) (unhashed_message MAIL_LOCK_EXCLUSIVE).

(** The empty index with 13 stray bytes after its header, held under
    EXCLUSIVE with the 80 bytes of the header mapped. *)
Definition stray_exclusive_world : World :=
  with_file_size 93 (empty_world MAIL_LOCK_EXCLUSIVE).

(** As [calm_env], but the modification log takes no expunge entry. *)
Definition no_log_env : Env := {|
  env_mmap_ok := env_mmap_ok calm_env;
  env_ftruncate_ok := env_ftruncate_ok calm_env;
  env_fcntl_ok := env_fcntl_ok calm_env;
  env_msync_ok := env_msync_ok calm_env;
  env_fsync_ok := env_fsync_ok calm_env;
  env_utime_ok := env_utime_ok calm_env;
  env_data_sync_ok := env_data_sync_ok calm_env;
  env_hash_sync_ok := env_hash_sync_ok calm_env;
  env_modifylog_sync_ok := env_modifylog_sync_ok calm_env;
  env_lseek_ok := env_lseek_ok calm_env;
  env_write_ok := env_write_ok calm_env;
  env_write_partial := env_write_partial calm_env;
  env_torn := env_torn calm_env;
  env_data_reset_ok := env_data_reset_ok calm_env;
  env_modifylog_add_ok := fun _ => false;
  env_sync := env_sync calm_env;
  env_rebuild := env_rebuild calm_env;
  env_hash_rebuild := env_hash_rebuild calm_env
|}.

(** Five slots under EXCLUSIVE: messages 1, 3 and 5, the hole of one
    record at offset 120 that the header describes, and a second hole
    at offset 200. *)
Definition merging_holes_world : World := {|
  idx := ix_hash (Some (<[5 := 240]> (<[3 := 160]> (<[1 := 80]> ∅))))
           (ix_mmap_length 280 (sample_index MAIL_LOCK_EXCLUSIVE));
  file_size := 280;
  file_hdr := h_first_hole_records 1
                (h_first_hole_position 120
                   (h_messages_count 3 (h_next_uid 6 sample_header)));
  file_recs := [mkRecord 1 0 0 10; mkRecord 0 0 0 10; mkRecord 3 4 0 10;
                mkRecord 0 0 0 10; mkRecord 5 0 0 10];
  trace := []
|}.

(** Four slots, of which the handle has mapped three: messages 1 and 3,
    the hole at offset 120 between them, and a tombstone at offset 200
    that lies behind the end of the mapping. *)
Definition short_mapping_world : World := {|
  idx := ix_hash (Some (<[3 := 160]> (<[1 := 80]> ∅)))
           (ix_mmap_length 200 (sample_index MAIL_LOCK_EXCLUSIVE));
  file_size := 240;
  file_hdr := h_first_hole_records 1
                (h_first_hole_position 120
                   (h_messages_count 2 (h_next_uid 5 sample_header)));
  file_recs := [mkRecord 1 0 0 10; mkRecord 0 0 0 10; mkRecord 3 4 0 10;
                mkRecord 0 0 0 10];
  trace := []
|}.

(** The empty index, mapped, after its file was cut to 10 bytes. *)
Definition short_file_world : World :=
  with_file_size 10 (empty_world MAIL_LOCK_SHARED).

(** An index file with 13 stray bytes after its header, not yet mapped. *)
Definition stray_bytes_world : World :=
  with_idx (ix_dirty_mmap true) (with_file_size 93 (empty_world MAIL_LOCK_SHARED)).

(** ** The specification's wording, for comparison with the code *)

Section SpecWording.
Context `{Platform}.

(** The four logical transitions of the flag-delta bookkeeping, in the
    priority order of the specification. *)
Inductive Transition :=
  | UnseenToSeen | SeenToUnseen | UndeletedToDeleted | DeletedToUndeleted.

Definition applicable (old_flags new_flags : Z) (t : Transition) : bool :=
  match t with
  | UnseenToSeen => negb (has_flag old_flags MAIL_SEEN) && has_flag new_flags MAIL_SEEN
  | SeenToUnseen => has_flag old_flags MAIL_SEEN && negb (has_flag new_flags MAIL_SEEN)
  | UndeletedToDeleted =>
      negb (has_flag old_flags MAIL_DELETED) && has_flag new_flags MAIL_DELETED
  | DeletedToUndeleted =>
      has_flag old_flags MAIL_DELETED && negb (has_flag new_flags MAIL_DELETED)
  end.

Definition priority_order : list Transition :=
  [UnseenToSeen; SeenToUnseen; UndeletedToDeleted; DeletedToUndeleted].

Definition first_applicable (old_flags new_flags : Z) : option Transition :=
  List.find (applicable old_flags new_flags) priority_order.

(** What each transition does to the header, for a record with uid [u]. *)
Definition apply_transition (t : Transition) (u : Z) (h : MailIndexHeader)
    : MailIndexHeader :=
  match t with
  | UnseenToSeen => h_seen_messages_count (wrap (seen_messages_count h + 1)) h
  | SeenToUnseen =>
      let low :=
        if (seen_messages_count h =? messages_count h)
           || (u <? first_unseen_uid_lowwater h)
        then u else first_unseen_uid_lowwater h in
      h_seen_messages_count (wrap (seen_messages_count h - 1))
        (h_first_unseen_uid_lowwater low h)
  | UndeletedToDeleted =>
      let n := wrap (deleted_messages_count h + 1) in
      let low :=
        if (n =? 1) || (u <? first_deleted_uid_lowwater h)
        then u else first_deleted_uid_lowwater h in
      h_first_deleted_uid_lowwater low (h_deleted_messages_count n h)
  | DeletedToUndeleted =>
      h_deleted_messages_count (wrap (deleted_messages_count h - 1)) h
  end.

(** The number of tombstones at the head of [recs]. *)
Fixpoint tombstone_run (recs : list MailIndexRecord) : nat :=
  match recs with
  | r :: rest => if uid r =? 0 then S (tombstone_run rest) else O
  | [] => O
  end.

(** The tombstones that lie back to back from offset [pos] on. *)
Definition tombstones_at (recs : list MailIndexRecord) (pos : Z) : Z :=
  match slot_of pos with
  | Some k => Z.of_nat (tombstone_run (drop k recs))
  | None => 0
  end.

(** The hole descriptor after the record at [pos] was expunged, and
    whether COMPRESS is asked for; [fhp], [fhr] are the descriptor before,
    [recs] the records with the expunged one already a tombstone. *)
Definition hole_after_expunge (fhp fhr pos : Z) (recs : list MailIndexRecord)
    : Z * Z * bool :=
  if fhp =? 0 then (pos, 1, false)                        (* no hole yet *)
  else if pos + RSIZE =? fhp then
    (fhp - RSIZE, wrap (fhr + 1), false)                  (* just before the hole *)
  else if pos =? fhp + fhr * RSIZE then                   (* just after the hole *)
    let n := wrap (fhr + 1) in
    (fhp, wrap (n + tombstones_at recs (fhp + n * RSIZE)), false)
  else                                                    (* a second hole *)
    (Z.min fhp pos, if pos <? fhp then 1 else fhr, true).








(** Worlds that differ in [first_hole_records] at most. *)
Definition same_but_hole_records (w w' : World) : Prop :=
  idx w' = idx w /\ file_size w' = file_size w /\ file_recs w' = file_recs w
  /\ trace w' = trace w
  /\ h_first_hole_records 0 (file_hdr w') = h_first_hole_records 0 (file_hdr w).

(** Worlds that differ in the hole descriptor and the pending flags at
    most. *)
Definition same_but_hole (w w' : World) : Prop :=
  ix_set_flags 0 (idx w') = ix_set_flags 0 (idx w)
  /\ file_size w' = file_size w /\ file_recs w' = file_recs w
  /\ trace w' = trace w
  /\ h_first_hole_records 0 (h_first_hole_position 0 (file_hdr w'))
     = h_first_hole_records 0 (h_first_hole_position 0 (file_hdr w)).

(** The header as [set_lock] leaves it before it asks for the lock when
    EXCLUSIVE is given up: FSCK cleared, then the pending flags or-ed in
    and the pending cache fields (if any) stored. *)
Definition released_header (w : World) : MailIndexHeader :=
  let h := file_hdr w in
  h_cache_fields
    (if set_cache_fields (idx w) =? 0 then cache_fields h else set_cache_fields (idx w))
    (h_flags (Z.lor (Z.land (flags h) (Z.lnot MAIL_INDEX_FLAG_FSCK)) (set_flags (idx w))) h).

End SpecWording.

(** ** The rest of the index: lookup by sequence, flag updates, cached
    fields, non-blocking locks *)

(** Modelled from the spec: the modification log ("add_expunge,
    add_flags") and the data store ("lookup(record, field) ... verify
    record") are modules outside these sources; like the calls of [Env],
    their answers are functions of the current world, and so is the
    answer of [fcntl(F_SETLK)].

    [ErrorMsg] and [Event] name the messages and calls of the locking
    and append code.  The text of the one message that
    [mail_index_lookup_mapped] sets and the trace entry for
    [mail_modifylog_add_flags] are supplied with this environment. *)

Inductive SetlkResult :=
  | SetlkGranted               (* fcntl(F_SETLK) returned 0 *)
  | SetlkBusy                  (* -1 with errno EINTR or EACCES *)
  | SetlkFailed.               (* -1 with any other errno *)

Record Env2 := mkEnv2 {
  env_setlk : World -> MailLockType -> SetlkResult;
  env_modifylog_add_flags_ok : World -> bool;   (* mail_modifylog_add_flags *)
  env_data_lookup : World -> MailIndexRecord -> Z -> option (list Z);
      (* mail_index_data_lookup: the field's data, NULL when absent *)
  env_data_record_verify : World -> list Z -> bool * World;
      (* mail_index_data_record_verify *)
  msg_hole_not_updated : ErrorMsg;
      (* "first_hole_position wasn't updated properly" *)
  ev_modifylog_flags : Z -> Z -> bool -> bool -> Event
      (* mail_modifylog_add_flags(seq, uid, external_change) and its result *)
}.

Definition r_msg_flags v (r : MailIndexRecord) :=
  mkRecord (uid r) v (cached_fields r) (data_size r).

Section ModelMore.
Context `{Platform} (E : Env) (E2 : Env2).

(** [MAIL_INDEX_FLAG_CACHE_FIELDS], one more flag bit of mail-index.h. *)
Variable MAIL_INDEX_FLAG_CACHE_FIELDS : Z.

(** Modelled from the spec: [INDEX_POSITION_INDEX] is not in the sources;
    "sequence is (offset_of(rec) - header_size) / record_size + 1". *)
Definition INDEX_POSITION_INDEX (pos : Z) : Z := (pos - HSIZE) / RSIZE.

(** *** mail_index_lookup_mapped, mail_index_lookup (lines 756-839) *)

(** The [while (seq < lookup_seq && rec < end_rec)] loop. *)
Fixpoint seq_walk (fuel : nat) (w : World) (seq lookup_seq rec : Z) : outcome Z :=
  match fuel with
  | O => OutOfFuel
  | S fuel' =>
      if (seq <? lookup_seq) && (rec <? mmap_length (idx w)) then
        r ← read_rec w rec;
        seq_walk fuel' w (if negb (uid r =? 0) then wrap (seq + 1) else seq)
          lookup_seq (rec + RSIZE)
      else Done rec
  end.

Definition mail_index_lookup_mapped (w : World) (lookup_seq : Z)
    : outcome (option Z * World) :=
  same ← (if lookup_seq =? last_lookup_seq (idx w) then
            match last_lookup (idx w) with
            | Some p => r ← read_rec w p; Done (negb (uid r =? 0))
            | None => Done false
            end
          else Done false);
  if (same : bool) then
    (* wanted the same record as last time *)
    Done (last_lookup (idx w), w)
  else
    let hdr := file_hdr w in
    let seekpos := HSIZE + wrap (lookup_seq - 1) * RSIZE in
    if mmap_length (idx w) - RSIZE <? seekpos then
      (* out of range *)
      Done (None, w)
    else if (first_hole_position hdr =? 0) || (seekpos <? first_hole_position hdr) then
      (* easy, it's just at the expected index *)
      r ← read_rec w seekpos;
      if uid r =? 0 then
        Done (None, INDEX_MARK_CORRUPTED (index_set_error (msg_hole_not_updated E2) w))
      else Done (Some seekpos, w)
    else
      (* we need to walk through the index to get to wanted position *)
      start ← (match last_lookup (idx w) with
               | Some p =>
                   if last_lookup_seq (idx w) <? lookup_seq
                   then Done (last_lookup_seq (idx w), p)
                   else
                     _ ← i_assert (0 <? first_hole_records hdr);
                     let seq := wrap (INDEX_POSITION_INDEX (first_hole_position hdr + 1) + 1) in
                     Done (seq, HSIZE + wrap (seq - 1 + first_hole_records hdr) * RSIZE)
               | None =>
                   _ ← i_assert (0 <? first_hole_records hdr);
                   let seq := wrap (INDEX_POSITION_INDEX (first_hole_position hdr + 1) + 1) in
                   Done (seq, HSIZE + wrap (seq - 1 + first_hole_records hdr) * RSIZE)
               end);
      let '(seq, rec) := start in
      rec ← seq_walk (S (length (file_recs w))) w seq lookup_seq rec;
      Done (Some rec, w).

Definition mail_index_lookup (w : World) (seq : Z) : outcome (option Z * World) :=
  _ ← i_assert (0 <? seq);
  _ ← i_assert (negb (lock_eqb (lock_type (idx w)) MAIL_LOCK_UNLOCK));
  let '(ok, w) := mmap_update E w in
  if negb ok then Done (None, w)
  else
    '(res, w) ← mail_index_lookup_mapped w seq;
    Done (res, with_idx (fun i => ix_last_lookup_seq seq (ix_last_lookup res i)) w).

(** *** mail_index_next (lines 841-860) *)

(** The [while (++rec < end_rec)] loop, entered with [rec] already
    advanced. *)
Fixpoint next_walk (fuel : nat) (w : World) (rec : Z) : outcome (option Z) :=
  match fuel with
  | O => OutOfFuel
  | S fuel' =>
      if rec <? mmap_length (idx w) then
        r ← read_rec w rec;
        if negb (uid r =? 0) then Done (Some rec)
        else next_walk fuel' w (rec + RSIZE)
      else Done None
  end.

Definition mail_index_next (w : World) (rec : option Z) : outcome (option Z) :=
  _ ← i_assert (negb (dirty_mmap (idx w)));
  _ ← i_assert (negb (lock_eqb (lock_type (idx w)) MAIL_LOCK_UNLOCK));
  match rec with
  | None => Done None
  | Some p => next_walk (S (length (file_recs w))) w (p + RSIZE)
  end.

(** *** mail_index_get_sequence (lines 951-988) *)

(** The [for (; seekrec != rec; seekrec++)] loop. *)
Fixpoint seq_count (fuel : nat) (w : World) (seq seekrec rec : Z) : outcome Z :=
  match fuel with
  | O => OutOfFuel
  | S fuel' =>
      if seekrec =? rec then Done seq
      else
        r ← read_rec w seekrec;
        seq_count fuel' w (if negb (uid r =? 0) then wrap (seq + 1) else seq)
          (seekrec + RSIZE) rec
  end.

Definition mail_index_get_sequence (w : World) (rec : Z) : outcome Z :=
  _ ← i_assert (negb (lock_eqb (lock_type (idx w)) MAIL_LOCK_UNLOCK));
  let hdr := file_hdr w in
  if bool_decide (last_lookup (idx w) = Some rec) then
    (* same as last lookup sequence - too easy *)
    Done (last_lookup_seq (idx w))
  else if first_hole_position hdr =? 0 then
    Done (wrap (INDEX_POSITION_INDEX rec + 1))
  else if rec <? first_hole_position hdr then
    (* record before first hole *)
    Done (wrap (INDEX_POSITION_INDEX rec + 1))
  else
    seq_count (S (length (file_recs w))) w
      (wrap (INDEX_POSITION_INDEX (first_hole_position hdr) + 1))
      (first_hole_position hdr + first_hole_records hdr * RSIZE) rec.

(** *** mail_index_update_flags (lines 1130-1145) *)
Definition mail_index_update_flags (w : World) (rec seq new_flags : Z)
    (external_change : bool) : outcome (bool * World) :=
  _ ← i_assert (lock_eqb (lock_type (idx w)) MAIL_LOCK_EXCLUSIVE);
  _ ← i_assert (negb (seq =? 0));
  r ← read_rec w rec;
  if new_flags =? msg_flags r then Done (true, w) (* no changes *)
  else
    let w := index_mark_flag_changes w r (msg_flags r) new_flags in
    let w := with_recs (fun l => match slot_of rec with
                                 | Some k => alter (r_msg_flags new_flags) k l
                                 | None => l
                                 end) w in
    let ok := env_modifylog_add_flags_ok E2 w in
    Done (ok, emit (ev_modifylog_flags E2 seq (uid r) external_change ok) w).

(** *** mail_index_lookup_field (lines 912-949) *)
Definition mail_index_lookup_field (w : World) (rec : Z) (field : Z)
    : outcome (option (list Z) * World) :=
  _ ← i_assert (negb (lock_eqb (lock_type (idx w)) MAIL_LOCK_UNLOCK));
  r ← read_rec w rec;
  (* first check if the field even could be in the file *)
  if negb (Z.land (cached_fields r) field =? field) then
    if Z.land (cache_fields (file_hdr w)) field =? 0 then
      (* no, but make sure the future records will have it *)
      Done (None, with_idx (fun i => ix_set_cache_fields
                                       (Z.lor (set_cache_fields i) field) i) w)
    else
      (* at least the second time it's being asked *)
      Done (None, with_idx (fun i => ix_set_flags
                                       (Z.lor (set_flags i) MAIL_INDEX_FLAG_CACHE_FIELDS) i) w)
  else
    match env_data_lookup E2 w r field with
    | None =>
        (* corrupted, the field should have been there *)
        Done (None, with_idx (fun i => ix_set_flags
                                         (Z.lor (set_flags i) MAIL_INDEX_FLAG_REBUILD) i) w)
    | Some data =>
        let '(ok, w) := env_data_record_verify E2 w data in
        if negb ok then Done (None, w) else Done (Some data, w)
    end.

(** *** mail_index_try_lock (lines 201-224)

    The [F_SETLK] request is recorded like the [F_SETLKW] ones, and its
    error message is the same text in the source. *)
Definition mail_index_try_lock (w : World) (lock : MailLockType) : bool * World :=
  if lock_eqb (lock_type (idx w)) lock then (true, w)
  else
    match env_setlk E2 w lock with
    | SetlkGranted => (true, emit (EvFcntl lock true (file_hdr w)) w)
    | SetlkBusy => (false, emit (EvFcntl lock false (file_hdr w)) w)
    | SetlkFailed =>
        (false, index_set_error (ErrFcntl lock) (emit (EvFcntl lock false (file_hdr w)) w))
    end.

End ModelMore.

(** ** What the header says about the records *)

Definition is_live (r : MailIndexRecord) : bool := negb (uid r =? 0).

Fixpoint count_where (p : MailIndexRecord -> bool) (recs : list MailIndexRecord) : nat :=
  match recs with
  | [] => O
  | r :: rest => if p r then S (count_where p rest) else count_where p rest
  end.

(** The number of live records. *)
Definition count_live : list MailIndexRecord -> nat := count_where is_live.

(** The number of live records that carry the flag [f]. *)
Definition count_flag (f : Z) : list MailIndexRecord -> nat :=
  count_where (fun r => is_live r && has_flag (msg_flags r) f).

(** The handle after [mail_index_lookup] has stored its result. *)
Definition remember_lookup (res : option Z) (seq : Z) (w : World) : World :=
  with_idx (fun i => ix_last_lookup_seq seq (ix_last_lookup res i)) w.

Section Invariants.
Context `{Platform}.

(** I1: [messages_count] counts the live records. *)
Definition count_ok (w : World) : Prop :=
  messages_count (file_hdr w) = Z.of_nat (count_live (file_recs w)).

(** ... and the seen and deleted counts the live records with the flag. *)
Definition seen_ok (w : World) : Prop :=
  seen_messages_count (file_hdr w) = Z.of_nat (count_flag MAIL_SEEN (file_recs w)).

Definition deleted_ok (w : World) : Prop :=
  deleted_messages_count (file_hdr w) = Z.of_nat (count_flag MAIL_DELETED (file_recs w)).

(** I3: the records are live records [pre], then the tombstones [hole]
    the header describes, then [post]; without a hole all are live. *)
Definition hole_splits (w : World) (pre hole post : list MailIndexRecord) : Prop :=
  file_recs w = pre ++ hole ++ post
  /\ Forall (fun r => uid r <> 0) pre
  /\ Forall (fun r => uid r = 0) hole
  /\ hole <> []
  /\ first_hole_position (file_hdr w) = HSIZE + Z.of_nat (length pre) * RSIZE
  /\ first_hole_records (file_hdr w) = Z.of_nat (length hole).

Definition hole_ok (w : World) : Prop :=
  (first_hole_position (file_hdr w) = 0 /\ Forall (fun r => uid r <> 0) (file_recs w))
  \/ exists pre hole post, hole_splits w pre hole post.

(** No hole but the one the header describes. *)
Definition one_hole (w : World) : Prop :=
  (first_hole_position (file_hdr w) = 0 /\ Forall (fun r => uid r <> 0) (file_recs w))
  \/ exists pre hole post,
       hole_splits w pre hole post /\ Forall (fun r => uid r <> 0) post.

(** The mapping is current and covers the records exactly. *)
Definition mapped (w : World) : Prop :=
  dirty_mmap (idx w) = false
  /\ mmap_base (idx w) = true /\ header (idx w) = true
  /\ mmap_length (idx w) = HSIZE + Z.of_nat (length (file_recs w)) * RSIZE.

End Invariants.

(** ** More concrete indexes *)

(** Every call of the second environment succeeds; the data store has
    no field to offer.  [ErrorMsg] and [Event] have no names of their
    own for the message and the call, so the sample borrows two. *)
Definition sample_env2 : Env2 := {|
  env_setlk := fun _ _ => SetlkGranted;
  env_modifylog_add_flags_ok := fun _ => true;
  env_data_lookup := fun _ _ _ => None;
  env_data_record_verify := fun w _ => (true, w);
  msg_hole_not_updated := ErrInconsistency;
  ev_modifylog_flags := fun seq u ext ok => EvModifylogExpunge seq u ext ok
|}.

(** As [sample_env2], but the modification log takes no flag entry. *)
Definition deaf_log_env2 : Env2 := {|
  env_setlk := env_setlk sample_env2;
  env_modifylog_add_flags_ok := fun _ => false;
  env_data_lookup := env_data_lookup sample_env2;
  env_data_record_verify := env_data_record_verify sample_env2;
  msg_hole_not_updated := msg_hole_not_updated sample_env2;
  ev_modifylog_flags := ev_modifylog_flags sample_env2
|}.

(** As [calm_env], but the hash file cannot be synced. *)
Definition no_hash_sync_env : Env := {|
  env_mmap_ok := env_mmap_ok calm_env;
  env_ftruncate_ok := env_ftruncate_ok calm_env;
  env_fcntl_ok := env_fcntl_ok calm_env;
  env_msync_ok := env_msync_ok calm_env;
  env_fsync_ok := env_fsync_ok calm_env;
  env_utime_ok := env_utime_ok calm_env;
  env_data_sync_ok := env_data_sync_ok calm_env;
  env_hash_sync_ok := fun _ => false;
  env_modifylog_sync_ok := env_modifylog_sync_ok calm_env;
  env_lseek_ok := env_lseek_ok calm_env;
  env_write_ok := env_write_ok calm_env;
  env_write_partial := env_write_partial calm_env;
  env_torn := env_torn calm_env;
  env_data_reset_ok := env_data_reset_ok calm_env;
  env_modifylog_add_ok := env_modifylog_add_ok calm_env;
  env_sync := env_sync calm_env;
  env_rebuild := env_rebuild calm_env;
  env_hash_rebuild := env_hash_rebuild calm_env
|}.

(** As [calm_env], but the rebuild callback fails. *)
Definition no_rebuild_env : Env := {|
  env_mmap_ok := env_mmap_ok calm_env;
  env_ftruncate_ok := env_ftruncate_ok calm_env;
  env_fcntl_ok := env_fcntl_ok calm_env;
  env_msync_ok := env_msync_ok calm_env;
  env_fsync_ok := env_fsync_ok calm_env;
  env_utime_ok := env_utime_ok calm_env;
  env_data_sync_ok := env_data_sync_ok calm_env;
  env_hash_sync_ok := env_hash_sync_ok calm_env;
  env_modifylog_sync_ok := env_modifylog_sync_ok calm_env;
  env_lseek_ok := env_lseek_ok calm_env;
  env_write_ok := env_write_ok calm_env;
  env_write_partial := env_write_partial calm_env;
  env_torn := env_torn calm_env;
  env_data_reset_ok := env_data_reset_ok calm_env;
  env_modifylog_add_ok := env_modifylog_add_ok calm_env;
  env_sync := env_sync calm_env;
  env_rebuild := fun w => (false, w);
  env_hash_rebuild := env_hash_rebuild calm_env
|}.

(** [three_messages] after the second message was expunged: a hole of
    one record at offset 120. *)
Definition holed_messages (l : MailLockType) : World :=
  with_hdr (fun h => h_seen_messages_count 0
                       (h_messages_count 2
                          (h_first_hole_records 1 (h_first_hole_position 120 h))))
    (with_recs (alter (r_uid 0) 1%nat) (three_messages l)).

(** [three_messages] with the second record a tombstone that the header
    knows nothing of. *)
Definition unnoticed_tombstone (l : MailLockType) : World :=
  with_recs (alter (r_uid 0) 1%nat) (three_messages l).

(** [three_messages] with a header that lists cache field 1. *)
Definition listed_field_world : World :=
  with_hdr (h_cache_fields 1) (three_messages MAIL_LOCK_EXCLUSIVE).

(** [three_messages] with REBUILD in the header. *)
Definition rebuild_wanted_world : World :=
  with_hdr (h_flags 1) (three_messages MAIL_LOCK_SHARED).

(** One message that is both SEEN and DELETED. *)
Definition seen_deleted_message (l : MailLockType) : World := {|
  idx := ix_hash (Some (<[1 := 80]> ∅)) (ix_mmap_length 120 (sample_index l));
  file_size := 120;
  file_hdr := h_first_deleted_uid_lowwater 1
                (h_deleted_messages_count 1
                   (h_seen_messages_count 1
                      (h_messages_count 1 (h_next_uid 2 sample_header))));
  file_recs := [mkRecord 1 12 0 10];
  trace := []
|}.

(** ** Proofs *)

Lemma land_lor_same (a b : Z) : Z.land (Z.lor a b) b = b.
Proof.
  apply Z.bits_inj'; intros n _.
  rewrite Z.land_spec, Z.lor_spec.
  destruct (Z.testbit a n), (Z.testbit b n); reflexivity.
Qed.


Lemma has_flag_lor (a b : Z) : b <> 0 -> has_flag (Z.lor a b) b = true.
Proof.
  intros Hb. unfold has_flag. rewrite land_lor_same.
  destruct (Z.eqb_spec b 0); [contradiction | reflexivity].
Qed.

Lemma has_flag_eq0 (a b : Z) : (Z.land a b =? 0) = negb (has_flag a b).
Proof. unfold has_flag. destruct (Z.land a b =? 0); reflexivity. Qed.


Lemma header_eta (h : MailIndexHeader) :
  mkHeader (hdr_indexid h) (flags h) (cache_fields h) (first_hole_position h)
    (first_hole_records h) (next_uid h) (messages_count h) (seen_messages_count h)
    (deleted_messages_count h) (last_nonrecent_uid h) (first_unseen_uid_lowwater h)
    (first_deleted_uid_lowwater h) = h.
Proof. destruct h; reflexivity. Qed.

Section Proofs.
Context `{Platform} (E : Env).

#[local] Arguments mmap_update : simpl never.
#[local] Arguments index_mark_flag_changes : simpl never.
#[local] Arguments file_write : simpl never.
#[local] Arguments read_rec : simpl never.
#[local] Arguments mail_index_truncate : simpl never.
#[local] Arguments update_first_hole_records : simpl never.
#[local] Arguments mail_index_sync_file : simpl never.
#[local] Arguments wrap : simpl never.
#[local] Arguments expunge_update_first_hole : simpl never.
#[local] Arguments expunge_update_counts : simpl never.

(** *** Flag-delta bookkeeping *)

(** The code agrees with the priority reading of the specification. *)
Lemma index_mark_flag_changes_first (w : World) (rec : MailIndexRecord)
    (old_flags new_flags : Z) :
  index_mark_flag_changes w rec old_flags new_flags =
    match first_applicable old_flags new_flags with
    | Some t => with_hdr (apply_transition t (uid rec)) w
    | None => w
    end.
Proof.
  unfold index_mark_flag_changes, first_applicable, priority_order.
  cbn [List.find applicable].
  rewrite !has_flag_eq0.
  destruct w as [i fs h rs tr]; destruct h as [hid fl cf hp hr nu mc sc dc ln us ds].
  unfold apply_transition, with_hdr; cbn.
  destruct (has_flag old_flags MAIL_SEEN), (has_flag new_flags MAIL_SEEN);
    cbn [negb andb]; try reflexivity.
  - (* SEEN kept: only the DELETED bit matters *)
    destruct (has_flag old_flags MAIL_DELETED), (has_flag new_flags MAIL_DELETED);
      cbn [negb andb]; try reflexivity.
    destruct (wrap (dc + 1) =? 1); cbn; [reflexivity|].
    destruct (uid rec <? ds); reflexivity.
  - (* seen -> unseen *)
    destruct (sc =? mc); cbn; [reflexivity|].
    destruct (uid rec <? us); reflexivity.
  - (* SEEN absent on both sides *)
    destruct (has_flag old_flags MAIL_DELETED), (has_flag new_flags MAIL_DELETED);
      cbn [negb andb]; try reflexivity.
    destruct (wrap (dc + 1) =? 1); cbn; [reflexivity|].
    destruct (uid rec <? ds); reflexivity.
Qed.

Lemma index_mark_flag_changes_frame (w : World) (rec : MailIndexRecord)
    (old_flags new_flags : Z) :
  let w' := index_mark_flag_changes w rec old_flags new_flags in
  idx w' = idx w /\ file_size w' = file_size w /\ file_recs w' = file_recs w
  /\ trace w' = trace w
  /\ next_uid (file_hdr w') = next_uid (file_hdr w)
  /\ messages_count (file_hdr w') = messages_count (file_hdr w)
  /\ first_hole_position (file_hdr w') = first_hole_position (file_hdr w)
  /\ first_hole_records (file_hdr w') = first_hole_records (file_hdr w)
  /\ flags (file_hdr w') = flags (file_hdr w)
  /\ hdr_indexid (file_hdr w') = hdr_indexid (file_hdr w).
Proof.
  cbn zeta. rewrite index_mark_flag_changes_first.
  destruct (first_applicable old_flags new_flags) as [[]|]; cbn; repeat split.
Qed.

(** C4 (as amended): [index_mark_flag_changes] applies at most one
    transition, the first applicable one in the order unseen->seen,
    seen->unseen, undeleted->deleted, deleted->undeleted, and leaves the
    world alone when none applies; a call that sets both SEEN and DELETED
    updates the seen counter only; in the seen->unseen case the unseen
    lowwater becomes the record's uid exactly when the seen count (before
    its decrement) equals the message count or the uid is below the
    lowwater. *)
Theorem index_mark_flag_changes_priority (w : World) (rec : MailIndexRecord)
    (old_flags new_flags : Z) :
  index_mark_flag_changes w rec old_flags new_flags =
    match first_applicable old_flags new_flags with
    | Some t => with_hdr (apply_transition t (uid rec)) w
    | None => w
    end
  /\ (applicable old_flags new_flags UnseenToSeen = true ->
      applicable old_flags new_flags UndeletedToDeleted = true ->
      index_mark_flag_changes w rec old_flags new_flags =
        with_hdr (h_seen_messages_count (wrap (seen_messages_count (file_hdr w) + 1))) w)
  /\ (applicable old_flags new_flags SeenToUnseen = true ->
      let h := file_hdr w in
      let h' := file_hdr (index_mark_flag_changes w rec old_flags new_flags) in
      first_unseen_uid_lowwater h' =
        (if (seen_messages_count h =? messages_count h)
            || (uid rec <? first_unseen_uid_lowwater h)
         then uid rec else first_unseen_uid_lowwater h)
      /\ seen_messages_count h' = wrap (seen_messages_count h - 1)).
Proof.
  assert (Hmain : index_mark_flag_changes w rec old_flags new_flags =
    match first_applicable old_flags new_flags with
    | Some t => with_hdr (apply_transition t (uid rec)) w
    | None => w
    end).
  { apply index_mark_flag_changes_first. }
  split; [exact Hmain|]. split.
  - intros Hs _. rewrite Hmain. unfold first_applicable, priority_order.
    cbn [List.find]. rewrite Hs. reflexivity.
  - intros Hs. cbn zeta. rewrite Hmain. unfold first_applicable, priority_order.
    cbn [List.find]. rewrite Hs.
    replace (applicable old_flags new_flags UnseenToSeen) with false.
    + cbn. split; reflexivity.
    + cbn in Hs |- *. destruct (has_flag old_flags MAIL_SEEN); [reflexivity | discriminate].
Qed.

(** *** Mapping refresh *)

Lemma mod_floor_bounds (len : Z) :
  0 < RSIZE -> HSIZE <= len ->
  let k := (len - HSIZE) / RSIZE in
  len - (len - HSIZE) mod RSIZE = HSIZE + k * RSIZE
  /\ HSIZE + k * RSIZE <= len < HSIZE + (k + 1) * RSIZE.
Proof.
  intros HR Hlen k. subst k.
  assert (Hnz : RSIZE <> 0) by lia.
  pose proof (Z.div_mod (len - HSIZE) RSIZE Hnz) as Hdm.
  pose proof (Z.mod_pos_bound (len - HSIZE) RSIZE HR) as Hb.
  nia.
Qed.

(** C7 (as amended): a refresh of a dirty mapping over a file shorter
    than the header marks the index corrupted (REBUILD is put into the
    pending flags) and fails; over a file whose record area is not a
    whole number of records it keeps the largest length
    [HSIZE + k * RSIZE] that fits, asks for the file to be truncated to
    exactly that length, stores no error and succeeds, whatever
    [ftruncate] answers: the file has the new length if the call
    succeeded and its old length if it failed. *)
Theorem mmap_update_refresh (w : World) :
  PlatformOk ->
  dirty_mmap (idx w) = true ->
  env_mmap_ok E w = true ->
  (file_size w < HSIZE ->
     exists w', mmap_update E w = (false, w')
       /\ has_flag (set_flags (idx w')) MAIL_INDEX_FLAG_REBUILD = true
       /\ error (idx w') = Some ErrTruncatedFile
       /\ dirty_mmap (idx w') = true)
  /\ (HSIZE <= file_size w -> (file_size w - HSIZE) mod RSIZE <> 0 ->
     let k := (file_size w - HSIZE) / RSIZE in
     exists w' ok, mmap_update E w = (true, w')
       /\ mmap_length (idx w') = HSIZE + k * RSIZE
       /\ HSIZE + k * RSIZE <= file_size w < HSIZE + (k + 1) * RSIZE
       /\ trace w' = EvFtruncate (HSIZE + k * RSIZE) ok :: trace w
       /\ (ok = true -> file_size w' = HSIZE + k * RSIZE)
       /\ (ok = false -> file_size w' = file_size w /\ file_recs w' = file_recs w)
       /\ error (idx w') = error (idx w)
       /\ set_flags (idx w') = set_flags (idx w)
       /\ dirty_mmap (idx w') = false).
Proof.
  intros HP Hdirty Hmap. split.
  - intros Hshort. unfold mmap_update. rewrite Hdirty, Hmap. cbn.
    destruct (Z.ltb_spec (file_size w) HSIZE) as [_|]; [|lia].
    eexists; split; [reflexivity|]. cbn.
    repeat split; [|exact Hdirty]. apply has_flag_lor. pose proof (rebuild_bit HP). lia.
  - intros Hlen Hextra k. unfold mmap_update. rewrite Hdirty, Hmap. cbn.
    destruct (Z.ltb_spec (file_size w) HSIZE) as [|_]; [lia|].
    destruct (Z.eqb_spec ((file_size w - HSIZE) mod RSIZE) 0) as [|_]; [contradiction|].
    cbn.
    destruct (mod_floor_bounds (file_size w) (rsize_pos HP) Hlen) as [Heq Hbounds].
    fold k in Heq, Hbounds.
    unfold ftruncate. cbn. rewrite Heq.
    match goal with |- context [env_ftruncate_ok E ?x ?n] =>
      destruct (env_ftruncate_ok E x n) eqn:Hok end;
      eexists; eexists; (split; [reflexivity|]); cbn;
      repeat split; try exact Hbounds; try (intros; lia); discriminate.
Qed.

(** *** Append *)

Lemma wrap_small (x : Z) : 0 <= x <= UINT_MAX -> wrap x = x.
Proof. unfold wrap, UINT_MAX. intros Hx. apply Z.mod_small. lia. Qed.


Lemma slot_of_slot_pos (k : nat) :
  0 < RSIZE -> slot_of (HSIZE + Z.of_nat k * RSIZE) = Some k.
Proof.
  intros HR. unfold slot_of.
  replace (HSIZE + Z.of_nat k * RSIZE - HSIZE) with (Z.of_nat k * RSIZE) by lia.
  rewrite Z.mod_mul, Z.div_mul by lia. rewrite Nat2Z.id.
  destruct (Z.leb_spec HSIZE (HSIZE + Z.of_nat k * RSIZE)) as [_|Hlt]; [reflexivity|nia].
Qed.

Lemma slot_of_inv (pos : Z) (k : nat) :
  0 < RSIZE -> slot_of pos = Some k -> pos = HSIZE + Z.of_nat k * RSIZE.
Proof.
  intros HR. unfold slot_of.
  destruct (Z.leb_spec HSIZE pos) as [Hle|]; [|discriminate]. cbn.
  destruct (Z.eqb_spec ((pos - HSIZE) mod RSIZE) 0) as [Hm|]; [|discriminate].
  intros [= <-].
  assert (Hnz : RSIZE <> 0) by lia.
  pose proof (Z.div_mod (pos - HSIZE) RSIZE Hnz) as Hdm.
  assert (0 <= (pos - HSIZE) / RSIZE) by (apply Z.div_pos; lia).
  rewrite Z2Nat.id by assumption. lia.
Qed.

(** A successful refresh of a dirty mapping over a file that is a header
    and whole records: the mapping covers the file, nothing is cut. *)
Lemma mmap_update_dirty_aligned (w w' : World) :
  dirty_mmap (idx w) = true ->
  (file_size w - HSIZE) mod RSIZE = 0 ->
  mmap_update E w = (true, w') ->
  HSIZE <= file_size w
  /\ w' = with_idx (fun i => ix_dirty_mmap false (ix_header true
             (ix_mmap_length (file_size w) (ix_mmap_base true i)))) w.
Proof.
  intros Hd Hal. unfold mmap_update. rewrite Hd. cbn.
  destruct (env_mmap_ok E w); cbn; [|discriminate].
  destruct (Z.ltb_spec (file_size w) HSIZE); [discriminate|].
  rewrite Hal. cbn. intros [= <-]. split; [assumption|reflexivity].
Qed.

Lemma file_write_aligned (w : World) (r : MailIndexRecord) :
  0 < RSIZE ->
  file_size w = HSIZE + Z.of_nat (length (file_recs w)) * RSIZE ->
  file_write E (file_size w) RSIZE r w =
    with_recs (fun l => l ++ [r]) (with_file_size (file_size w + RSIZE) w).
Proof.
  intros HR Hwf. unfold file_write. rewrite Z.eqb_refl.
  assert (Hs : slot_of (file_size w) = Some (length (file_recs w))).
  { rewrite Hwf. apply slot_of_slot_pos. exact HR. }
  rewrite Hs. unfold with_recs, put_slot, pad_to. cbn [file_recs with_file_size].
  rewrite Nat.ltb_irrefl, Nat.sub_diag. cbn. rewrite app_nil_r. reflexivity.
Qed.

Lemma mmap_update_frame (w w' : World) (b : bool) :
  mmap_update E w = (b, w') ->
  lock_type (idx w') = lock_type (idx w)
  /\ updating (idx w') = updating (idx w)
  /\ inconsistent (idx w') = inconsistent (idx w)
  /\ indexid (idx w') = indexid (idx w)
  /\ file_hdr w' = file_hdr w
  /\ (b = true -> header (idx w') = mmap_base (idx w')).
Proof.
  unfold mmap_update.
  destruct (dirty_mmap (idx w)); cbn [negb].
  - destruct (env_mmap_ok E w); cbn [negb].
    + cbn. destruct (file_size w <? HSIZE).
      * intros [= <- <-]. cbn. repeat split. discriminate.
      * destruct ((file_size w - HSIZE) mod RSIZE =? 0); cbn;
          intros [= <- <-]; cbn; [repeat split|].
        match goal with |- context [env_ftruncate_ok E ?x ?n] =>
          destruct (env_ftruncate_ok E x n) end; cbn; repeat split.
    + intros [= <- <-]. cbn. repeat split. discriminate.
  - intros [= <- <-]. cbn. repeat split.
Qed.

Lemma mmap_update_trace (w w' : World) (b : bool) :
  mmap_update E w = (b, w') -> exists evs, trace w' = evs ++ trace w.
Proof.
  unfold mmap_update.
  destruct (dirty_mmap (idx w)); cbn [negb]; [|intros [= <- <-]; exists []; reflexivity].
  destruct (env_mmap_ok E w); cbn [negb]; [|intros [= <- <-]; exists []; reflexivity].
  cbn. destruct (file_size w <? HSIZE); [intros [= <- <-]; exists []; reflexivity|].
  destruct ((file_size w - HSIZE) mod RSIZE =? 0); cbn;
    [intros [= <- <-]; exists []; reflexivity|].
  unfold ftruncate. cbn.
  match goal with |- context [env_ftruncate_ok E ?x ?n] =>
    destruct (env_ftruncate_ok E x n) end;
    intros [= <- <-]; eexists [_]; reflexivity.
Qed.

Lemma file_write_append_frame (pos n : Z) (r : MailIndexRecord) (w : World) :
  idx (file_write E pos n r w) = idx w
  /\ file_hdr (file_write E pos n r w) = file_hdr w
  /\ trace (file_write E pos n r w) = trace w.
Proof.
  unfold file_write. destruct (n =? RSIZE); [destruct (slot_of pos)|]; repeat split.
Qed.

(** What every successful append has done, whatever the file looked
    like: the record went out with the old [next_uid] as its uid, to
    the end of the file, and the header is the old one with [next_uid]
    and [messages_count] incremented and the flag bookkeeping applied. *)
Lemma append_success_header (w w' : World) (rec : MailIndexRecord) (ref : RecRef) :
  mail_index_append E w rec = Done (true, ref, w') ->
  let new := r_uid (next_uid (file_hdr w)) rec in
  lock_type (idx w) = MAIL_LOCK_EXCLUSIVE
  /\ ref = InMapping (file_size w)
  /\ (exists later, trace w' = later ++ EvWrite (file_size w) new true :: trace w)
  /\ file_hdr w' =
       file_hdr (index_mark_flag_changes
                   (with_hdr (fun h => h_messages_count (wrap (messages_count h + 1))
                                         (h_next_uid (wrap (next_uid h + 1)) h)) w)
                   new 0 (msg_flags rec)).
Proof.
  intros Happ new.
  unfold mail_index_append in Happ.
  destruct (lock_type (idx w)) eqn:Hlock; cbn in Happ; try discriminate.
  split; [reflexivity|].
  set (w1 := with_hdr (fun h => h_next_uid (wrap (next_uid h + 1)) h) w) in Happ.
  destruct (env_lseek_ok E w1); cbn in Happ; [|discriminate].
  destruct (env_write_ok E w1); cbn in Happ; [|discriminate].
  fold new in Happ.
  destruct (file_write_append_frame (file_size w) RSIZE new w1) as (_ & Hh2 & Ht2).
  set (w2 := file_write E (file_size w) RSIZE new w1) in *.
  destruct (index_mark_flag_changes_frame
              (with_hdr (fun h => h_messages_count (wrap (messages_count h + 1)) h)
                 (emit (EvWrite (file_size w) new true) w2)) new 0 (msg_flags rec))
    as (_ & _ & _ & Ht3 & _).
  set (w3 := index_mark_flag_changes _ new 0 (msg_flags rec)) in *.
  cbn in Ht3.
  assert (Hrest : forall w4 evs, file_hdr w4 = file_hdr w3 -> trace w4 = evs ++ trace w3 ->
            (let '(ok, w5) := mmap_update E (with_idx (ix_dirty_mmap true) w4) in
             if negb ok then Done (false, InBuffer new, w5)
             else Done (true, InMapping (file_size w), w5)) = Done (true, ref, w') ->
            ref = InMapping (file_size w)
            /\ (exists later, trace w' = later ++ EvWrite (file_size w) new true :: trace w)
            /\ file_hdr w' = file_hdr w3).
  { intros w4 evs Hh4 Ht4 Hm.
    destruct (mmap_update E (with_idx (ix_dirty_mmap true) w4)) as [ok w5] eqn:Hmu.
    destruct ok; cbn in Hm; [|discriminate].
    injection Hm as <- <-.
    destruct (mmap_update_frame _ _ _ Hmu) as (_ & _ & _ & _ & Hh5 & _).
    destruct (mmap_update_trace _ _ _ Hmu) as (evs5 & Ht5).
    cbn in Hh5, Ht5.
    split; [reflexivity|]. split; [|rewrite Hh5; exact Hh4].
    exists (evs5 ++ evs). rewrite Ht5, Ht4, Ht3, Ht2, <- app_assoc. reflexivity. }
  assert (Hfin : ref = InMapping (file_size w)
                 /\ (exists later,
                       trace w' = later ++ EvWrite (file_size w) new true :: trace w)
                 /\ file_hdr w' = file_hdr w3).
  { destruct (hash (idx w3)) eqn:Hh; cbn in Happ.
    - unfold mail_hash_update in Happ. rewrite Hh in Happ. cbn in Happ.
      eapply (Hrest _ [_]); [| |exact Happ]; reflexivity.
    - eapply (Hrest _ []); [| |exact Happ]; reflexivity. }
  destruct Hfin as (Href & Htrace & Hhdr).
  split; [exact Href|]. split; [exact Htrace|].
  rewrite Hhdr. unfold w3.
  rewrite (index_mark_flag_changes_first _ new), (index_mark_flag_changes_first _ new).
  destruct (first_applicable 0 (msg_flags rec)); unfold with_hdr, emit;
    cbn [file_hdr]; rewrite Hh2; reflexivity.
Qed.

(** When the file was a header and whole records, the record is the
    new last record of the file, and the mapping reaches as far. *)
Lemma append_success_records (w w' : World) (rec : MailIndexRecord) (ref : RecRef) :
  0 < RSIZE ->
  file_size w = HSIZE + Z.of_nat (length (file_recs w)) * RSIZE ->
  mail_index_append E w rec = Done (true, ref, w') ->
  file_recs w' = file_recs w ++ [r_uid (next_uid (file_hdr w)) rec]
  /\ mmap_length (idx w') = file_size w + RSIZE.
Proof.
  intros HR Hwf Happ. set (new := r_uid (next_uid (file_hdr w)) rec).
  unfold mail_index_append in Happ.
  destruct (lock_type (idx w)) eqn:Hlock; cbn in Happ; try discriminate.
  set (w1 := with_hdr (fun h => h_next_uid (wrap (next_uid h + 1)) h) w) in Happ.
  destruct (env_lseek_ok E w1); cbn in Happ; [|discriminate].
  destruct (env_write_ok E w1); cbn in Happ; [|discriminate].
  fold new in Happ.
  set (w2 := file_write E (file_size w) RSIZE new w1) in Happ.
  set (w3 := index_mark_flag_changes _ new 0 (msg_flags rec)) in Happ.
  assert (Hrecs2 : file_recs w2 = file_recs w ++ [new] /\ file_size w2 = file_size w + RSIZE).
  { unfold w2. change (file_size w) with (file_size w1).
    rewrite (file_write_aligned w1 new HR Hwf). split; reflexivity. }
  destruct Hrecs2 as (Hrecs2 & Hsize2).
  destruct (index_mark_flag_changes_frame
              (with_hdr (fun h => h_messages_count (wrap (messages_count h + 1)) h)
                 (emit (EvWrite (file_size w) new true) w2)) new 0 (msg_flags rec))
    as (_ & Hs3 & Hr3 & _).
  fold w3 in Hs3, Hr3. cbn in Hs3, Hr3.
  assert (Hrest : forall w4,
            file_size w4 = file_size w3 -> file_recs w4 = file_recs w3 ->
            (let '(ok, w5) := mmap_update E (with_idx (ix_dirty_mmap true) w4) in
             if negb ok then Done (false, InBuffer new, w5)
             else Done (true, InMapping (file_size w), w5)) = Done (true, ref, w') ->
            file_recs w' = file_recs w ++ [new]
            /\ mmap_length (idx w') = file_size w + RSIZE).
  { intros w4 Hs4 Hr4 Hm.
    destruct (mmap_update E (with_idx (ix_dirty_mmap true) w4)) as [ok w5] eqn:Hmu.
    destruct ok; cbn in Hm; [|discriminate].
    injection Hm as <- <-.
    apply mmap_update_dirty_aligned in Hmu; [|reflexivity|].
    - destruct Hmu as [_ ->]. cbn. rewrite Hr4, Hr3, Hs4, Hs3, Hrecs2, Hsize2.
      split; reflexivity.
    - cbn. rewrite Hs4, Hs3, Hsize2, Hwf.
      replace (HSIZE + Z.of_nat (length (file_recs w)) * RSIZE + RSIZE - HSIZE)
        with ((Z.of_nat (length (file_recs w)) + 1) * RSIZE) by lia.
      apply Z.mod_mul. lia. }
  destruct (hash (idx w3)) eqn:Hh; cbn in Happ.
  - unfold mail_hash_update in Happ. rewrite Hh in Happ. cbn in Happ.
    eapply Hrest; [| |exact Happ]; reflexivity.
  - eapply Hrest; [| |exact Happ]; reflexivity.
Qed.

(** C3 (as amended): every successful append writes the caller's record
    with the uid [next_uid] had before the call, leaves [next_uid] and
    [messages_count] one higher modulo 2^32 and applies the flag-delta
    bookkeeping for the transition from no flags to the record's flags.
    With [next_uid] below [UINT_MAX] it has grown by exactly one.  When
    the file was a header and whole records, the record is the new last
    record of the file; if moreover [next_uid] was below [UINT_MAX] and
    above every uid in the file, it is above every uid in the file
    afterwards. *)
Theorem append_assigns_next_uid (w w' : World) (rec : MailIndexRecord) (ref : RecRef) :
  PlatformOk ->
  mail_index_append E w rec = Done (true, ref, w') ->
  let new := r_uid (next_uid (file_hdr w)) rec in
  lock_type (idx w) = MAIL_LOCK_EXCLUSIVE
  /\ ref = InMapping (file_size w)
  /\ (exists later, trace w' = later ++ EvWrite (file_size w) new true :: trace w)
  /\ next_uid (file_hdr w') = wrap (next_uid (file_hdr w) + 1)
  /\ messages_count (file_hdr w') = wrap (messages_count (file_hdr w) + 1)
  /\ file_hdr w' =
       file_hdr (index_mark_flag_changes
                   (with_hdr (fun h => h_messages_count (wrap (messages_count h + 1))
                                         (h_next_uid (wrap (next_uid h + 1)) h)) w)
                   new 0 (msg_flags rec))
  /\ (0 <= next_uid (file_hdr w) < UINT_MAX ->
      next_uid (file_hdr w') = next_uid (file_hdr w) + 1
      /\ next_uid (file_hdr w) < next_uid (file_hdr w'))
  /\ (0 <= messages_count (file_hdr w) < UINT_MAX ->
      messages_count (file_hdr w') = messages_count (file_hdr w) + 1)
  /\ (file_size w = HSIZE + Z.of_nat (length (file_recs w)) * RSIZE ->
      file_recs w' = file_recs w ++ [new]
      /\ read_rec w' (file_size w) = Done new
      /\ (0 <= next_uid (file_hdr w) < UINT_MAX ->
          (forall r, r ∈ file_recs w -> uid r < next_uid (file_hdr w)) ->
          forall r, r ∈ file_recs w' -> uid r < next_uid (file_hdr w'))).
Proof.
  intros HP Happ new.
  pose proof (rsize_pos HP) as HR.
  destruct (append_success_header w w' rec ref Happ) as (Hlock & Href & Htrace & Hhdr).
  fold new in Htrace, Hhdr.
  destruct (index_mark_flag_changes_frame
              (with_hdr (fun h => h_messages_count (wrap (messages_count h + 1))
                                    (h_next_uid (wrap (next_uid h + 1)) h)) w)
              new 0 (msg_flags rec))
    as (_ & _ & _ & _ & Hn & Hm & _).
  cbn zeta in Hn, Hm. rewrite <- Hhdr in Hn, Hm. cbn in Hn, Hm.
  split; [exact Hlock|]. split; [exact Href|]. split; [exact Htrace|].
  split; [exact Hn|]. split; [exact Hm|]. split; [exact Hhdr|].
  assert (Hnext : 0 <= next_uid (file_hdr w) < UINT_MAX ->
                  next_uid (file_hdr w') = next_uid (file_hdr w) + 1).
  { intros Hnu. rewrite Hn. apply wrap_small. lia. }
  split; [intros Hnu; specialize (Hnext Hnu); lia|].
  split; [intros Hmc; rewrite Hm; apply wrap_small; lia|].
  intros Hwf.
  destruct (append_success_records w w' rec ref HR Hwf Happ) as (Hrecs & Hlen).
  fold new in Hrecs.
  split; [exact Hrecs|]. split.
  { unfold read_rec. rewrite Hwf at 1. rewrite (slot_of_slot_pos _ HR).
    rewrite Hlen, Z.leb_refl, Hrecs.
    rewrite lookup_app_r by lia. rewrite Nat.sub_diag. reflexivity. }
  intros Hnu Hinv r Hr. specialize (Hnext Hnu).
  rewrite Hrecs in Hr. apply elem_of_app in Hr as [Hr|Hr].
  - specialize (Hinv r Hr). lia.
  - apply list_elem_of_singleton in Hr. subst r. cbn. lia.
Qed.

(** *** Expunge *)

Lemma read_rec_cases (w : World) (pos : Z) (r : MailIndexRecord) :
  read_rec w pos = Done r ->
  exists k, slot_of pos = Some k /\ pos + RSIZE <= mmap_length (idx w)
            /\ (file_recs w !! k = Some r
                \/ (file_recs w !! k = None /\ r = zero_rec)).
Proof.
  unfold read_rec. destruct (slot_of pos) as [k|]; [|discriminate].
  destruct (Z.leb_spec (pos + RSIZE) (mmap_length (idx w))); [|discriminate].
  destruct (file_recs w !! k) as [r'|] eqn:Hk.
  - intros [= ->]. exists k. split; [reflexivity|]. split; [assumption|].
    left. exact Hk.
  - destruct (_ && _); [|discriminate].
    intros [= <-]. exists k. split; [reflexivity|]. split; [assumption|].
    right. split; [exact Hk | reflexivity].
Qed.

(** A live record that was read is a record of the file. *)
Lemma read_rec_live (w : World) (pos : Z) (r : MailIndexRecord) :
  read_rec w pos = Done r -> uid r <> 0 ->
  exists k, slot_of pos = Some k /\ pos + RSIZE <= mmap_length (idx w)
            /\ file_recs w !! k = Some r.
Proof.
  intros Hread Hlive.
  destruct (read_rec_cases _ _ _ Hread) as (k & Hslot & Hin & [Hk|[_ ->]]).
  - exists k. repeat split; assumption.
  - contradiction Hlive. reflexivity.
Qed.

(** So is every record read through a mapping that covers the file's
    records exactly. *)
Lemma read_rec_inv (w : World) (pos : Z) (r : MailIndexRecord) :
  0 < RSIZE ->
  mmap_length (idx w) = HSIZE + Z.of_nat (length (file_recs w)) * RSIZE ->
  read_rec w pos = Done r ->
  exists k, slot_of pos = Some k /\ pos + RSIZE <= mmap_length (idx w)
            /\ file_recs w !! k = Some r.
Proof.
  intros HR Hmap Hread.
  destruct (read_rec_cases _ _ _ Hread) as (k & Hslot & Hin & [Hk|[Hk _]]).
  - exists k. repeat split; assumption.
  - exfalso. apply lookup_ge_None in Hk.
    pose proof (slot_of_inv _ _ HR Hslot) as Hpos. nia.
Qed.

Lemma read_rec_slot (w : World) (k : nat) (r : MailIndexRecord) :
  0 < RSIZE ->
  mmap_length (idx w) = HSIZE + Z.of_nat (length (file_recs w)) * RSIZE ->
  file_recs w !! k = Some r ->
  read_rec w (HSIZE + Z.of_nat k * RSIZE) = Done r.
Proof.
  intros HR Hmap Hk. unfold read_rec. rewrite slot_of_slot_pos by exact HR.
  pose proof (lookup_lt_Some _ _ _ Hk) as Hlt.
  destruct (Z.leb_spec (HSIZE + Z.of_nat k * RSIZE + RSIZE) (mmap_length (idx w)));
    [|nia].
  rewrite Hk. reflexivity.
Qed.

Lemma wrap_wrap (x : Z) : wrap (wrap x) = wrap x.
Proof. unfold wrap. apply Z.mod_mod. lia. Qed.

Lemma wrap_add_l (x y : Z) : wrap (wrap x + y) = wrap (x + y).
Proof. unfold wrap. apply Z.add_mod_idemp_l. lia. Qed.

Lemma tombstones_at_end (recs : list MailIndexRecord) :
  0 < RSIZE -> tombstones_at recs (HSIZE + Z.of_nat (length recs) * RSIZE) = 0.
Proof.
  intros HR. unfold tombstones_at. rewrite slot_of_slot_pos by exact HR.
  rewrite drop_all. reflexivity.
Qed.

Lemma hole_walk_counts (fuel : nat) :
  0 < RSIZE ->
  forall (w w' : World) (start : Z),
  mmap_length (idx w) = HSIZE + Z.of_nat (length (file_recs w)) * RSIZE ->
  hole_walk fuel w start = Done w' ->
  same_but_hole_records w w'
  /\ first_hole_records (file_hdr w') =
       (let t := tombstones_at (file_recs w) start in
        if t =? 0 then first_hole_records (file_hdr w)
        else wrap (first_hole_records (file_hdr w) + t)).
Proof.
  intros HR. induction fuel as [|fuel IH]; intros w w' start Hmap Hwalk;
    [discriminate|].
  cbn [hole_walk] in Hwalk.
  destruct (Z.eqb_spec start (mmap_length (idx w))) as [Hend|Hnend].
  - injection Hwalk as <-. split; [repeat split|].
    rewrite Hend, Hmap, tombstones_at_end by exact HR. reflexivity.
  - destruct (read_rec w start) as [r| | |] eqn:Hread; cbn in Hwalk; try discriminate.
    apply (read_rec_inv _ _ _ HR Hmap) in Hread as (k & Hslot & Hin & Hk).
    pose proof (slot_of_inv _ _ HR Hslot) as Hstart.
    assert (Hdrop : drop k (file_recs w) = r :: drop (S k) (file_recs w)).
    { apply drop_S. exact Hk. }
    unfold tombstones_at at 1. rewrite Hslot, Hdrop. cbn [tombstone_run].
    destruct (Z.eqb_spec (uid r) 0) as [Hz|Hnz].
    + apply IH in Hwalk; [|exact Hmap].
      destruct Hwalk as ((Hi & Hs & Hr & Ht & Hh) & Hcount). cbn in Hi, Hs, Hr, Ht, Hh.
      split; [repeat split; assumption|].
      rewrite Hcount. cbn [file_recs with_hdr file_hdr first_hole_records h_first_hole_records].
      assert (Hnext : tombstones_at (file_recs w) (start + RSIZE)
                      = Z.of_nat (tombstone_run (drop (S k) (file_recs w)))).
      { unfold tombstones_at.
        replace (start + RSIZE) with (HSIZE + Z.of_nat (S k) * RSIZE) by lia.
        rewrite slot_of_slot_pos by exact HR. reflexivity. }
      rewrite Hnext. cbn zeta.
      destruct (Z.eqb_spec (Z.of_nat (S (tombstone_run (drop (S k) (file_recs w))))) 0);
        [lia|].
      destruct (Z.eqb_spec (Z.of_nat (tombstone_run (drop (S k) (file_recs w)))) 0) as [H0|H0].
      * rewrite Nat2Z.inj_succ, H0. reflexivity.
      * rewrite wrap_add_l. f_equal. lia.
    + injection Hwalk as <-. split; [repeat split|]. reflexivity.
Qed.

Lemma expunge_update_first_hole_spec (w w' : World) (pos : Z) :
  0 < RSIZE ->
  mmap_length (idx w) = HSIZE + Z.of_nat (length (file_recs w)) * RSIZE ->
  expunge_update_first_hole w pos = Done w' ->
  same_but_hole w w'
  /\ (first_hole_position (file_hdr w'), first_hole_records (file_hdr w'),
      set_flags (idx w'))
     = (let '(p, n, c) :=
          hole_after_expunge (first_hole_position (file_hdr w))
            (first_hole_records (file_hdr w)) pos (file_recs w) in
        (p, n, if c then Z.lor (set_flags (idx w)) MAIL_INDEX_FLAG_COMPRESS
               else set_flags (idx w))).
Proof.
  intros HR Hmap. unfold expunge_update_first_hole, hole_after_expunge.
  destruct (Z.eqb_spec (first_hole_position (file_hdr w)) 0) as [H0|H0].
  { intros [= <-]. split; [repeat split|]. reflexivity. }
  destruct (Z.eqb_spec (first_hole_position (file_hdr w) - RSIZE) pos) as [Hb|Hb].
  { intros [= <-].
    destruct (Z.eqb_spec (pos + RSIZE) (first_hole_position (file_hdr w))); [|lia].
    split; [repeat split|]. reflexivity. }
  destruct (Z.eqb_spec (pos + RSIZE) (first_hole_position (file_hdr w))); [lia|].
  destruct (Z.eqb_spec
              (first_hole_position (file_hdr w) + first_hole_records (file_hdr w) * RSIZE)
              pos) as [Ha|Ha].
  { destruct (Z.eqb_spec pos
                (first_hole_position (file_hdr w)
                 + first_hole_records (file_hdr w) * RSIZE)); [|lia].
    unfold update_first_hole_records. intros Hwalk.
    apply (hole_walk_counts _ HR) in Hwalk; [|exact Hmap].
    destruct Hwalk as ((Hi & Hs & Hr & Ht & Hh) & Hcount).
    cbn in Hi, Hs, Hr, Ht, Hh, Hcount.
    assert (Hpos : first_hole_position (file_hdr w') = first_hole_position (file_hdr w)).
    { apply (f_equal first_hole_position) in Hh. exact Hh. }
    split.
    - unfold same_but_hole. rewrite Hi, Hs, Hr, Ht. repeat split.
      apply (f_equal (h_first_hole_position 0)) in Hh. exact Hh.
    - rewrite Hcount, Hpos, Hi. f_equal. f_equal.
      destruct (Z.eqb_spec (tombstones_at (file_recs w)
                  (first_hole_position (file_hdr w)
                   + wrap (first_hole_records (file_hdr w) + 1) * RSIZE)) 0) as [Ht0|Ht0].
      + rewrite Ht0, Z.add_0_r, wrap_wrap. reflexivity.
      + reflexivity. }
  destruct (Z.eqb_spec pos
              (first_hole_position (file_hdr w)
               + first_hole_records (file_hdr w) * RSIZE)); [lia|].
  destruct (Z.ltb_spec pos (first_hole_position (file_hdr w))) as [Hlt|Hge];
    intros [= <-]; (split; [repeat split|]); cbn; f_equal; f_equal; lia.
Qed.

Lemma hole_walk_frame (fuel : nat) (w w' : World) (start : Z) :
  hole_walk fuel w start = Done w' -> same_but_hole_records w w'.
Proof.
  revert w start. induction fuel as [|fuel IH]; intros w start Hwalk; [discriminate|].
  cbn [hole_walk] in Hwalk.
  destruct (start =? mmap_length (idx w)).
  - injection Hwalk as <-. repeat split.
  - destruct (read_rec w start) as [r| | |]; cbn in Hwalk; try discriminate.
    destruct (uid r =? 0).
    + apply IH in Hwalk. destruct Hwalk as (Hi & Hs & Hr & Ht & Hh).
      repeat split; assumption.
    + injection Hwalk as <-. repeat split.
Qed.

Lemma expunge_update_first_hole_frame (w w' : World) (pos : Z) :
  expunge_update_first_hole w pos = Done w' -> same_but_hole w w'.
Proof.
  unfold expunge_update_first_hole.
  destruct (first_hole_position (file_hdr w) =? 0); [intros [= <-]; repeat split|].
  destruct (first_hole_position (file_hdr w) - RSIZE =? pos);
    [intros [= <-]; repeat split|].
  destruct (first_hole_position (file_hdr w)
            + first_hole_records (file_hdr w) * RSIZE =? pos).
  - unfold update_first_hole_records. intros Hwalk.
    apply hole_walk_frame in Hwalk. destruct Hwalk as (Hi & Hs & Hr & Ht & Hh).
    cbn in Hi, Hs, Hr, Ht, Hh. unfold same_but_hole. rewrite Hi, Hs, Hr, Ht.
    repeat split. apply (f_equal (h_first_hole_position 0)) in Hh. exact Hh.
  - destruct (pos <? first_hole_position (file_hdr w)); intros [= <-]; repeat split.
Qed.

(** What [mail_index_expunge] has done when it returns TRUE: the record
    was live, its slot became a tombstone, the modification log and the
    hash were told, then the hole and the counts were updated. *)
Lemma mail_index_expunge_stages (w w' : World) (rec seq : Z) (ext : bool) :
  mail_index_expunge E w rec seq ext = Done (true, w') ->
  exists r k w_t w_mid,
    lock_type (idx w) = MAIL_LOCK_EXCLUSIVE
    /\ read_rec w rec = Done r /\ uid r <> 0 /\ slot_of rec = Some k
    /\ file_recs w_t = alter (r_uid 0) k (file_recs w)
    /\ file_hdr w_t = file_hdr w /\ file_size w_t = file_size w
    /\ set_flags (idx w_t) = set_flags (idx w)
    /\ mmap_length (idx w_t) = mmap_length (idx w)
    /\ trace w_t = EvHashUpdate (uid r) 0
                   :: (if seq =? 0 then []
                       else [EvModifylogExpunge seq (uid r) ext true]) ++ trace w
    /\ expunge_update_first_hole w_t rec = Done w_mid
    /\ w' = expunge_update_counts E w_mid (r_uid 0 r).
Proof.
  unfold mail_index_expunge.
  destruct (lock_type (idx w)) eqn:Hlock; cbn; try discriminate.
  destruct (read_rec w rec) as [r| | |] eqn:Hread; cbn; try discriminate.
  destruct (Z.eqb_spec (uid r) 0) as [|Hlive]; cbn; [discriminate|].
  destruct (read_rec_live _ _ _ Hread Hlive) as (k & Hslot & _ & _). rewrite Hslot.
  unfold mail_modifylog_add_expunge, mail_hash_update.
  destruct (Z.eqb_spec seq 0) as [Hseq|Hseq]; cbn.
  - destruct (hash (idx w)) as [m|]; cbn; [|discriminate].
    match goal with |- context [expunge_update_first_hole ?x rec] =>
      set (w_t := x)
    end.
    destruct (expunge_update_first_hole w_t rec) as [w_mid| | |] eqn:Hh;
      cbn; try discriminate.
    intros [= <-]. exists r, k, w_t, w_mid. unfold w_t.
    repeat split; try assumption; try reflexivity.
  - destruct (env_modifylog_add_ok E w); cbn; [|discriminate].
    destruct (hash (idx w)) as [m|]; cbn; [|discriminate].
    match goal with |- context [expunge_update_first_hole ?x rec] =>
      set (w_t := x)
    end.
    destruct (expunge_update_first_hole w_t rec) as [w_mid| | |] eqn:Hh;
      cbn; try discriminate.
    intros [= <-]. exists r, k, w_t, w_mid. unfold w_t.
    repeat split; try assumption; try reflexivity;
      destruct (seq =? last_lookup_seq (idx w)); try reflexivity;
      destruct (seq <? last_lookup_seq (idx w)); reflexivity.
Qed.

Lemma expunge_update_counts_spec (w : World) (r : MailIndexRecord) :
  let w' := expunge_update_counts E w r in
  idx w' = idx w
  /\ messages_count (file_hdr w') = wrap (messages_count (file_hdr w) - 1)
  /\ (messages_count (file_hdr w') = 0 ->
      first_hole_position (file_hdr w') = 0 /\ first_hole_records (file_hdr w') = 0
      /\ exists ok_t ok_r : bool,
           trace w' = (if ok_t then [EvDataReset ok_r; EvFtruncate HSIZE true]
                       else [EvFtruncate HSIZE false]) ++ trace w
           /\ file_size w' = (if ok_t then HSIZE else file_size w))
  /\ (messages_count (file_hdr w') <> 0 ->
      first_hole_position (file_hdr w') = first_hole_position (file_hdr w)
      /\ first_hole_records (file_hdr w') = first_hole_records (file_hdr w)
      /\ trace w' = EvDataAddDeletedSpace (data_size r) :: trace w
      /\ file_size w' = file_size w /\ file_recs w' = file_recs w).
Proof.
  unfold expunge_update_counts.
  set (w1 := with_hdr (fun h => h_messages_count (wrap (messages_count h - 1)) h) w).
  destruct (index_mark_flag_changes_frame w1 r (msg_flags r) 0)
    as (Hi & Hs & Hr & Ht & _ & Hm & Hp & Hn & _).
  set (w2 := index_mark_flag_changes w1 r (msg_flags r) 0) in *.
  cbn in Hi, Hs, Hr, Ht, Hm, Hp, Hn. cbn zeta.
  destruct (Z.eqb_spec (messages_count (file_hdr w2)) 0) as [Hz|Hnz].
  - unfold mail_index_truncate, ftruncate, mail_index_data_reset.
    match goal with |- context [env_ftruncate_ok E ?x ?n] =>
      destruct (env_ftruncate_ok E x n) eqn:Hok end; cbn.
    + split; [exact Hi|]. split; [exact Hm|].
      split; [|intros Hne; contradiction].
      intros _. split; [reflexivity|]. split; [reflexivity|].
      eexists true, _. rewrite Ht. split; reflexivity.
    + split; [exact Hi|]. split; [exact Hm|].
      split; [|intros Hne; contradiction].
      intros _. split; [reflexivity|]. split; [reflexivity|].
      exists false, false. rewrite Ht, Hs. split; reflexivity.
  - cbn. split; [exact Hi|]. split; [exact Hm|].
    split; [intros Hz; contradiction|].
    intros _. rewrite Hp, Hn, Ht, Hs, Hr. repeat split.
Qed.

Lemma expunge_update_counts_frame (w : World) (r : MailIndexRecord) :
  idx (expunge_update_counts E w r) = idx w
  /\ flags (file_hdr (expunge_update_counts E w r)) = flags (file_hdr w).
Proof.
  unfold expunge_update_counts.
  set (w1 := with_hdr (fun h => h_messages_count (wrap (messages_count h - 1)) h) w).
  destruct (index_mark_flag_changes_frame w1 r (msg_flags r) 0)
    as (Hi & _ & _ & _ & _ & _ & _ & _ & Hf & _).
  set (w2 := index_mark_flag_changes w1 r (msg_flags r) 0) in *.
  cbn in Hi, Hf. cbn zeta.
  destruct (messages_count (file_hdr w2) =? 0).
  - unfold mail_index_truncate, ftruncate, mail_index_data_reset.
    match goal with |- context [env_ftruncate_ok E ?x ?n] =>
      destruct (env_ftruncate_ok E x n) end; cbn; split; assumption.
  - cbn. split; assumption.
Qed.

Lemma hole_walk_returns (w : World) :
  0 < RSIZE ->
  mmap_length (idx w) = HSIZE + Z.of_nat (length (file_recs w)) * RSIZE ->
  forall (fuel j : nat) (w0 : World),
  idx w0 = idx w -> file_recs w0 = file_recs w ->
  (j <= length (file_recs w))%nat ->
  (length (file_recs w) - j < fuel)%nat ->
  exists w', hole_walk fuel w0 (HSIZE + Z.of_nat j * RSIZE) = Done w'.
Proof.
  intros HR Hmap. induction fuel as [|fuel IH]; intros j w0 Hi Hr Hj Hfuel; [lia|].
  cbn [hole_walk]. rewrite Hi, Hmap.
  destruct (Z.eqb_spec (HSIZE + Z.of_nat j * RSIZE)
              (HSIZE + Z.of_nat (length (file_recs w)) * RSIZE)) as [|Hne];
    [eexists; reflexivity|].
  assert (Hlt : (j < length (file_recs w))%nat) by (destruct (decide (j = length (file_recs w))); [subst; lia|lia]).
  destruct (lookup_lt_is_Some_2 _ _ Hlt) as [r Hk].
  rewrite (read_rec_slot w0 j r HR); [|rewrite Hi, Hr; exact Hmap|rewrite Hr; exact Hk].
  cbn. destruct (uid r =? 0); [|eexists; reflexivity].
  replace (HSIZE + Z.of_nat j * RSIZE + RSIZE) with (HSIZE + Z.of_nat (S j) * RSIZE) by lia.
  apply IH; cbn; try assumption; lia.
Qed.

(** [mail_index_expunge] returns: on a live record of a mapping that
    covers the records, under the exclusive lock, with a hash at hand and
    a hole count that is not about to wrap, the call ends in TRUE - or in
    FALSE, exactly when the modification log refused the entry. *)
Lemma mail_index_expunge_returns (w : World) (rec seq : Z) (ext : bool)
    (r : MailIndexRecord) (m : gmap Z Z) :
  PlatformOk ->
  mmap_length (idx w) = HSIZE + Z.of_nat (length (file_recs w)) * RSIZE ->
  lock_type (idx w) = MAIL_LOCK_EXCLUSIVE ->
  read_rec w rec = Done r -> uid r <> 0 ->
  hash (idx w) = Some m ->
  0 <= first_hole_records (file_hdr w) < UINT_MAX ->
  exists b w', mail_index_expunge E w rec seq ext = Done (b, w')
    /\ b = (seq =? 0) || env_modifylog_add_ok E w.
Proof.
  intros HP Hmap Hlock Hread Hlive Hhash Hrange. pose proof (rsize_pos HP) as HR.
  destruct (read_rec_live _ _ _ Hread Hlive) as (k & Hslot & Hin & Hk).
  pose proof (slot_of_inv _ _ HR Hslot) as Hrec.
  pose proof (lookup_lt_Some _ _ _ Hk) as Hklt.
  assert (Hstage : forall w_t,
            mmap_length (idx w_t) = mmap_length (idx w) ->
            file_recs w_t = alter (r_uid 0) k (file_recs w) ->
            file_hdr w_t = file_hdr w ->
            exists w_mid, expunge_update_first_hole w_t rec = Done w_mid).
  { intros w_t Hlen Hrecs Hhdr. unfold expunge_update_first_hole. rewrite Hhdr.
    destruct (first_hole_position (file_hdr w) =? 0); [eexists; reflexivity|].
    destruct (first_hole_position (file_hdr w) - RSIZE =? rec); [eexists; reflexivity|].
    destruct (Z.eqb_spec (first_hole_position (file_hdr w)
                          + first_hole_records (file_hdr w) * RSIZE) rec) as [Ha|].
    - unfold update_first_hole_records.
      set (w1 := with_hdr (fun h => h_first_hole_records
                                      (wrap (first_hole_records h + 1)) h) w_t).
      assert (Hstart : first_hole_position (file_hdr w1)
                       + first_hole_records (file_hdr w1) * RSIZE
                       = HSIZE + Z.of_nat (S k) * RSIZE).
      { unfold w1. cbn. rewrite Hhdr.
        rewrite (wrap_small (first_hole_records (file_hdr w) + 1)) by lia. lia. }
      rewrite Hstart.
      assert (Hmap_t : mmap_length (idx w_t)
                       = HSIZE + Z.of_nat (length (file_recs w_t)) * RSIZE).
      { rewrite Hlen, Hrecs, length_alter. exact Hmap. }
      assert (Hlen_t : length (file_recs w_t) = length (file_recs w)).
      { rewrite Hrecs. apply length_alter. }
      change (file_recs w1) with (file_recs w_t).
      apply (hole_walk_returns w_t HR Hmap_t); try reflexivity; lia.
    - destruct (rec <? first_hole_position (file_hdr w)); eexists; reflexivity. }
  unfold mail_index_expunge. rewrite Hlock, Hread. cbn.
  destruct (Z.eqb_spec (uid r) 0); [contradiction|]. cbn. rewrite Hslot.
  unfold mail_modifylog_add_expunge, mail_hash_update.
  destruct (seq =? 0); cbn.
  - rewrite Hhash. cbn.
    match goal with |- context [expunge_update_first_hole ?x rec] =>
      destruct (Hstage x) as [w_mid ->]; try reflexivity end.
    cbn. eexists _, _. split; reflexivity.
  - destruct (env_modifylog_add_ok E w); cbn; [|eexists _, _; split; reflexivity].
    rewrite Hhash. cbn.
    match goal with |- context [expunge_update_first_hole ?x rec] =>
      destruct (Hstage x) as [w_mid ->] end;
      try (destruct (seq =? last_lookup_seq (idx w)); [reflexivity|];
           destruct (seq <? last_lookup_seq (idx w)); reflexivity).
    cbn. eexists _, _. split; reflexivity.
Qed.

(** An expunge that the modification log refuses returns FALSE, and the
    refused entry in the trace is all that has happened. *)
Lemma mail_index_expunge_refused (w : World) (rec seq : Z) (ext : bool)
    (r : MailIndexRecord) :
  lock_type (idx w) = MAIL_LOCK_EXCLUSIVE ->
  read_rec w rec = Done r -> uid r <> 0 ->
  seq <> 0 -> env_modifylog_add_ok E w = false ->
  mail_index_expunge E w rec seq ext
  = Done (false, emit (EvModifylogExpunge seq (uid r) ext false) w).
Proof.
  intros Hlock Hread Hlive Hseq Hlog.
  unfold mail_index_expunge. rewrite Hlock, Hread. cbn.
  destruct (Z.eqb_spec (uid r) 0); [contradiction|]. cbn.
  destruct (Z.eqb_spec seq 0); [contradiction|]. cbn.
  unfold mail_modifylog_add_expunge. rewrite Hlog. reflexivity.
Qed.

(** C2 (as amended): an expunge of the live record at [rec] that returns
    TRUE, under a mapping that covers the records exactly, leaves the
    hole descriptor the specification gives for the four cases - no hole
    yet; the record just before the hole; the record just after it, the
    hole then growing over the tombstones that follow; a second hole,
    which keeps the earlier position - unless it has removed the last
    message, in which case the descriptor is (0, 0).  For a second hole
    COMPRESS is or-ed into the pending [set_flags]; the header flags are
    as they were.  The call does return: TRUE when the modification log
    takes the entry (or none is asked for), and FALSE with nothing but
    the refused entry done when it does not. *)
Theorem expunge_hole_descriptor (w : World) (rec seq : Z) (ext : bool) :
  PlatformOk ->
  mmap_length (idx w) = HSIZE + Z.of_nat (length (file_recs w)) * RSIZE ->
  (forall w' : World,
     mail_index_expunge E w rec seq ext = Done (true, w') ->
     exists (k : nat) (r : MailIndexRecord),
       slot_of rec = Some k /\ file_recs w !! k = Some r /\ uid r <> 0
       /\ lock_type (idx w) = MAIL_LOCK_EXCLUSIVE
       /\ let h := file_hdr w in
          let h' := file_hdr w' in
          let '(p, n, c) :=
            hole_after_expunge (first_hole_position h) (first_hole_records h) rec
              (alter (r_uid 0) k (file_recs w)) in
          messages_count h' = wrap (messages_count h - 1)
          /\ (first_hole_position h', first_hole_records h') =
               (if messages_count h' =? 0 then (0, 0) else (p, n))
          /\ set_flags (idx w') =
               (if c then Z.lor (set_flags (idx w)) MAIL_INDEX_FLAG_COMPRESS
                else set_flags (idx w))
          /\ flags h' = flags h
          /\ (first_hole_position h <> 0 ->
              rec + RSIZE <> first_hole_position h ->
              rec = first_hole_position h + first_hole_records h * RSIZE ->
              0 <= first_hole_records h < UINT_MAX ->
              n = wrap (first_hole_records h + 1
                        + Z.of_nat (tombstone_run (drop (S k) (file_recs w))))))
  /\ (forall r : MailIndexRecord,
        lock_type (idx w) = MAIL_LOCK_EXCLUSIVE ->
        read_rec w rec = Done r -> uid r <> 0 ->
        seq <> 0 -> env_modifylog_add_ok E w = false ->
        mail_index_expunge E w rec seq ext
        = Done (false, emit (EvModifylogExpunge seq (uid r) ext false) w))
  /\ (forall (r : MailIndexRecord) (m : gmap Z Z),
        lock_type (idx w) = MAIL_LOCK_EXCLUSIVE ->
        read_rec w rec = Done r -> uid r <> 0 ->
        hash (idx w) = Some m ->
        0 <= first_hole_records (file_hdr w) < UINT_MAX ->
        seq = 0 \/ env_modifylog_add_ok E w = true ->
        exists w', mail_index_expunge E w rec seq ext = Done (true, w')).
Proof.
  intros HP Hmap. pose proof (rsize_pos HP) as HR. split; [|split].
  - intros w' Hexp.
    apply mail_index_expunge_stages in Hexp
      as (r & k & w_t & w_mid & Hlock & Hread & Hlive & Hslot & Hrecs & Hhdr & _ & Hsf & Hlen
          & _ & Hhole & ->).
    destruct (read_rec_live _ _ _ Hread Hlive) as (k' & Hslot' & _ & Hk).
    rewrite Hslot in Hslot'. injection Hslot' as <-.
    exists k, r. split; [exact Hslot|]. split; [exact Hk|]. split; [exact Hlive|].
    split; [exact Hlock|].
    pose proof (expunge_update_first_hole_frame _ _ _ Hhole) as (_ & _ & _ & _ & Hsame).
    apply expunge_update_first_hole_spec in Hhole;
      [|exact HR|rewrite Hlen, Hrecs, length_alter; exact Hmap].
    destruct Hhole as (_ & Hdesc). rewrite Hhdr, Hrecs, Hsf in Hdesc.
    destruct (expunge_update_counts_spec w_mid (r_uid 0 r)) as (Hi & Hcount & Hzero & Hsome).
    destruct (expunge_update_counts_frame w_mid (r_uid 0 r)) as (_ & Hflags).
    cbn zeta in Hi, Hcount, Hzero, Hsome |- *.
    assert (Hmc : messages_count (file_hdr w_mid) = messages_count (file_hdr w)).
    { apply (f_equal messages_count) in Hsame. cbn in Hsame. rewrite Hsame, Hhdr.
      reflexivity. }
    assert (Hfl : flags (file_hdr w_mid) = flags (file_hdr w)).
    { apply (f_equal flags) in Hsame. cbn in Hsame. rewrite Hsame, Hhdr. reflexivity. }
    set (h := file_hdr w) in *.
    assert (Hn : first_hole_position h <> 0 ->
                 rec + RSIZE <> first_hole_position h ->
                 rec = first_hole_position h + first_hole_records h * RSIZE ->
                 0 <= first_hole_records h < UINT_MAX ->
                 snd (fst (hole_after_expunge (first_hole_position h)
                             (first_hole_records h) rec
                             (alter (r_uid 0) k (file_recs w))))
                 = wrap (first_hole_records h + 1
                         + Z.of_nat (tombstone_run (drop (S k) (file_recs w))))).
    { intros H0 Hb Ha Hrange. unfold hole_after_expunge.
      destruct (Z.eqb_spec (first_hole_position h) 0); [contradiction|].
      destruct (Z.eqb_spec (rec + RSIZE) (first_hole_position h)); [contradiction|].
      destruct (Z.eqb_spec rec (first_hole_position h + first_hole_records h * RSIZE));
        [|contradiction].
      cbn [fst snd].
      rewrite (wrap_small (first_hole_records h + 1)) by lia.
      replace (first_hole_position h + (first_hole_records h + 1) * RSIZE)
        with (HSIZE + Z.of_nat (S k) * RSIZE)
        by (pose proof (slot_of_inv _ _ HR Hslot); lia).
      unfold tombstones_at. rewrite slot_of_slot_pos by exact HR.
      rewrite drop_alter. destruct (decide (S k <= k)%nat); [lia|reflexivity]. }
    destruct (hole_after_expunge (first_hole_position h) (first_hole_records h) rec
                (alter (r_uid 0) k (file_recs w))) as [[p n] c].
    cbn [fst snd] in Hn. injection Hdesc as Hp Hr Hs.
    split; [rewrite Hcount, Hmc; reflexivity|].
    split; [|split; [rewrite Hi; exact Hs|split; [rewrite Hflags; exact Hfl|exact Hn]]].
    destruct (Z.eqb_spec (messages_count (file_hdr (expunge_update_counts E w_mid (r_uid 0 r)))) 0)
      as [Hz|Hnz].
    + destruct (Hzero Hz) as (-> & -> & _). reflexivity.
    + destruct (Hsome Hnz) as (-> & -> & _). rewrite Hp, Hr. reflexivity.
  - intros r Hlock Hread Hlive Hseq Hlog. apply mail_index_expunge_refused; assumption.
  - intros r m Hlock Hread Hlive Hhash Hrange Hlog.
    destruct (mail_index_expunge_returns w rec seq ext r m HP Hmap Hlock Hread Hlive
                Hhash Hrange) as (b & w' & Hrun & Hb).
    exists w'. rewrite Hrun, Hb.
    destruct Hlog as [-> | ->]; [reflexivity|]. rewrite orb_true_r. reflexivity.
Qed.

(** C8 (as amended): a successful expunge that brings [messages_count]
    to zero clears the hole descriptor and asks for the index file to be
    truncated to the header size; the data store is reset only when that
    truncation succeeded.  One that leaves messages behind truncates
    nothing and adds the record's [data_size] to the deleted space of the
    data store. *)
Theorem expunge_last_message_truncates (w w' : World) (rec seq : Z) (ext : bool) :
  mail_index_expunge E w rec seq ext = Done (true, w') ->
  exists r, read_rec w rec = Done r
  /\ let before :=
       EvHashUpdate (uid r) 0
       :: (if seq =? 0 then [] else [EvModifylogExpunge seq (uid r) ext true])
       ++ trace w in
     messages_count (file_hdr w') = wrap (messages_count (file_hdr w) - 1)
     /\ (messages_count (file_hdr w') = 0 ->
         first_hole_position (file_hdr w') = 0
         /\ first_hole_records (file_hdr w') = 0
         /\ exists ok_t ok_r : bool,
              trace w' = (if ok_t then [EvDataReset ok_r; EvFtruncate HSIZE true]
                          else [EvFtruncate HSIZE false]) ++ before
              /\ file_size w' = (if ok_t then HSIZE else file_size w))
     /\ (messages_count (file_hdr w') <> 0 ->
         trace w' = EvDataAddDeletedSpace (data_size r) :: before
         /\ file_size w' = file_size w).
Proof.
  intros Hexp.
  apply mail_index_expunge_stages in Hexp
    as (r & k & w_t & w_mid & _ & Hread & _ & _ & _ & Hhdr & Hsize & _ & _ & Htr
        & Hhole & ->).
  exists r. split; [exact Hread|]. cbn zeta.
  apply expunge_update_first_hole_frame in Hhole as (_ & Hs & _ & Ht & Hh).
  assert (Hmc : messages_count (file_hdr w_mid) = messages_count (file_hdr w)).
  { apply (f_equal messages_count) in Hh. cbn in Hh. rewrite Hh, Hhdr. reflexivity. }
  destruct (expunge_update_counts_spec w_mid (r_uid 0 r)) as (_ & Hm & Hzero & Hsome).
  cbn zeta in Hm, Hzero, Hsome.
  rewrite Ht, Htr, Hs, Hsize, Hmc in *.
  split; [exact Hm|]. split.
  - intros Hz. destruct (Hzero Hz) as (Hp & Hn & ok_t & ok_r & Htrace & Hfs).
    split; [exact Hp|]. split; [exact Hn|]. exists ok_t, ok_r. split; assumption.
  - intros Hnz. destruct (Hsome Hnz) as (_ & _ & Htrace & Hfs & _).
    split; assumption.
Qed.

(** *** Lookup by uid range *)







(** *** Locking *)

(** C9 (as amended): on a handle that holds SHARED, [set_lock(EXCLUSIVE)]
    trips the assertion when the handle is consistent and returns failure
    when it is marked inconsistent; in neither case is the lock state
    touched, so no call upgrades SHARED to EXCLUSIVE. *)
Theorem set_lock_shared_to_exclusive (fuel : nat) (w : World) :
  lock_type (idx w) = MAIL_LOCK_SHARED ->
  (inconsistent (idx w) = false ->
     mail_index_set_lock E (S fuel) w MAIL_LOCK_EXCLUSIVE = AssertFailed)
  /\ (inconsistent (idx w) = true ->
     mail_index_set_lock E (S fuel) w MAIL_LOCK_EXCLUSIVE = Done (false, w))
  /\ (forall (n : nat) (b : bool) (w' : World),
     mail_index_set_lock E n w MAIL_LOCK_EXCLUSIVE = Done (b, w') ->
     b = false /\ w' = w).
Proof.
  intros Hshared.
  assert (Hcons : inconsistent (idx w) = false ->
                  forall n, mail_index_set_lock E (S n) w MAIL_LOCK_EXCLUSIVE = AssertFailed).
  { intros Hc n. cbn [mail_index_set_lock]. rewrite Hc, Hshared. reflexivity. }
  assert (Hinc : inconsistent (idx w) = true ->
                 forall n, mail_index_set_lock E (S n) w MAIL_LOCK_EXCLUSIVE = Done (false, w)).
  { intros Hc n. cbn [mail_index_set_lock]. rewrite Hc. reflexivity. }
  split; [intros Hc; apply Hcons, Hc|]. split; [intros Hc; apply Hinc, Hc|].
  intros [|n] b w' Hres; [discriminate|].
  destruct (inconsistent (idx w)) eqn:Hc.
  - rewrite Hinc in Hres by reflexivity. injection Hres as <- <-. split; reflexivity.
  - rewrite Hcons in Hres by reflexivity. discriminate.
Qed.

Lemma set_lock_inconsistent_fails (n : nat) (w : World) (l : MailLockType) :
  inconsistent (idx w) = true ->
  mail_index_set_lock E (S n) w l = Done (false, w).
Proof. intros Hc. cbn [mail_index_set_lock]. rewrite Hc. reflexivity. Qed.

Lemma mail_index_sync_file_frame (w : World) :
  let w' := snd (mail_index_sync_file E w) in
  file_hdr w' = file_hdr w /\ file_size w' = file_size w /\ file_recs w' = file_recs w
  /\ ix_error None (idx w') = ix_error None (idx w)
  /\ exists evs, trace w' = evs ++ trace w.
Proof.
  unfold mail_index_sync_file, msync, fsync.
  destruct (env_data_sync_ok E w); cbn; [|repeat split; exists []; reflexivity].
  destruct (mmap_base (idx w)); cbn.
  - destruct (env_msync_ok E w); cbn; [|repeat split; eexists [_]; reflexivity].
    match goal with |- context [env_utime_ok E ?x] => destruct (env_utime_ok E x) end;
      cbn; [|repeat split; eexists [_]; reflexivity].
    match goal with |- context [env_fsync_ok E ?x] => destruct (env_fsync_ok E x) end;
      cbn; repeat split; eexists [_; _]; reflexivity.
  - destruct (env_utime_ok E w); cbn; [|repeat split; exists []; reflexivity].
    destruct (env_fsync_ok E w); cbn; repeat split; eexists [_]; reflexivity.
Qed.

Lemma mail_index_update_header_changes_frame (w w' : World) :
  mail_index_update_header_changes w = Done w' ->
  inconsistent (idx w') = inconsistent (idx w).
Proof.
  unfold mail_index_update_header_changes.
  destruct (lock_eqb (lock_type (idx w)) MAIL_LOCK_EXCLUSIVE); cbn; [|discriminate].
  destruct (set_flags (idx w) =? 0); cbn;
    destruct (set_cache_fields (idx w) =? 0); cbn; intros [= <-]; reflexivity.
Qed.

Lemma mail_index_fmsync_frame (w w' : World) (size : Z) (b : bool) :
  mail_index_fmsync E w size = Done (b, w') ->
  inconsistent (idx w') = inconsistent (idx w).
Proof.
  unfold mail_index_fmsync, msync, fsync.
  destruct (lock_eqb (lock_type (idx w)) MAIL_LOCK_EXCLUSIVE); cbn; [|discriminate].
  destruct (env_msync_ok E w); cbn; [|intros [= <- <-]; reflexivity].
  match goal with |- context [env_fsync_ok E ?x] => destruct (env_fsync_ok E x) end;
    cbn; intros [= <- <-]; reflexivity.
Qed.

Lemma release_exclusive_frame (w w' : World) :
  release_exclusive E w = Done w' ->
  inconsistent (idx w') = inconsistent (idx w).
Proof.
  unfold release_exclusive, deref_header.
  destruct (header_mapped w); cbn; [|discriminate].
  destruct (mail_index_update_header_changes _) as [w2| | |] eqn:Hup;
    cbn; try discriminate.
  intros [= <-].
  apply mail_index_update_header_changes_frame in Hup. cbn in Hup.
  destruct (mail_index_sync_file_frame w2) as (_ & _ & _ & Hi & _).
  cbn zeta in Hi. apply (f_equal inconsistent) in Hi. cbn in Hi.
  rewrite Hi, Hup. reflexivity.
Qed.

(** The pieces of [set_lock], given that the calls they make return
    TRUE with a consistent handle only. *)
Section SetLockConsistent.
Variable set_lock : World -> MailLockType -> outcome (bool * World).
Hypothesis set_lock_consistent :
  forall (w w' : World) (l : MailLockType),
  set_lock w l = Done (true, w') -> inconsistent (idx w') = false.

Lemma set_lock_finish_consistent (lock : MailLockType) (w w' : World) :
  inconsistent (idx w) = false ->
  set_lock_finish E set_lock lock w = Done (true, w') ->
  inconsistent (idx w') = false.
Proof.
  intros Hcf Hfin. unfold set_lock_finish in Hfin.
  match type of Hfin with (?m ≫= _) = _ => destruct m as [[go_on w2]| | |] eqn:Hfm end;
    cbn in Hfin; try discriminate.
  assert (Hc2 : go_on = true -> inconsistent (idx w2) = false).
  { intros ->. destruct (lock_eqb lock MAIL_LOCK_EXCLUSIVE).
    - match type of Hfm with (?m ≫= _) = _ =>
        destruct m as [[ok w3]| | |] eqn:Hsync end;
        cbn in Hfm; try discriminate.
      destruct ok; cbn in Hfm.
      + injection Hfm as <-. apply mail_index_fmsync_frame in Hsync.
        rewrite Hsync. exact Hcf.
      + destruct (set_lock w3 MAIL_LOCK_UNLOCK) as [[? ?]| | |]; discriminate.
    - injection Hfm as <-. exact Hcf. }
  destruct go_on; cbn in Hfin; [|discriminate].
  specialize (Hc2 eq_refl).
  destruct (header (idx w2) && negb (updating (idx w2))
            && has_flag (flags (file_hdr w2)) MAIL_INDEX_FLAG_REBUILD).
  - match type of Hfin with (?m ≫= _) = _ => destruct m as [w3| | |] end;
      cbn in Hfin; try discriminate.
    destruct (mail_index_rebuild_all E w3) as [ok w4].
    destruct ok; cbn in Hfin; [|discriminate].
    destruct (set_lock w4 lock) as [[ret w5]| | |] eqn:Hrec;
      cbn in Hfin; try discriminate.
    injection Hfin as -> <-. apply set_lock_consistent in Hrec. exact Hrec.
  - injection Hfin as <-. destruct (lock_eqb lock MAIL_LOCK_UNLOCK); exact Hc2.
Qed.

Lemma set_lock_granted_consistent (lock : MailLockType) (w w' : World) :
  inconsistent (idx w) = false ->
  set_lock_granted E set_lock lock w = Done (true, w') ->
  inconsistent (idx w') = false.
Proof.
  intros Hc1 Hres. unfold set_lock_granted in Hres.
  destruct (lock_eqb lock MAIL_LOCK_UNLOCK) eqn:Hul; cbn in Hres.
  - (* releasing *)
    destruct (lock_eqb (lock_type (idx w)) MAIL_LOCK_SHARED).
    + destruct (deref_header _); cbn in Hres; try discriminate.
      match type of Hres with (if ?c then _ else _) = _ => destruct c end.
      * destruct (set_lock _ MAIL_LOCK_EXCLUSIVE) as [[ok w2]| | |];
          cbn in Hres; try discriminate.
        match type of Hres with (?m ≫= _) = _ => destruct m as [w3| | |] end;
          cbn in Hres; try discriminate.
        apply set_lock_consistent in Hres. exact Hres.
      * apply set_lock_finish_consistent in Hres; [exact Hres|exact Hc1].
    + apply set_lock_finish_consistent in Hres; [exact Hres|exact Hc1].
  - (* acquiring *)
    match type of Hres with context [mmap_update E ?x] =>
      destruct (mmap_update E x) as [ok w2] eqn:Hmu end.
    destruct (mmap_update_frame _ _ _ Hmu) as (_ & _ & Hi2 & _). cbn in Hi2.
    destruct ok; cbn in Hres.
    + destruct (indexid (idx w2) =? hdr_indexid (file_hdr w2));
        cbn in Hres; [|discriminate].
      apply set_lock_finish_consistent in Hres; [exact Hres|]. rewrite Hi2. exact Hc1.
    + destruct (set_lock w2 MAIL_LOCK_UNLOCK) as [[? ?]| | |]; discriminate.
Qed.

Lemma set_lock_request_consistent (lock : MailLockType) (w w' : World) :
  inconsistent (idx w) = false ->
  set_lock_request E set_lock lock w = Done (true, w') ->
  inconsistent (idx w') = false.
Proof.
  intros Hc1 Hres. unfold set_lock_request, fcntl_setlkw in Hres.
  destruct (env_fcntl_ok E w lock); cbn in Hres; [|discriminate].
  apply set_lock_granted_consistent in Hres; [exact Hres|exact Hc1].
Qed.

End SetLockConsistent.

(** Whatever the path, a [set_lock] that returns TRUE returns a handle
    that is not marked inconsistent: marking and failing go together. *)
Lemma set_lock_true_consistent (fuel : nat) :
  forall (w w' : World) (lock : MailLockType),
  mail_index_set_lock E fuel w lock = Done (true, w') ->
  inconsistent (idx w') = false.
Proof.
  induction fuel as [|fuel IH]; intros w w' lock Hres; [discriminate|].
  cbn [mail_index_set_lock] in Hres.
  destruct (inconsistent (idx w)) eqn:Hc; [discriminate|].
  destruct (lock_eqb (lock_type (idx w)) lock); [injection Hres as <-; exact Hc|].
  destruct (i_assert _); cbn -[mail_index_set_lock] in Hres; try discriminate.
  (* the world after EXCLUSIVE was given up, if it was held *)
  match type of Hres with (?m ≫= _) = _ => destruct m as [w1| | |] eqn:Hrel end;
    cbn -[mail_index_set_lock] in Hres; try discriminate.
  assert (Hc1 : inconsistent (idx w1) = false).
  { destruct (lock_eqb (lock_type (idx w)) MAIL_LOCK_EXCLUSIVE).
    - apply release_exclusive_frame in Hrel. rewrite Hrel. exact Hc.
    - injection Hrel as <-. exact Hc. }
  clear Hrel.
  destruct (negb (lock_eqb lock MAIL_LOCK_UNLOCK)
            && lock_eqb (lock_type (idx w1)) MAIL_LOCK_UNLOCK
            && negb (updating (idx w1))).
  { destruct (mail_index_set_lock E fuel _ lock) as [[ret w3]| | |] eqn:Hrec;
      cbn in Hres; try discriminate.
    injection Hres as -> <-. apply IH in Hrec. exact Hrec. }
  eapply set_lock_request_consistent; [exact IH|exact Hc1|exact Hres].
Qed.

(** C6: when a lock is acquired from UNLOCK (after the [sync] callback,
    if this is not an update already), the lock is granted and the
    mapping refreshed, and the header's [indexid] is not the handle's,
    [set_lock] marks the handle inconsistent and returns failure; from
    then on every [set_lock], whatever the target, returns failure and
    leaves the world as it is, and [is_inconsistency_error] is true.
    On every path, a call that returns a handle marked inconsistent has
    returned failure. *)
Theorem set_lock_detects_rebuilt_index (fuel : nat) (w w1 : World) (lock : MailLockType) :
  let w0 := if updating (idx w) then w
            else env_sync E (with_idx (ix_updating true) w) in
  lock <> MAIL_LOCK_UNLOCK ->
  lock_type (idx w) = MAIL_LOCK_UNLOCK ->
  inconsistent (idx w) = false ->
  lock_type (idx w0) = MAIL_LOCK_UNLOCK ->
  inconsistent (idx w0) = false ->
  updating (idx w0) = true ->
  env_fcntl_ok E w0 lock = true ->
  mmap_update E (with_idx (ix_lock_type lock) (emit (EvFcntl lock true (file_hdr w0)) w0))
    = (true, w1) ->
  indexid (idx w1) <> hdr_indexid (file_hdr w1) ->
  exists w2,
    mail_index_set_lock E (S (S fuel)) w lock = Done (false, w2)
    /\ inconsistent (idx w2) = true
    /\ lock_type (idx w2) = lock
    /\ mail_index_is_inconsistency_error w2 = true
    /\ (forall (n : nat) (l : MailLockType),
          mail_index_set_lock E (S n) w2 l = Done (false, w2))
    /\ (forall (n : nat) (x x' : World) (l : MailLockType) (b : bool),
          mail_index_set_lock E n x l = Done (b, x') ->
          inconsistent (idx x') = true -> b = false).
Proof.
  intros w0 Hlock Hun Hcons Hun0 Hcons0 Hupd0 Hfcntl Hmu Hid.
  assert (Hall : forall (n : nat) (x x' : World) (l : MailLockType) (b : bool),
            mail_index_set_lock E n x l = Done (b, x') ->
            inconsistent (idx x') = true -> b = false).
  { intros n x x' l [|] Hres Hinc; [|reflexivity].
    apply set_lock_true_consistent in Hres. congruence. }
  assert (Hdirect : forall n,
    mail_index_set_lock E (S n) w0 lock
    = Done (false, with_idx (ix_inconsistent true) (index_set_error ErrInconsistency w1))).
  { intros n. cbn [mail_index_set_lock]. rewrite Hcons0, Hun0.
    destruct lock; [contradiction| |]; cbn; rewrite Hupd0, Hun0; cbn;
      unfold fcntl_setlkw; rewrite Hfcntl; cbn; rewrite Hmu; cbn;
      (destruct (Z.eqb_spec (indexid (idx w1)) (hdr_indexid (file_hdr w1)));
        [contradiction|reflexivity]). }
  assert (Hlt1 : lock_type (idx w1) = lock).
  { apply mmap_update_frame in Hmu as (-> & _). reflexivity. }
  destruct (updating (idx w)) eqn:Hupd.
  - subst w0. eexists. split; [apply Hdirect|].
    split; [reflexivity|]. split; [exact Hlt1|]. split; [reflexivity|].
    split; [|exact Hall].
    intros n l. apply set_lock_inconsistent_fails. reflexivity.
  - eexists. split.
    + pose proof (Hdirect fuel) as Hd.
      assert (Hw0 : w0 = env_sync E (with_idx (ix_updating true) w)).
      { reflexivity. }
      rewrite Hw0 in Hd.
      remember (S fuel) as n eqn:Hn.
      cbn [mail_index_set_lock]. rewrite Hcons, Hun.
      destruct lock; [contradiction| |]; cbn -[mail_index_set_lock];
        rewrite Hupd, Hun; cbn -[mail_index_set_lock]; rewrite Hd; reflexivity.
    + split; [reflexivity|]. split; [exact Hlt1|]. split; [reflexivity|].
      split; [|exact Hall].
      intros n l. apply set_lock_inconsistent_fails. reflexivity.
Qed.




Lemma header_mapped_inv (w : World) :
  header_mapped w = true ->
  header (idx w) = true /\ mmap_base (idx w) = true /\ HSIZE <= mmap_length (idx w).
Proof.
  unfold header_mapped. intros Hm.
  apply andb_prop in Hm as [Hm Hlen]. apply andb_prop in Hm as [Hh Hb].
  apply Z.leb_le in Hlen. repeat split; assumption.
Qed.

Lemma ix_pending_trans (a b c : MailIndex) :
  ix_error None a = ix_error None b ->
  ix_set_cache_fields 0 (ix_set_flags 0 b) = ix_set_cache_fields 0 (ix_set_flags 0 c) ->
  ix_error None (ix_set_cache_fields 0 (ix_set_flags 0 a))
  = ix_error None (ix_set_cache_fields 0 (ix_set_flags 0 c)).
Proof.
  destruct a, b, c. unfold ix_error, ix_set_cache_fields, ix_set_flags. cbn.
  intros [= -> -> -> -> -> -> -> -> -> -> -> -> ->] [= -> -> -> -> -> -> -> -> -> -> -> ->].
  reflexivity.
Qed.

(** Lines 247-255 on a handle whose header is mapped: the header that
    results is [released_header], nothing is pending any more, and the
    rest of the handle is as it was up to the error message. *)
Lemma release_exclusive_spec (w : World) :
  lock_type (idx w) = MAIL_LOCK_EXCLUSIVE ->
  header_mapped w = true ->
  exists w_rel,
    release_exclusive E w = Done w_rel
    /\ file_hdr w_rel = released_header w
    /\ set_flags (idx w_rel) = 0 /\ set_cache_fields (idx w_rel) = 0
    /\ ix_error None (ix_set_cache_fields 0 (ix_set_flags 0 (idx w_rel)))
       = ix_error None (ix_set_cache_fields 0 (ix_set_flags 0 (idx w)))
    /\ file_size w_rel = file_size w /\ file_recs w_rel = file_recs w
    /\ exists evs, trace w_rel = evs ++ trace w.
Proof.
  intros Hex Hmapped.
  unfold release_exclusive, deref_header. rewrite Hmapped. cbn [mbind outcome_bind].
  set (w1 := with_hdr (fun h => h_flags (Z.land (flags h) (Z.lnot MAIL_INDEX_FLAG_FSCK)) h) w).
  assert (Hfold : exists w2,
    mail_index_update_header_changes w1 = Done w2
    /\ file_hdr w2 = released_header w
    /\ ix_set_cache_fields 0 (ix_set_flags 0 (idx w2))
       = ix_set_cache_fields 0 (ix_set_flags 0 (idx w))
    /\ set_flags (idx w2) = 0 /\ set_cache_fields (idx w2) = 0
    /\ trace w2 = trace w /\ file_size w2 = file_size w /\ file_recs w2 = file_recs w).
  { unfold mail_index_update_header_changes, released_header, w1. cbn. rewrite Hex. cbn.
    clear Hmapped.
    destruct w as [i fs h rs tr]. destruct h, i. cbn in *.
    destruct (Z.eqb_spec set_flags0 0) as [->|]; cbn;
      destruct (Z.eqb_spec set_cache_fields0 0) as [->|]; cbn;
      eexists; (split; [reflexivity|]); cbn; rewrite ?Z.lor_0_r; repeat split. }
  destruct Hfold as (w2 & Hupd & Hh2 & Hi2 & Hsf2 & Hsc2 & Ht2 & Hs2 & Hr2).
  rewrite Hupd. cbn [mbind outcome_bind].
  destruct (mail_index_sync_file_frame w2) as (Hh3 & Hs3 & Hr3 & Hi3 & evs & Ht3).
  set (w_rel := snd (mail_index_sync_file E w2)) in *. cbn zeta in Hh3, Hs3, Hr3, Hi3, Ht3.
  exists w_rel. split; [reflexivity|].
  split; [rewrite Hh3; exact Hh2|].
  split; [apply (f_equal set_flags) in Hi3; cbn in Hi3; rewrite Hi3; exact Hsf2|].
  split; [apply (f_equal set_cache_fields) in Hi3; cbn in Hi3; rewrite Hi3; exact Hsc2|].
  split; [apply ix_pending_trans with (b := idx w2); assumption|].
  split; [rewrite Hs3; exact Hs2|]. split; [rewrite Hr3; exact Hr2|].
  exists evs. rewrite Ht3, Ht2. reflexivity.
Qed.

(** A call that asks for another lock while EXCLUSIVE is held: the
    release of lines 247-255, then the lock request on what it left. *)
Lemma set_lock_leaves_exclusive (fuel : nat) (w w_rel : World) (lock : MailLockType) :
  lock_type (idx w) = MAIL_LOCK_EXCLUSIVE ->
  inconsistent (idx w) = false ->
  lock <> MAIL_LOCK_EXCLUSIVE ->
  release_exclusive E w = Done w_rel ->
  lock_type (idx w_rel) = MAIL_LOCK_EXCLUSIVE ->
  mail_index_set_lock E (S fuel) w lock
  = if env_fcntl_ok E w_rel lock
    then set_lock_granted E (mail_index_set_lock E fuel) lock
           (emit (EvFcntl lock true (file_hdr w_rel)) w_rel)
    else Done (false, index_set_error (ErrFcntl lock)
                        (emit (EvFcntl lock false (file_hdr w_rel)) w_rel)).
Proof.
  intros Hex Hcons Hlock Hrel Hlt.
  cbn [mail_index_set_lock]. rewrite Hcons, Hex.
  destruct lock; [| |contradiction];
    cbn [lock_eqb negb orb andb i_assert mbind outcome_bind];
    rewrite Hrel; cbn [mbind outcome_bind]; rewrite ?Hlt; cbn [lock_eqb andb negb];
    unfold set_lock_request, fcntl_setlkw; cbn zeta;
    destruct (env_fcntl_ok E w_rel _); reflexivity.
Qed.

(** Lines 283-358 after a granted request to leave EXCLUSIVE, when no
    rebuild is due and (for SHARED) the mapping is current and the index
    is the one that was opened: the call returns TRUE with the new lock
    state, and neither the header nor the trace changes any more. *)
Lemma set_lock_granted_clean (fuel : nat) (w : World) (lock : MailLockType) :
  lock <> MAIL_LOCK_EXCLUSIVE ->
  lock_type (idx w) = MAIL_LOCK_EXCLUSIVE ->
  header (idx w) = true -> mmap_base (idx w) = true ->
  negb (updating (idx w)) && has_flag (flags (file_hdr w)) MAIL_INDEX_FLAG_REBUILD = false ->
  (lock = MAIL_LOCK_SHARED ->
   dirty_mmap (idx w) = false /\ indexid (idx w) = hdr_indexid (file_hdr w)) ->
  exists w',
    set_lock_granted E (mail_index_set_lock E fuel) lock w = Done (true, w')
    /\ lock_type (idx w') = lock /\ file_hdr w' = file_hdr w /\ trace w' = trace w.
Proof.
  intros Hlock Hex Hhdr Hbase Hnoreb Hshared.
  unfold set_lock_granted, set_lock_finish.
  destruct lock; [| |contradiction]; cbn [lock_eqb negb].
  - cbn [with_idx idx lock_type ix_last_lookup ix_lock_type]. rewrite Hex.
    cbn [lock_eqb mbind outcome_bind negb].
    cbn [with_idx idx header updating ix_last_lookup ix_lock_type file_hdr].
    rewrite Hhdr. cbn [andb]. rewrite Hnoreb.
    eexists. split; [reflexivity|]. repeat split.
  - destruct (Hshared eq_refl) as [Hdirty Hid].
    unfold mmap_update. cbn [with_idx idx dirty_mmap ix_lock_type]. rewrite Hdirty.
    cbn [negb with_idx idx mmap_base ix_lock_type ix_header indexid file_hdr].
    rewrite Hid, Z.eqb_refl. cbn [negb mbind outcome_bind].
    cbn [with_idx idx header updating ix_header ix_lock_type file_hdr mmap_base].
    rewrite Hbase. cbn [andb]. rewrite Hnoreb.
    eexists. split; [reflexivity|]. repeat split.
Qed.

(** *** What the index operations leave of the lock state and the header flags *)








End Proofs.

(** ** The theorems at concrete inputs *)

Lemma sample_platform_ok : @PlatformOk sample_platform.
Proof. split; cbn; lia. Qed.

(** C4: with no SEEN or DELETED bit changing, no transition is applied -
    the header is not what any of the four transitions would leave. *)
Lemma index_mark_flag_changes_none_applies :
  let w := three_messages MAIL_LOCK_EXCLUSIVE in
  let rec := mkRecord 2 8 0 10 in
  @index_mark_flag_changes sample_platform w rec 8 9 = w
  /\ forall t : Transition, with_hdr (apply_transition t (uid rec)) w <> w.
Proof.
  split; [reflexivity|]. intros t Heq.
  apply (f_equal file_hdr) in Heq.
  destruct t; vm_compute in Heq; discriminate.
Qed.

Lemma index_mark_flag_changes_priority_witness :
  let w := three_messages MAIL_LOCK_EXCLUSIVE in
  let rec := mkRecord 1 0 0 10 in
  @index_mark_flag_changes sample_platform w rec 0 12 =
    with_hdr (h_seen_messages_count 2) w.
Proof.
  intros w rec.
  destruct (@index_mark_flag_changes_priority sample_platform w rec 0 12)
    as (_ & Hboth & _).
  apply Hboth; reflexivity.
Defined.

(** C3: the append that hands out uid [UINT_MAX] wraps [next_uid] to 0;
    an append to a file that holds a uid above [next_uid] leaves it
    above; and an append to a file with stray bytes after its header
    leaves a slot that is part stray bytes, part record, with whatever
    uid that makes. *)
Lemma append_wraps_next_uid :
  (exists w' ref,
    @mail_index_append sample_platform calm_env last_uid_world (mkRecord 0 0 0 10)
      = Done (true, ref, w')
    /\ next_uid (file_hdr last_uid_world) = UINT_MAX
    /\ next_uid (file_hdr w') = 0
    /\ ~ next_uid (file_hdr last_uid_world) < next_uid (file_hdr w')
    /\ exists r, r ∈ file_recs w' /\ ~ uid r < next_uid (file_hdr w'))
  /\ (exists w' ref,
    @mail_index_append sample_platform calm_env stale_next_uid_world (mkRecord 0 0 0 10)
      = Done (true, ref, w')
    /\ next_uid (file_hdr w') = next_uid (file_hdr stale_next_uid_world) + 1
    /\ exists r, r ∈ file_recs w' /\ ~ uid r < next_uid (file_hdr w'))
  /\ (exists w' ref,
    @mail_index_append sample_platform torn_env stray_exclusive_world (mkRecord 0 0 0 10)
      = Done (true, ref, w')
    /\ file_recs stray_exclusive_world = []
    /\ next_uid (file_hdr w') = next_uid (file_hdr stray_exclusive_world) + 1
    /\ file_recs w' <> [r_uid (next_uid (file_hdr stray_exclusive_world)) (mkRecord 0 0 0 10)]
    /\ exists r, r ∈ file_recs w' /\ ~ uid r < next_uid (file_hdr w')).
Proof.
  split; [|split].
  - eexists; eexists. split; [vm_compute; reflexivity|].
    cbn. split; [reflexivity|]. split; [reflexivity|]. split; [vm_compute; discriminate|].
    eexists. split; [apply list_elem_of_here|]. vm_compute. discriminate.
  - eexists; eexists. split; [vm_compute; reflexivity|].
    split; [reflexivity|].
    eexists. split; [apply list_elem_of_here|]. vm_compute. discriminate.
  - eexists; eexists. split; [vm_compute; reflexivity|].
    split; [reflexivity|]. split; [reflexivity|]. split; [vm_compute; discriminate|].
    eexists. split; [apply list_elem_of_here|]. vm_compute. discriminate.
Qed.

Lemma append_assigns_next_uid_witness :
  exists w',
    @mail_index_append sample_platform calm_env (three_messages MAIL_LOCK_EXCLUSIVE)
      (mkRecord 0 8 0 10) = Done (true, InMapping 200, w')
    /\ file_recs w' = three_records ++ [mkRecord 4 8 0 10]
    /\ next_uid (file_hdr w') = 5
    /\ messages_count (file_hdr w') = 4
    /\ seen_messages_count (file_hdr w') = 2
    /\ (forall r, r ∈ file_recs w' -> uid r < 5).
Proof.
  eexists. split; [vm_compute; reflexivity|].
  match goal with |- context [file_recs ?x] => set (w' := x) end.
  destruct (@append_assigns_next_uid sample_platform calm_env
              (three_messages MAIL_LOCK_EXCLUSIVE) w' (mkRecord 0 8 0 10) (InMapping 200))
    as (_ & _ & _ & _ & _ & Hhdr & Hnext & Hcount & Hwf).
  - split; cbn; lia.
  - vm_compute. reflexivity.
  - assert (Hnu : 0 <= next_uid (file_hdr (three_messages MAIL_LOCK_EXCLUSIVE)) < UINT_MAX).
    { cbn. unfold UINT_MAX. lia. }
    destruct (Hnext Hnu) as (Hn & _).
    destruct Hwf as (Hrecs & _ & Hinv); [reflexivity|].
    split; [exact Hrecs|]. split; [exact Hn|].
    split; [apply Hcount; cbn; unfold UINT_MAX; lia|].
    split; [rewrite Hhdr; vm_compute; reflexivity|].
    intros r Hr. change 5 with (next_uid (file_hdr (three_messages MAIL_LOCK_EXCLUSIVE)) + 1).
    rewrite <- Hn. apply (Hinv Hnu); [|exact Hr].
    intros r0 Hr0. vm_compute in Hr0.
    repeat (apply elem_of_cons in Hr0 as [->|Hr0]; [vm_compute; reflexivity|]).
    apply elem_of_nil in Hr0. contradiction.
Defined.


(** C7: when [ftruncate] fails, the refresh of a file of 93 bytes still
    succeeds and maps 80 of them, but the file keeps its 93 bytes.  And
    a file that has become shorter than a header goes unnoticed as long
    as the mapping is not marked dirty, and is not looked at when
    [mmap] fails. *)
Lemma mmap_update_failed_truncate_succeeds :
  (exists w',
    @mmap_update sample_platform no_truncate_env stray_bytes_world = (true, w')
    /\ mmap_length (idx w') = 80
    /\ trace w' = [EvFtruncate 80 false]
    /\ file_size w' = 93
    /\ error (idx w') = None)
  /\ (exists w',
    @mmap_update sample_platform calm_env short_file_world = (true, w')
    /\ file_size w' = 10
    /\ set_flags (idx w') = 0 /\ error (idx w') = None)
  /\ (exists w',
    @mmap_update sample_platform no_mmap_env (with_idx (ix_dirty_mmap true) short_file_world)
      = (false, w')
    /\ file_size w' = 10
    /\ set_flags (idx w') = 0 /\ error (idx w') = Some ErrMmapFailed).
Proof.
  split; [|split]; (eexists; split; [vm_compute; reflexivity|]); repeat split.
Qed.

(** C7 at a file of 93 bytes: 13 bytes are dropped, from the mapping
    and, when [ftruncate] does its work, from the file. *)
Lemma mmap_update_refresh_witness :
  (exists w',
    @mmap_update sample_platform calm_env stray_bytes_world = (true, w')
    /\ mmap_length (idx w') = 80
    /\ trace w' = [EvFtruncate 80 true]
    /\ file_size w' = 80)
  /\ (exists w',
    @mmap_update sample_platform no_truncate_env stray_bytes_world = (true, w')
    /\ mmap_length (idx w') = 80
    /\ trace w' = [EvFtruncate 80 false]
    /\ file_size w' = 93).
Proof.
  split.
  - destruct (@mmap_update_refresh sample_platform calm_env stray_bytes_world)
      as (_ & Hcut).
    + split; cbn; lia.
    + reflexivity.
    + reflexivity.
    + destruct Hcut as (w' & ok & Hres & Hlen & _ & Htrace & Hsize & _).
      * cbn. lia.
      * vm_compute. discriminate.
      * assert (Hok : ok = true).
        { vm_compute in Hres. injection Hres as <-. vm_compute in Htrace.
          injection Htrace as <-. reflexivity. }
        exists w'. split; [exact Hres|]. split; [exact Hlen|].
        split; [rewrite Htrace, Hok; reflexivity|]. apply Hsize, Hok.
  - destruct (@mmap_update_refresh sample_platform no_truncate_env stray_bytes_world)
      as (_ & Hcut).
    + split; cbn; lia.
    + reflexivity.
    + reflexivity.
    + destruct Hcut as (w' & ok & Hres & Hlen & _ & Htrace & _ & Hkeep & _).
      * cbn. lia.
      * vm_compute. discriminate.
      * assert (Hok : ok = false).
        { vm_compute in Hres. injection Hres as <-. vm_compute in Htrace.
          injection Htrace as <-. reflexivity. }
        exists w'. split; [exact Hres|]. split; [exact Hlen|].
        split; [rewrite Htrace, Hok; reflexivity|]. apply Hkeep, Hok.
Defined.

(** C2: the expunge of the only message leaves no hole descriptor; a
    second hole puts COMPRESS into the pending flags and leaves the
    header flags alone; an expunge that the modification log refuses
    returns FALSE and leaves the descriptor as it was; and under a
    mapping that ends before the file does, the hole stops growing where
    the mapping ends, before the tombstone that follows. *)
Lemma expunge_descriptor_exceptions :
  (exists w',
     @mail_index_expunge sample_platform calm_env (one_message MAIL_LOCK_EXCLUSIVE)
       80 1 false = Done (true, w')
     /\ first_hole_position (file_hdr (one_message MAIL_LOCK_EXCLUSIVE)) = 0
     /\ first_hole_position (file_hdr w') = 0
     /\ first_hole_records (file_hdr w') = 0)
  /\ (exists w',
     @mail_index_expunge sample_platform calm_env merging_holes_world 240 3 false
       = Done (true, w')
     /\ has_flag (set_flags (idx w')) (@MAIL_INDEX_FLAG_COMPRESS sample_platform) = true
     /\ has_flag (flags (file_hdr w')) (@MAIL_INDEX_FLAG_COMPRESS sample_platform) = false
     /\ first_hole_position (file_hdr w') = 120)
  /\ (exists w',
     @mail_index_expunge sample_platform no_log_env (three_messages MAIL_LOCK_EXCLUSIVE)
       120 2 false = Done (false, w')
     /\ first_hole_position (file_hdr w') = 0
     /\ first_hole_records (file_hdr w') = 0
     /\ file_recs w' = three_records)
  /\ (exists w',
     @mail_index_expunge sample_platform calm_env short_mapping_world 160 2 false
       = Done (true, w')
     /\ first_hole_position (file_hdr w') = 120
     /\ first_hole_records (file_hdr w') = 2
     /\ @tombstones_at sample_platform (file_recs w') 120 = 3).
Proof.
  split; [|split; [|split]];
    (eexists; split; [vm_compute; reflexivity|]); repeat split.
Qed.

(** C2 at the third of five slots, between the hole and a tombstone:
    the hole grows over both. *)
Lemma expunge_hole_descriptor_witness :
  exists w',
    @mail_index_expunge sample_platform calm_env merging_holes_world 160 2 false
      = Done (true, w')
    /\ first_hole_position (file_hdr w') = 120
    /\ first_hole_records (file_hdr w') = 3
    /\ set_flags (idx w') = 0
    /\ messages_count (file_hdr w') = 2.
Proof.
  destruct (@expunge_hole_descriptor sample_platform calm_env merging_holes_world
              160 2 false) as (Hdesc & _ & Hret).
  - split; cbn; lia.
  - reflexivity.
  - edestruct (Hret (mkRecord 3 4 0 10)) as (w' & Hrun).
    + reflexivity.
    + vm_compute. reflexivity.
    + discriminate.
    + reflexivity.
    + cbn. unfold UINT_MAX. lia.
    + right. reflexivity.
    + destruct (Hdesc w' Hrun) as (k & r & Hslot & _ & _ & _ & Hd).
      vm_compute in Hslot. injection Hslot as <-.
      cbv zeta in Hd. vm_compute hole_after_expunge in Hd.
      destruct Hd as (Hcount & Hhole & Hflags & _).
      assert (Hleft : messages_count (file_hdr w') = 2).
      { rewrite Hcount. vm_compute. reflexivity. }
      rewrite Hleft in Hhole. cbn in Hhole. injection Hhole as Hp Hn.
      exists w'. split; [exact Hrun|]. split; [exact Hp|]. split; [exact Hn|].
      split; [exact Hflags | exact Hleft].
Defined.

(** C8: when [ftruncate] fails, the expunge of the last message does not
    reset the data store (and the file keeps its length). *)
Lemma expunge_last_message_no_reset :
  exists w',
    @mail_index_expunge sample_platform no_truncate_env (one_message MAIL_LOCK_EXCLUSIVE)
      80 1 false = Done (true, w')
    /\ messages_count (file_hdr w') = 0
    /\ file_size w' = 120
    /\ forall ok, EvDataReset ok ∉ trace w'.
Proof.
  eexists. split; [vm_compute; reflexivity|].
  split; [reflexivity|]. split; [reflexivity|].
  intros ok Hin. vm_compute in Hin.
  repeat (apply elem_of_cons in Hin as [Hin|Hin]; [discriminate|]).
  apply elem_of_nil in Hin. contradiction.
Qed.

Lemma expunge_last_message_truncates_witness :
  exists w',
    @mail_index_expunge sample_platform calm_env (one_message MAIL_LOCK_EXCLUSIVE)
      80 1 false = Done (true, w')
    /\ first_hole_position (file_hdr w') = 0
    /\ first_hole_records (file_hdr w') = 0
    /\ file_size w' = 80
    /\ trace w' = [EvDataReset true; EvFtruncate 80 true; EvHashUpdate 1 0;
                   EvModifylogExpunge 1 1 false true].
Proof.
  eexists. split; [vm_compute; reflexivity|].
  match goal with |- context [file_hdr ?x] => set (w' := x) end.
  destruct (@expunge_last_message_truncates sample_platform calm_env
              (one_message MAIL_LOCK_EXCLUSIVE) w' 80 1 false)
    as (r & _ & _ & Hzero & _).
  - vm_compute. reflexivity.
  - destruct Hzero as (Hp & Hn & _); [reflexivity|].
    split; [exact Hp|]. split; [exact Hn|]. split; reflexivity.
Defined.



(** C9: a handle that [set_lock(SHARED)] left inconsistent while holding
    SHARED gets FALSE from [set_lock(EXCLUSIVE)], not an assertion. *)
Lemma set_lock_shared_inconsistent_no_assert :
  exists w1,
    @mail_index_set_lock sample_platform calm_env 3 rebuilt_world MAIL_LOCK_SHARED
      = Done (false, w1)
    /\ lock_type (idx w1) = MAIL_LOCK_SHARED
    /\ inconsistent (idx w1) = true
    /\ @mail_index_set_lock sample_platform calm_env 3 w1 MAIL_LOCK_EXCLUSIVE
       = Done (false, w1).
Proof.
  eexists. split; [vm_compute; reflexivity|].
  split; [reflexivity|]. split; [reflexivity|]. vm_compute. reflexivity.
Qed.

Lemma set_lock_shared_to_exclusive_witness :
  @mail_index_set_lock sample_platform calm_env 3 (three_messages MAIL_LOCK_SHARED)
    MAIL_LOCK_EXCLUSIVE = AssertFailed.
Proof.
  destruct (@set_lock_shared_to_exclusive sample_platform calm_env 2
              (three_messages MAIL_LOCK_SHARED)) as (Hassert & _).
  - reflexivity.
  - apply Hassert. reflexivity.
Defined.

(** C6 at the rebuilt index. *)
Lemma set_lock_detects_rebuilt_index_witness :
  exists w2,
    @mail_index_set_lock sample_platform calm_env 3 rebuilt_world MAIL_LOCK_SHARED
      = Done (false, w2)
    /\ inconsistent (idx w2) = true
    /\ mail_index_is_inconsistency_error w2 = true
    /\ @mail_index_set_lock sample_platform calm_env 1 w2 MAIL_LOCK_UNLOCK
       = Done (false, w2).
Proof.
  destruct (@set_lock_detects_rebuilt_index sample_platform calm_env 1 rebuilt_world
              (with_idx (fun i => ix_lock_type MAIL_LOCK_SHARED (ix_updating true i))
                 (emit (EvFcntl MAIL_LOCK_SHARED true (file_hdr rebuilt_world))
                    rebuilt_world))
              MAIL_LOCK_SHARED)
    as (w2 & Hres & Hinc & _ & Herr & Hafter & _).
  - discriminate.
  - reflexivity.
  - reflexivity.
  - reflexivity.
  - reflexivity.
  - reflexivity.
  - reflexivity.
  - vm_compute. reflexivity.
  - vm_compute. discriminate.
  - exists w2. split; [exact Hres|]. split; [exact Hinc|]. split; [exact Herr|].
    apply Hafter.
Defined.



(** ** Lookup by sequence, the counters and the hole: what the code keeps *)

Section SequencesAndCounters.
Context `{Platform} (E : Env) (E2 : Env2).

#[local] Arguments read_rec : simpl never.
#[local] Arguments wrap : simpl never.
#[local] Arguments mmap_update : simpl never.
#[local] Arguments index_mark_flag_changes : simpl never.
#[local] Arguments expunge_update_first_hole : simpl never.
#[local] Arguments expunge_update_counts : simpl never.

(** *** Counting *)

Lemma count_where_app (p : MailIndexRecord -> bool) (l1 l2 : list MailIndexRecord) :
  count_where p (l1 ++ l2) = (count_where p l1 + count_where p l2)%nat.
Proof.
  induction l1 as [|r l1 IH]; cbn; [reflexivity|].
  destruct (p r); rewrite IH; reflexivity.
Qed.

Lemma count_live_all (l : list MailIndexRecord) :
  Forall (fun r => uid r <> 0) l -> count_live l = length l.
Proof.
  induction 1 as [|r l Hr _ IH]; cbn; [reflexivity|].
  unfold is_live. destruct (Z.eqb_spec (uid r) 0); [contradiction|].
  cbn. f_equal. exact IH.
Qed.

Lemma count_live_none (l : list MailIndexRecord) :
  Forall (fun r => uid r = 0) l -> count_live l = O.
Proof.
  induction 1 as [|r l Hr _ IH]; cbn; [reflexivity|].
  unfold is_live. rewrite Hr. cbn. exact IH.
Qed.

Lemma count_where_le (p : MailIndexRecord -> bool) (l : list MailIndexRecord) :
  (count_where p l <= length l)%nat.
Proof. induction l as [|r l IH]; cbn; [lia|]. destruct (p r); lia. Qed.

(** *** The mapping *)

Lemma mapped_mmap_update (w : World) :
  mapped w -> mmap_update E w = (true, w).
Proof.
  intros (Hd & Hb & Hh & _). unfold mmap_update. rewrite Hd. cbn.
  f_equal. destruct w as [i ? ? ? ?]. destruct i. cbn in *. subst. reflexivity.
Qed.

Lemma mapped_read (w : World) (k : nat) (r : MailIndexRecord) :
  PlatformOk -> mapped w -> file_recs w !! k = Some r ->
  read_rec w (HSIZE + Z.of_nat k * RSIZE) = Done r.
Proof.
  intros Hok (_ & _ & _ & Hlen) Hk. apply read_rec_slot; [apply Hok|exact Hlen|exact Hk].
Qed.

(** *** The walk of mail_index_lookup_mapped *)

Abbreviation slot k := (HSIZE + Z.of_nat k * RSIZE).

(** [d] live records in a row are walked over one by one. *)
Lemma seq_walk_live (d : nat) : forall (fuel : nat) (w : World) (seq target : Z) (j : nat),
  PlatformOk -> mapped w ->
  (forall i, (j <= i < j + d)%nat ->
             exists r, file_recs w !! i = Some r /\ uid r <> 0) ->
  0 <= seq -> seq + Z.of_nat d <= target -> target <= UINT_MAX ->
  seq_walk (d + fuel) w seq target (slot j)
  = seq_walk fuel w (seq + Z.of_nat d) target (slot (j + d)).
Proof.
  induction d as [|d IH]; intros fuel w seq target j Hok Hm Hlive Hseq Hle Hmax.
  - cbn [Nat.add]. replace (j + 0)%nat with j by lia.
    replace (seq + Z.of_nat 0) with seq by lia. reflexivity.
  - cbn [Nat.add seq_walk].
    destruct (Hlive j ltac:(lia)) as (r & Hr & Hu).
    pose proof (lookup_lt_Some _ _ _ Hr) as Hlt.
    pose proof (hsize_pos Hok) as Hh. pose proof (rsize_pos Hok) as Hrs.
    destruct Hm as (Hd & Hb & Hhd & Hlen).
    assert (Hin : (slot j <? mmap_length (idx w)) = true).
    { apply Z.ltb_lt. rewrite Hlen. nia. }
    assert (Hs : (seq <? target) = true) by (apply Z.ltb_lt; lia).
    rewrite Hs, Hin. cbn [andb].
    rewrite (read_rec_slot w j r Hrs Hlen Hr). cbn.
    destruct (Z.eqb_spec (uid r) 0); [contradiction|]. cbn [negb].
    rewrite (wrap_small (seq + 1)) by lia.
    replace (slot j + RSIZE) with (slot (S j)) by lia.
    rewrite IH; try lia; try assumption.
    + replace (S j + d)%nat with (j + S d)%nat by lia.
      replace (seq + 1 + Z.of_nat d) with (seq + Z.of_nat (S d)) by lia.
      reflexivity.
    + repeat split; assumption.
    + intros i Hi. apply Hlive. lia.
Qed.

Lemma seq_walk_stop (fuel : nat) (w : World) (seq target rec : Z) :
  (seq <? target) && (rec <? mmap_length (idx w)) = false ->
  seq_walk (S fuel) w seq target rec = Done rec.
Proof. intros Hs. cbn [seq_walk]. rewrite Hs. reflexivity. Qed.

(** *** The lookup up to the walk *)

Lemma lock_eqb_unlock (l : MailLockType) :
  l <> MAIL_LOCK_UNLOCK -> lock_eqb l MAIL_LOCK_UNLOCK = false.
Proof. destruct l; intros Hl; try reflexivity. contradiction. Qed.

Lemma hole_ok_prefix_live (w : World) (k : nat) (r : MailIndexRecord) :
  PlatformOk -> hole_ok w ->
  first_hole_position (file_hdr w) = 0
  \/ slot k < first_hole_position (file_hdr w) ->
  file_recs w !! k = Some r ->
  uid r <> 0 /\ count_live (take k (file_recs w)) = k.
Proof.
  intros Hok Hhole Hpos Hk.
  pose proof (hsize_pos Hok) as Hh. pose proof (rsize_pos Hok) as Hrs.
  destruct Hhole as [(Hz & Hall) | (pre & hole & post & Hrecs & Hpre & Hhl & Hne & Hfhp & Hfhr)].
  - split.
    + rewrite Forall_lookup in Hall. exact (Hall k r Hk).
    + rewrite count_live_all.
      * rewrite length_take. apply lookup_lt_Some in Hk. lia.
      * apply Forall_take. exact Hall.
  - destruct Hpos as [Hz | Hlt]; [nia|].
    assert (Hkp : (k < length pre)%nat) by nia.
    rewrite Hrecs in Hk |- *.
    rewrite lookup_app_l in Hk by exact Hkp. split.
    + rewrite Forall_lookup in Hpre. exact (Hpre k r Hk).
    + rewrite take_app_le by lia. rewrite count_live_all.
      * rewrite length_take. lia.
      * apply Forall_take. exact Hpre.
Qed.

(** The entry of [mail_index_lookup] up to the choice between the
    expected slot and the walk. *)
Lemma lookup_mapped_miss (w : World) (seq : Z) :
  last_lookup (idx w) = None \/ last_lookup_seq (idx w) <> seq ->
  mail_index_lookup_mapped E2 w seq =
    (let hdr := file_hdr w in
     let seekpos := HSIZE + wrap (seq - 1) * RSIZE in
     if mmap_length (idx w) - RSIZE <? seekpos then Done (None, w)
     else if (first_hole_position hdr =? 0) || (seekpos <? first_hole_position hdr) then
       r ← read_rec w seekpos;
       if uid r =? 0 then
         Done (None, INDEX_MARK_CORRUPTED (index_set_error (msg_hole_not_updated E2) w))
       else Done (Some seekpos, w)
     else
       start ← (match last_lookup (idx w) with
                | Some p =>
                    if last_lookup_seq (idx w) <? seq
                    then Done (last_lookup_seq (idx w), p)
                    else
                      _ ← i_assert (0 <? first_hole_records hdr);
                      let s := wrap (INDEX_POSITION_INDEX (first_hole_position hdr + 1) + 1) in
                      Done (s, HSIZE + wrap (s - 1 + first_hole_records hdr) * RSIZE)
                | None =>
                    _ ← i_assert (0 <? first_hole_records hdr);
                    let s := wrap (INDEX_POSITION_INDEX (first_hole_position hdr + 1) + 1) in
                    Done (s, HSIZE + wrap (s - 1 + first_hole_records hdr) * RSIZE)
                end);
       let '(s, rec) := start in
       rec ← seq_walk (S (length (file_recs w))) w s seq rec;
       Done (Some rec, w)).
Proof.
  intros Hmiss. unfold mail_index_lookup_mapped.
  destruct (Z.eqb_spec seq (last_lookup_seq (idx w))) as [Heq|Hne].
  - destruct Hmiss as [Hnone | Hneq]; [|congruence].
    rewrite Hnone. reflexivity.
  - reflexivity.
Qed.

Lemma lookup_unfold (w : World) (seq : Z) :
  mapped w -> lock_type (idx w) <> MAIL_LOCK_UNLOCK -> 0 < seq ->
  mail_index_lookup E E2 w seq =
    ('(res, w1) ← mail_index_lookup_mapped E2 w seq;
     Done (res, remember_lookup res seq w1)).
Proof.
  intros Hm Hl Hseq. unfold mail_index_lookup.
  assert (Hpos : (0 <? seq) = true) by (apply Z.ltb_lt; lia).
  rewrite Hpos, (lock_eqb_unlock _ Hl), (mapped_mmap_update w Hm). reflexivity.
Qed.

(** A live record at the expected slot is what the lookup returns. *)
Lemma lookup_expected_slot (w : World) (k : nat) (r : MailIndexRecord) :
  PlatformOk -> mapped w ->
  lock_type (idx w) <> MAIL_LOCK_UNLOCK ->
  last_lookup (idx w) = None \/ last_lookup_seq (idx w) <> Z.of_nat k + 1 ->
  Z.of_nat k + 1 <= UINT_MAX ->
  file_recs w !! k = Some r -> uid r <> 0 ->
  first_hole_position (file_hdr w) = 0
  \/ slot k < first_hole_position (file_hdr w) ->
  mail_index_lookup E E2 w (Z.of_nat k + 1)
    = Done (Some (slot k), remember_lookup (Some (slot k)) (Z.of_nat k + 1) w).
Proof.
  intros Hok Hm Hl Hmiss Hmax Hk Hu Hpos.
  pose proof (hsize_pos Hok) as Hh. pose proof (rsize_pos Hok) as Hrs.
  rewrite (lookup_unfold w _ Hm Hl) by lia.
  rewrite (lookup_mapped_miss w _ Hmiss). cbn zeta.
  replace (Z.of_nat k + 1 - 1) with (Z.of_nat k) by lia.
  rewrite (wrap_small (Z.of_nat k)) by lia.
  pose proof (lookup_lt_Some _ _ _ Hk) as Hlt.
  pose proof Hm as (_ & _ & _ & Hlen).
  assert (Hin : (mmap_length (idx w) - RSIZE <? slot k) = false).
  { apply Z.ltb_ge. rewrite Hlen. nia. }
  rewrite Hin.
  assert (Hdense : (first_hole_position (file_hdr w) =? 0)
                   || (slot k <? first_hole_position (file_hdr w)) = true).
  { destruct Hpos as [Hz | Hltp].
    - rewrite Hz. reflexivity.
    - apply orb_true_iff. right. apply Z.ltb_lt. exact Hltp. }
  rewrite Hdense, (mapped_read w k r Hok Hm Hk). cbn.
  destruct (Z.eqb_spec (uid r) 0); [contradiction|]. reflexivity.
Qed.

(** X1.  A lookup that does not repeat the previous one, for a sequence
    number in front of the hole (or with no hole at all): the record is
    at slot [seq - 1], it is live, and it is the [seq]-th live record. *)
Theorem lookup_before_hole (w : World) (k : nat) (r : MailIndexRecord) :
  PlatformOk -> mapped w -> hole_ok w ->
  lock_type (idx w) <> MAIL_LOCK_UNLOCK ->
  last_lookup (idx w) = None \/ last_lookup_seq (idx w) <> Z.of_nat k + 1 ->
  Z.of_nat k + 1 <= UINT_MAX ->
  file_recs w !! k = Some r ->
  first_hole_position (file_hdr w) = 0
  \/ slot k < first_hole_position (file_hdr w) ->
  mail_index_lookup E E2 w (Z.of_nat k + 1)
    = Done (Some (slot k), remember_lookup (Some (slot k)) (Z.of_nat k + 1) w)
  /\ uid r <> 0
  /\ Z.of_nat (count_live (take k (file_recs w))) + 1 = Z.of_nat k + 1.
Proof.
  intros Hok Hm Hhole Hl Hmiss Hmax Hk Hpos.
  destruct (hole_ok_prefix_live w k r Hok Hhole Hpos Hk) as (Hu & Hcnt).
  split; [|split; [exact Hu | lia]].
  apply (lookup_expected_slot w k r); assumption.
Qed.

(** X2.  The same lookup finding a tombstone at the expected slot: the
    index is marked corrupted and the lookup returns NULL. *)
Theorem lookup_tombstone_detected (w : World) (k : nat) (r : MailIndexRecord) :
  PlatformOk -> mapped w ->
  lock_type (idx w) <> MAIL_LOCK_UNLOCK ->
  last_lookup (idx w) = None \/ last_lookup_seq (idx w) <> Z.of_nat k + 1 ->
  Z.of_nat k + 1 <= UINT_MAX ->
  file_recs w !! k = Some r -> uid r = 0 ->
  first_hole_position (file_hdr w) = 0
  \/ slot k < first_hole_position (file_hdr w) ->
  exists w',
    mail_index_lookup E E2 w (Z.of_nat k + 1) = Done (None, w')
    /\ has_flag (set_flags (idx w')) MAIL_INDEX_FLAG_REBUILD = true
    /\ error (idx w') = Some (msg_hole_not_updated E2)
    /\ last_lookup (idx w') = None
    /\ file_hdr w' = file_hdr w /\ file_recs w' = file_recs w.
Proof.
  intros Hok Hm Hl Hmiss Hmax Hk Hu Hpos.
  pose proof (hsize_pos Hok) as Hh. pose proof (rsize_pos Hok) as Hrs.
  rewrite (lookup_unfold w _ Hm Hl) by lia.
  rewrite (lookup_mapped_miss w _ Hmiss). cbn zeta.
  replace (Z.of_nat k + 1 - 1) with (Z.of_nat k) by lia.
  rewrite (wrap_small (Z.of_nat k)) by lia.
  pose proof (lookup_lt_Some _ _ _ Hk) as Hlt.
  pose proof Hm as (_ & _ & _ & Hlen).
  assert (Hin : (mmap_length (idx w) - RSIZE <? slot k) = false).
  { apply Z.ltb_ge. rewrite Hlen. nia. }
  rewrite Hin.
  assert (Hdense : (first_hole_position (file_hdr w) =? 0)
                   || (slot k <? first_hole_position (file_hdr w)) = true).
  { destruct Hpos as [Hz | Hltp].
    - rewrite Hz. reflexivity.
    - apply orb_true_iff. right. apply Z.ltb_lt. exact Hltp. }
  rewrite Hdense, (mapped_read w k r Hok Hm Hk). cbn.
  rewrite Hu. cbn.
  eexists. split; [reflexivity|]. cbn.
  split; [|repeat split].
  apply has_flag_lor. pose proof (rebuild_bit Hok). lia.
Qed.

(** X3.  A sequence number above the number of slots: NULL, and nothing
    but the lookup cache changes. *)
Theorem lookup_out_of_range (w : World) (seq : Z) :
  PlatformOk -> mapped w ->
  lock_type (idx w) <> MAIL_LOCK_UNLOCK ->
  last_lookup (idx w) = None \/ last_lookup_seq (idx w) <> seq ->
  Z.of_nat (length (file_recs w)) < seq <= UINT_MAX ->
  mail_index_lookup E E2 w seq = Done (None, remember_lookup None seq w).
Proof.
  intros Hok Hm Hl Hmiss Hseq.
  pose proof (hsize_pos Hok) as Hh. pose proof (rsize_pos Hok) as Hrs.
  rewrite (lookup_unfold w _ Hm Hl) by lia.
  rewrite (lookup_mapped_miss w _ Hmiss). cbn zeta.
  rewrite (wrap_small (seq - 1)) by lia.
  pose proof Hm as (_ & _ & _ & Hlen).
  assert (Hout : (mmap_length (idx w) - RSIZE <? HSIZE + (seq - 1) * RSIZE) = true).
  { apply Z.ltb_lt. rewrite Hlen. nia. }
  rewrite Hout. reflexivity.
Qed.

(** Where the walk behind the hole starts when the cache is of no use. *)
Lemma walk_start_after_hole (w : World) (pre hole post : list MailIndexRecord) :
  PlatformOk -> 1 < RSIZE ->
  hole_splits w pre hole post ->
  Z.of_nat (length (file_recs w)) < UINT_MAX ->
  (0 <? first_hole_records (file_hdr w)) = true
  /\ wrap (INDEX_POSITION_INDEX (first_hole_position (file_hdr w) + 1) + 1)
     = Z.of_nat (length pre) + 1
  /\ HSIZE + wrap (Z.of_nat (length pre) + 1 - 1 + first_hole_records (file_hdr w)) * RSIZE
     = slot (length pre + length hole).
Proof.
  intros Hok Hr1 (Hrecs & Hpre & Hhl & Hne & Hfhp & Hfhr) Hmax.
  rewrite Hrecs, !length_app in Hmax.
  assert (Hhpos : (0 < length hole)%nat) by (destruct hole; [congruence | cbn; lia]).
  rewrite Hfhp, Hfhr. unfold INDEX_POSITION_INDEX.
  replace (slot (length pre) + 1 - HSIZE) with (1 + Z.of_nat (length pre) * RSIZE) by lia.
  rewrite Z.div_add by lia. rewrite Z.div_small by lia.
  rewrite !wrap_small by lia.
  split; [apply Z.ltb_lt; lia|]. split; [lia|].
  rewrite Nat2Z.inj_add. lia.
Qed.

(** Behind the hole, with nothing remembered that could shorten it,
    the lookup is the walk from the end of the hole. *)
Lemma lookup_walk_fresh (w : World) (pre hole post : list MailIndexRecord) (seq : Z) :
  PlatformOk -> 1 < RSIZE -> mapped w ->
  hole_splits w pre hole post ->
  lock_type (idx w) <> MAIL_LOCK_UNLOCK ->
  last_lookup (idx w) = None \/ seq < last_lookup_seq (idx w) ->
  Z.of_nat (length (file_recs w)) < UINT_MAX ->
  Z.of_nat (length pre) < seq <= Z.of_nat (length (file_recs w)) ->
  mail_index_lookup E E2 w seq
  = (rec ← seq_walk (S (length (file_recs w))) w (Z.of_nat (length pre) + 1) seq
             (slot (length pre + length hole));
     Done (Some rec, remember_lookup (Some rec) seq w)).
Proof.
  intros Hok Hr1 Hm Hsplit Hl Hmiss Hmax Hseq.
  pose proof (hsize_pos Hok) as Hh. pose proof (rsize_pos Hok) as Hrs.
  destruct (walk_start_after_hole w pre hole post Hok Hr1 Hsplit Hmax)
    as (Hfhr0 & Hseq0 & Hrec0).
  pose proof Hsplit as (Hrecs & Hpre & Hhl & Hne & Hfhp & Hfhr).
  pose proof Hm as (_ & _ & _ & Hlen).
  rewrite (lookup_unfold w _ Hm Hl) by lia.
  rewrite (lookup_mapped_miss w seq) by (destruct Hmiss; [left; assumption | right; lia]).
  cbn zeta.
  rewrite (wrap_small (seq - 1)) by lia.
  assert (Hin : (mmap_length (idx w) - RSIZE <? HSIZE + (seq - 1) * RSIZE) = false).
  { apply Z.ltb_ge. rewrite Hlen. nia. }
  rewrite Hin.
  assert (Hwalk : (first_hole_position (file_hdr w) =? 0)
                  || (HSIZE + (seq - 1) * RSIZE <? first_hole_position (file_hdr w)) = false).
  { apply orb_false_iff. split; [apply Z.eqb_neq | apply Z.ltb_ge]; rewrite Hfhp; nia. }
  rewrite Hwalk.
  rewrite Hfhr0. cbn [i_assert mbind outcome_bind]. rewrite Hseq0, Hrec0.
  assert (Hnlt : last_lookup (idx w) = None
                 \/ (last_lookup_seq (idx w) <? seq) = false).
  { destruct Hmiss as [Hnone | Hlt]; [left; exact Hnone | right].
    apply Z.ltb_ge. lia. }
  assert (Hstart :
    match last_lookup (idx w) with
    | Some p =>
        if last_lookup_seq (idx w) <? seq
        then Done (last_lookup_seq (idx w), p)
        else Done (Z.of_nat (length pre) + 1, slot (length pre + length hole))
    | None => Done (Z.of_nat (length pre) + 1, slot (length pre + length hole))
    end = Done (Z.of_nat (length pre) + 1, slot (length pre + length hole)) :> outcome (Z * Z)).
  { destruct (last_lookup (idx w)) as [p|]; [|reflexivity].
    destruct Hnlt as [Hnone | Hnlt]; [discriminate|]. rewrite Hnlt. reflexivity. }
  rewrite Hstart. cbn [mbind outcome_bind].
  destruct (seq_walk _ _ _ _ _); reflexivity.
Qed.

Lemma hole_splits_length (w : World) (pre hole post : list MailIndexRecord) :
  hole_splits w pre hole post ->
  length (file_recs w) = (length pre + length hole + length post)%nat
  /\ (0 < length hole)%nat.
Proof.
  intros (Hrecs & _ & _ & Hne & _). split.
  - rewrite Hrecs, !length_app. lia.
  - destruct hole; [congruence | cbn; lia].
Qed.

Lemma hole_splits_post (w : World) (pre hole post : list MailIndexRecord) (i : nat) :
  hole_splits w pre hole post ->
  file_recs w !! (length pre + length hole + i)%nat = post !! i.
Proof.
  intros (Hrecs & _). rewrite Hrecs.
  rewrite lookup_app_r by lia. rewrite lookup_app_r by lia.
  f_equal. lia.
Qed.

Lemma post_live_slots (w : World) (pre hole post : list MailIndexRecord) (d : nat) :
  hole_splits w pre hole post -> Forall (fun r => uid r <> 0) post ->
  (d <= length post)%nat ->
  forall i, (length pre + length hole <= i < length pre + length hole + d)%nat ->
            exists r, file_recs w !! i = Some r /\ uid r <> 0.
Proof.
  intros Hsplit Hpost Hd i Hi.
  destruct (lookup_lt_is_Some_2 post (i - (length pre + length hole))%nat) as (ri & Hri); [lia|].
  exists ri. split.
  - replace i with (length pre + length hole + (i - (length pre + length hole)))%nat at 1 by lia.
    rewrite (hole_splits_post w pre hole post _ Hsplit). exact Hri.
  - rewrite Forall_lookup in Hpost. exact (Hpost _ _ Hri).
Qed.

(** Behind a single hole the fresh walk ends [first_hole_records]
    slots behind the expected one. *)
Lemma lookup_behind_hole (w : World) (pre hole post : list MailIndexRecord)
    (j : nat) (r : MailIndexRecord) :
  PlatformOk -> 1 < RSIZE -> mapped w ->
  hole_splits w pre hole post -> Forall (fun r => uid r <> 0) post ->
  lock_type (idx w) <> MAIL_LOCK_UNLOCK ->
  last_lookup (idx w) = None
  \/ Z.of_nat (length pre + 1 + j) < last_lookup_seq (idx w) ->
  Z.of_nat (length (file_recs w)) < UINT_MAX ->
  post !! j = Some r ->
  let seq := Z.of_nat (length pre + 1 + j) in
  let k := (length pre + length hole + j)%nat in
  mail_index_lookup E E2 w seq
    = Done (Some (slot k), remember_lookup (Some (slot k)) seq w)
  /\ file_recs w !! k = Some r.
Proof.
  intros Hok Hr1 Hm Hsplit Hpost Hl Hmiss Hmax Hj seq k.
  destruct (hole_splits_length w pre hole post Hsplit) as (Hlenr & Hhpos).
  pose proof (lookup_lt_Some _ _ _ Hj) as Hjlt.
  split.
  - rewrite (lookup_walk_fresh w pre hole post seq Hok Hr1 Hm Hsplit Hl Hmiss Hmax)
      by (unfold seq; lia).
    replace (S (length (file_recs w))) with (j + S (length (file_recs w) - j))%nat by lia.
    rewrite (seq_walk_live j _ w (Z.of_nat (length pre) + 1) seq (length pre + length hole) Hok Hm);
      [ | | lia | unfold seq; lia | unfold seq; lia ].
    + rewrite seq_walk_stop.
      * reflexivity.
      * apply andb_false_iff. left. apply Z.ltb_ge. unfold seq. lia.
    + apply (post_live_slots w pre hole post j Hsplit Hpost). lia.
  - unfold k. rewrite (hole_splits_post w pre hole post j Hsplit). exact Hj.
Qed.

(** X4.  With one hole and nothing remembered that could shorten the
    walk, a sequence number behind the hole finds the live record that
    lies [first_hole_records] slots further on, which is the [seq]-th
    live record. *)
Theorem lookup_after_hole (w : World) (pre hole post : list MailIndexRecord)
    (j : nat) (r : MailIndexRecord) :
  PlatformOk -> 1 < RSIZE -> mapped w ->
  hole_splits w pre hole post -> Forall (fun r => uid r <> 0) post ->
  lock_type (idx w) <> MAIL_LOCK_UNLOCK ->
  last_lookup (idx w) = None
  \/ Z.of_nat (length pre + 1 + j) < last_lookup_seq (idx w) ->
  Z.of_nat (length (file_recs w)) < UINT_MAX ->
  post !! j = Some r ->
  let seq := Z.of_nat (length pre + 1 + j) in
  let k := (length pre + length hole + j)%nat in
  mail_index_lookup E E2 w seq
    = Done (Some (slot k), remember_lookup (Some (slot k)) seq w)
  /\ file_recs w !! k = Some r /\ uid r <> 0
  /\ Z.of_nat (count_live (take k (file_recs w))) + 1 = seq.
Proof.
  intros Hok Hr1 Hm Hsplit Hpost Hl Hmiss Hmax Hj seq k.
  destruct (lookup_behind_hole w pre hole post j r Hok Hr1 Hm Hsplit Hpost Hl Hmiss Hmax Hj)
    as (Hrun & Hk).
  destruct (hole_splits_length w pre hole post Hsplit) as (Hlenr & Hhpos).
  pose proof Hsplit as (Hrecs & Hpre & Hhl & _).
  pose proof (lookup_lt_Some _ _ _ Hj) as Hjlt.
  split; [exact Hrun|]. split; [exact Hk|]. split.
  - rewrite Forall_lookup in Hpost. exact (Hpost j r Hj).
  - rewrite Hrecs. unfold k, seq.
    rewrite take_app_ge by lia. rewrite take_app_ge by lia.
    unfold count_live. rewrite !count_where_app. fold count_live.
    rewrite (count_live_all pre Hpre), (count_live_none hole Hhl).
    rewrite count_live_all by (apply Forall_take; exact Hpost).
    rewrite length_take. lia.
Qed.

(** X5.  With one hole, and with no lookup remembered or only one of a
    higher sequence number, a sequence number above the number of
    messages but not above the number of slots does not give NULL: the
    walk runs to the end of the mapping and the lookup returns that
    address, where no record is. *)
Theorem lookup_past_last_message (w : World) (pre hole post : list MailIndexRecord)
    (seq : Z) :
  PlatformOk -> 1 < RSIZE -> mapped w ->
  hole_splits w pre hole post -> Forall (fun r => uid r <> 0) post ->
  lock_type (idx w) <> MAIL_LOCK_UNLOCK ->
  last_lookup (idx w) = None \/ seq < last_lookup_seq (idx w) ->
  Z.of_nat (length (file_recs w)) < UINT_MAX ->
  Z.of_nat (count_live (file_recs w)) < seq <= Z.of_nat (length (file_recs w)) ->
  let end_rec := mmap_length (idx w) in
  mail_index_lookup E E2 w seq
    = Done (Some end_rec, remember_lookup (Some end_rec) seq w)
  /\ read_rec (remember_lookup (Some end_rec) seq w) end_rec = WildAccess.
Proof.
  intros Hok Hr1 Hm Hsplit Hpost Hl Hmiss Hmax Hseq end_rec.
  pose proof (hsize_pos Hok) as Hh. pose proof (rsize_pos Hok) as Hrs.
  destruct (hole_splits_length w pre hole post Hsplit) as (Hlenr & Hhpos).
  pose proof Hsplit as (Hrecs & Hpre & Hhl & _).
  pose proof Hm as (_ & _ & _ & Hlen).
  assert (Hcnt : count_live (file_recs w) = (length pre + length post)%nat).
  { rewrite Hrecs. unfold count_live. rewrite !count_where_app. fold count_live.
    rewrite (count_live_all pre Hpre), (count_live_none hole Hhl),
      (count_live_all post Hpost). lia. }
  rewrite Hcnt in Hseq.
  assert (Hend : end_rec = slot (length pre + length hole + length post)).
  { unfold end_rec. rewrite Hlen, Hlenr. reflexivity. }
  split.
  - rewrite (lookup_walk_fresh w pre hole post seq Hok Hr1 Hm Hsplit Hl Hmiss Hmax) by lia.
    replace (S (length (file_recs w)))
      with (length post + S (length (file_recs w) - length post))%nat by lia.
    rewrite (seq_walk_live (length post) _ w (Z.of_nat (length pre) + 1) seq
               (length pre + length hole) Hok Hm); [ | | lia | lia | lia ].
    + rewrite seq_walk_stop.
      * rewrite <- Hend. reflexivity.
      * apply andb_false_iff. right. apply Z.ltb_ge. rewrite <- Hend. unfold end_rec. lia.
    + apply (post_live_slots w pre hole post (length post) Hsplit Hpost). lia.
  - unfold read_rec. cbn [remember_lookup with_idx idx mmap_length ix_last_lookup ix_last_lookup_seq].
    destruct (slot_of end_rec); [|reflexivity].
    assert (Hout : (end_rec + RSIZE <=? mmap_length (idx w)) = false)
      by (apply Z.leb_gt; unfold end_rec; lia).
    unfold remember_lookup. destruct w as [i ? ? ? ?]; destruct i; cbn in *.
    rewrite Hout. reflexivity.
Qed.

(** X6.  The cache leads the walk astray at the hole: after a lookup of
    the last message in front of the hole, the lookup of the next
    sequence number starts at the remembered record, steps once, and
    returns the first tombstone of the hole. *)
Theorem lookup_cached_across_hole (w : World) (pre hole post : list MailIndexRecord) :
  PlatformOk -> mapped w ->
  hole_splits w pre hole post -> pre <> [] ->
  lock_type (idx w) <> MAIL_LOCK_UNLOCK ->
  last_lookup (idx w) = None ->
  Z.of_nat (length (file_recs w)) < UINT_MAX ->
  let n := length pre in
  let w1 := remember_lookup (Some (slot (n - 1))) (Z.of_nat n) w in
  let w2 := remember_lookup (Some (slot n)) (Z.of_nat n + 1) w in
  mail_index_lookup E E2 w (Z.of_nat n) = Done (Some (slot (n - 1)), w1)
  /\ mail_index_lookup E E2 w1 (Z.of_nat n + 1) = Done (Some (slot n), w2)
  /\ exists r, read_rec w2 (slot n) = Done r /\ uid r = 0.
Proof.
  intros Hok Hm Hsplit Hne Hl Hnone Hmax n w1 w2.
  pose proof (hsize_pos Hok) as Hh. pose proof (rsize_pos Hok) as Hrs.
  destruct (hole_splits_length w pre hole post Hsplit) as (Hlenr & Hhpos).
  pose proof Hsplit as (Hrecs & Hpre & Hhl & Hhne & Hfhp & Hfhr).
  pose proof Hm as (_ & _ & _ & Hlen).
  assert (Hn : (0 < n)%nat) by (unfold n; destruct pre; [congruence | cbn; lia]).
  destruct (lookup_lt_is_Some_2 pre (n - 1)%nat) as (r1 & Hr1); [unfold n; lia|].
  assert (Hk1 : file_recs w !! (n - 1)%nat = Some r1).
  { rewrite Hrecs. rewrite lookup_app_l by (unfold n; lia). exact Hr1. }
  assert (Hu1 : uid r1 <> 0).
  { rewrite Forall_lookup in Hpre. exact (Hpre _ _ Hr1). }
  destruct (lookup_lt_is_Some_2 hole 0%nat) as (r0 & Hr0); [lia|].
  assert (Hk0 : file_recs w !! n = Some r0).
  { rewrite Hrecs. rewrite lookup_app_r by (unfold n; lia).
    rewrite lookup_app_l by (unfold n; lia).
    replace (n - length pre)%nat with 0%nat by (unfold n; lia). exact Hr0. }
  assert (Hu0 : uid r0 = 0).
  { rewrite Forall_lookup in Hhl. exact (Hhl _ _ Hr0). }
  split; [|split].
  - pose proof (lookup_expected_slot w (n - 1) r1 Hok Hm Hl (or_introl Hnone)) as Hres.
    replace (Z.of_nat (n - 1) + 1) with (Z.of_nat n) in Hres by lia.
    apply Hres; [lia | exact Hk1 | exact Hu1|].
    right. rewrite Hfhp. fold n. nia.
  - assert (Hm1 : mapped w1) by exact Hm.
    rewrite (lookup_unfold w1 _ Hm1) by (try exact Hl; lia).
    rewrite (lookup_mapped_miss w1) by (right; cbn; lia).
    cbn zeta.
    replace (Z.of_nat n + 1 - 1) with (Z.of_nat n) by lia.
    rewrite (wrap_small (Z.of_nat n)) by lia.
    change (mmap_length (idx w1)) with (mmap_length (idx w)).
    change (file_hdr w1) with (file_hdr w).
    change (file_recs w1) with (file_recs w).
    change (last_lookup (idx w1)) with (Some (slot (n - 1))).
    change (last_lookup_seq (idx w1)) with (Z.of_nat n).
    assert (Hin : (mmap_length (idx w) - RSIZE <? slot n) = false).
    { apply Z.ltb_ge. rewrite Hlen, Hlenr. fold n. nia. }
    rewrite Hin.
    assert (Hwalk : (first_hole_position (file_hdr w) =? 0)
                    || (slot n <? first_hole_position (file_hdr w)) = false).
    { apply orb_false_iff. split; [apply Z.eqb_neq | apply Z.ltb_ge]; rewrite Hfhp; fold n; nia. }
    rewrite Hwalk.
    assert (Hlt : (Z.of_nat n <? Z.of_nat n + 1) = true) by (apply Z.ltb_lt; lia).
    rewrite Hlt. cbn [mbind outcome_bind].
    replace (S (length (file_recs w))) with (1 + length (file_recs w))%nat by lia.
    rewrite (seq_walk_live 1 _ w1 (Z.of_nat n) (Z.of_nat n + 1) (n - 1) Hok Hm1);
      [ | | lia | lia | lia ].
    + replace (n - 1 + 1)%nat with n by lia.
      destruct (length (file_recs w)) as [|len'] eqn:Hlen'; [lia|].
      rewrite seq_walk_stop.
      * reflexivity.
      * apply andb_false_iff. left. apply Z.ltb_ge. lia.
    + intros i Hi. replace i with (n - 1)%nat by lia. exists r1. split; assumption.
  - exists r0. split; [|exact Hu0].
    apply (mapped_read w2 n r0 Hok); [exact Hm | exact Hk0].
Qed.

(** *** mail_index_get_sequence *)

Lemma slot_eqb (j k : nat) :
  0 < RSIZE -> (slot j =? slot k) = bool_decide (j = k).
Proof.
  intros Hrs. destruct (Z.eqb_spec (slot j) (slot k)) as [Heq|Hne].
  - rewrite bool_decide_eq_true_2; [reflexivity|]. nia.
  - rewrite bool_decide_eq_false_2; [reflexivity|]. intros ->. contradiction.
Qed.

(** The counting loop from slot [j] up to slot [j + d]. *)
Lemma seq_count_spec (d : nat) : forall (fuel : nat) (w : World) (seq : Z) (j : nat),
  PlatformOk -> mapped w ->
  (j + d <= length (file_recs w))%nat ->
  0 <= seq -> seq + Z.of_nat d <= UINT_MAX ->
  seq_count (d + S fuel) w seq (slot j) (slot (j + d))
  = Done (seq + Z.of_nat (count_live (take d (drop j (file_recs w))))).
Proof.
  induction d as [|d IH]; intros fuel w seq j Hok Hm Hlen Hseq Hmax.
  - cbn [Nat.add seq_count]. replace (j + 0)%nat with j by lia.
    rewrite Z.eqb_refl, take_0. unfold count_live. cbn [count_where].
    f_equal. change (Z.of_nat 0) with 0. lia.
  - pose proof (rsize_pos Hok) as Hrs.
    cbn [Nat.add seq_count].
    rewrite (slot_eqb j (j + S d) Hrs).
    rewrite bool_decide_eq_false_2 by lia.
    destruct (lookup_lt_is_Some_2 (file_recs w) j) as (r & Hr); [lia|].
    rewrite (mapped_read w j r Hok Hm Hr). cbn [mbind outcome_bind].
    replace (slot j + RSIZE) with (slot (S j)) by lia.
    replace (j + S d)%nat with (S j + d)%nat by lia.
    rewrite (drop_S _ _ _ Hr). cbn [take count_live count_where].
    fold count_live. unfold is_live.
    destruct (Z.eqb_spec (uid r) 0) as [Hz|Hnz]; cbn [negb].
    + rewrite IH; try assumption; try lia. reflexivity.
    + rewrite (wrap_small (seq + 1)) by lia.
      rewrite IH; try assumption; try lia. f_equal. lia.
Qed.

(** The sequence number of a live record that is not the remembered
    one. *)
Lemma get_sequence_rank (w : World) (k : nat) (r : MailIndexRecord) :
  PlatformOk -> mapped w -> hole_ok w ->
  lock_type (idx w) <> MAIL_LOCK_UNLOCK ->
  last_lookup (idx w) <> Some (slot k) ->
  Z.of_nat (length (file_recs w)) < UINT_MAX ->
  file_recs w !! k = Some r -> uid r <> 0 ->
  mail_index_get_sequence w (slot k)
  = Done (Z.of_nat (count_live (take k (file_recs w))) + 1).
Proof.
  intros Hok Hm Hhole Hl Hmiss Hmax Hk Hu.
  pose proof (hsize_pos Hok) as Hh. pose proof (rsize_pos Hok) as Hrs.
  pose proof (lookup_lt_Some _ _ _ Hk) as Hklt.
  unfold mail_index_get_sequence.
  rewrite (lock_eqb_unlock _ Hl). cbn [negb i_assert mbind outcome_bind]. cbn zeta.
  rewrite bool_decide_eq_false_2 by exact Hmiss.
  assert (Hidx : INDEX_POSITION_INDEX (slot k) = Z.of_nat k).
  { unfold INDEX_POSITION_INDEX. replace (slot k - HSIZE) with (Z.of_nat k * RSIZE) by lia.
    apply Z.div_mul. lia. }
  destruct (Z.eqb_spec (first_hole_position (file_hdr w)) 0) as [Hz|Hnz].
  - destruct (hole_ok_prefix_live w k r Hok Hhole (or_introl Hz) Hk) as (_ & Hcnt).
    rewrite Hidx, Hcnt, wrap_small by lia. reflexivity.
  - destruct (Z.ltb_spec (slot k) (first_hole_position (file_hdr w))) as [Hlt|Hge].
    + destruct (hole_ok_prefix_live w k r Hok Hhole (or_intror Hlt) Hk) as (_ & Hcnt).
      rewrite Hidx, Hcnt, wrap_small by lia. reflexivity.
    + destruct Hhole as [(Hz & _) | (pre & hole & post & Hsplit)]; [contradiction|].
      destruct (hole_splits_length w pre hole post Hsplit) as (Hlenr & Hhpos).
      pose proof Hsplit as (Hrecs & Hpre & Hhl & Hhne & Hfhp & Hfhr).
      rewrite Hfhp in Hge.
      assert (Hkp : (length pre <= k)%nat) by nia.
      assert (Hkh : (length pre + length hole <= k)%nat).
      { destruct (Nat.le_gt_cases (length pre + length hole) k) as [Hle|Hgt]; [exact Hle|].
        exfalso. apply Hu.
        rewrite Hrecs in Hk. rewrite lookup_app_r in Hk by lia.
        rewrite lookup_app_l in Hk by lia.
        rewrite Forall_lookup in Hhl. exact (Hhl _ _ Hk). }
      rewrite Hfhp, Hfhr.
      assert (Hidxp : INDEX_POSITION_INDEX (slot (length pre)) = Z.of_nat (length pre)).
      { unfold INDEX_POSITION_INDEX.
        replace (slot (length pre) - HSIZE) with (Z.of_nat (length pre) * RSIZE) by lia.
        apply Z.div_mul. lia. }
      rewrite Hidxp, wrap_small by lia.
      replace (slot (length pre) + Z.of_nat (length hole) * RSIZE)
        with (slot (length pre + length hole)) by lia.
      set (j := (length pre + length hole)%nat) in *.
      replace (slot k) with (slot (j + (k - j))) by (do 3 f_equal; lia).
      replace (S (length (file_recs w)))
        with ((k - j) + S (length (file_recs w) - (k - j)))%nat by lia.
      rewrite seq_count_spec; try assumption; try lia.
      f_equal.
      rewrite <- (take_drop j (file_recs w)) at 2.
      rewrite take_app_ge by (rewrite length_take; lia).
      rewrite length_take. replace (k - j `min` length (file_recs w))%nat with (k - j)%nat by lia.
      unfold count_live at 2. rewrite count_where_app. fold count_live.
      assert (Hcj : count_live (take j (file_recs w)) = length pre).
      { rewrite Hrecs. unfold j. rewrite take_app_ge by lia.
        replace (length pre + length hole - length pre)%nat with (length hole) by lia.
        rewrite take_app_le by lia. rewrite firstn_all.
        unfold count_live. rewrite count_where_app. fold count_live.
        rewrite (count_live_all pre Hpre), (count_live_none hole Hhl). lia. }
      rewrite Hcj. lia.
Qed.

(** X7.  For a live record that is not the remembered one, the
    sequence number returned is one more than the number of live records
    in front of it - also when there are more holes than the one the
    header describes. *)
Theorem get_sequence_counts_live (w : World) (k : nat) (r : MailIndexRecord) :
  PlatformOk -> mapped w -> hole_ok w ->
  lock_type (idx w) <> MAIL_LOCK_UNLOCK ->
  last_lookup (idx w) <> Some (slot k) ->
  Z.of_nat (length (file_recs w)) < UINT_MAX ->
  file_recs w !! k = Some r -> uid r <> 0 ->
  mail_index_get_sequence w (slot k)
  = Done (Z.of_nat (count_live (take k (file_recs w))) + 1).
Proof. apply get_sequence_rank. Qed.

(** *** mail_index_next *)

(** The nearest live record behind slot [k], if there is one. *)
Lemma next_walk_finds (w : World) (k : nat) :
  PlatformOk -> mapped w ->
  lock_type (idx w) <> MAIL_LOCK_UNLOCK ->
  exists res,
    mail_index_next w (Some (slot k)) = Done res
    /\ match res with
       | Some p =>
           exists (j : nat) (r : MailIndexRecord),
             p = slot j /\ (k < j)%nat
             /\ file_recs w !! j = Some r /\ uid r <> 0
             /\ forall i ri, (k < i < j)%nat -> file_recs w !! i = Some ri -> uid ri = 0
       | None =>
           forall i ri, (k < i)%nat -> file_recs w !! i = Some ri -> uid ri = 0
       end.
Proof.
  intros Hok Hm Hl.
  pose proof (hsize_pos Hok) as Hh. pose proof (rsize_pos Hok) as Hrs.
  pose proof Hm as (Hd & _ & _ & Hlen).
  unfold mail_index_next. rewrite Hd, (lock_eqb_unlock _ Hl).
  cbn [negb i_assert mbind outcome_bind].
  replace (slot k + RSIZE) with (slot (S k)) by lia.
  assert (Hgen : forall (n : nat) (j : nat) (fuel : nat),
    (length (file_recs w) - j <= n)%nat -> (n < fuel)%nat ->
    (forall i ri, (k < i < j)%nat -> file_recs w !! i = Some ri -> uid ri = 0) ->
    (k < j)%nat ->
    exists res,
      next_walk fuel w (slot j) = Done res
      /\ match res with
         | Some p =>
             exists (j' : nat) (r : MailIndexRecord),
               p = slot j' /\ (k < j')%nat
               /\ file_recs w !! j' = Some r /\ uid r <> 0
               /\ forall i ri, (k < i < j')%nat -> file_recs w !! i = Some ri -> uid ri = 0
         | None =>
             forall i ri, (k < i)%nat -> file_recs w !! i = Some ri -> uid ri = 0
         end).
  { induction n as [|n IH]; intros j fuel Hn Hfuel Hdead Hkj.
    - destruct fuel as [|fuel]; [lia|]. cbn [next_walk].
      assert (Hout : (slot j <? mmap_length (idx w)) = false)
        by (apply Z.ltb_ge; rewrite Hlen; nia).
      rewrite Hout. exists None. split; [reflexivity|].
      intros i ri Hi Hri. apply lookup_lt_Some in Hri as Hilt.
      apply (Hdead i ri); [lia | exact Hri].
    - destruct fuel as [|fuel]; [lia|]. cbn [next_walk].
      destruct (Z.ltb_spec (slot j) (mmap_length (idx w))) as [Hin|Hout].
      + assert (Hjlt : (j < length (file_recs w))%nat) by (rewrite Hlen in Hin; nia).
        destruct (lookup_lt_is_Some_2 (file_recs w) j Hjlt) as (r & Hr).
        rewrite (mapped_read w j r Hok Hm Hr). cbn [mbind outcome_bind].
        destruct (Z.eqb_spec (uid r) 0) as [Hz|Hnz]; cbn [negb].
        * replace (slot j + RSIZE) with (slot (S j)) by lia.
          apply IH; [lia | lia | | lia].
          intros i ri Hi Hri.
          destruct (decide (i = j)) as [->|Hij].
          -- rewrite Hr in Hri. injection Hri as <-. exact Hz.
          -- apply (Hdead i ri); [lia | exact Hri].
        * exists (Some (slot j)). split; [reflexivity|].
          exists j, r. repeat split; try assumption; lia.
      + exists None. split; [reflexivity|].
        intros i ri Hi Hri. apply lookup_lt_Some in Hri as Hilt.
        rewrite Hlen in Hout.
        apply (Hdead i ri); [nia | exact Hri]. }
  apply (Hgen (length (file_recs w)) (S k) (S (length (file_recs w)))); try lia.
Qed.

(** X8.  [mail_index_next] returns the nearest live record behind
    [rec], stepping over tombstones, and NULL when only tombstones (or
    nothing) follow. *)
Theorem next_skips_tombstones (w : World) (k : nat) :
  PlatformOk -> mapped w ->
  lock_type (idx w) <> MAIL_LOCK_UNLOCK ->
  exists res,
    mail_index_next w (Some (slot k)) = Done res
    /\ match res with
       | Some p =>
           exists (j : nat) (r : MailIndexRecord),
             p = slot j /\ (k < j)%nat
             /\ file_recs w !! j = Some r /\ uid r <> 0
             /\ forall i ri, (k < i < j)%nat -> file_recs w !! i = Some ri -> uid ri = 0
       | None =>
           forall i ri, (k < i)%nat -> file_recs w !! i = Some ri -> uid ri = 0
       end.
Proof. apply next_walk_finds. Qed.

(** *** The counters and the hole under expunge *)

Lemma alter_split {A : Type} (f : A -> A) (l : list A) (k : nat) (x : A) :
  l !! k = Some x -> alter f k l = take k l ++ f x :: drop (S k) l.
Proof.
  revert k. induction l as [|y l IH]; intros [|k] Hk; try discriminate.
  - cbn in Hk. injection Hk as ->. reflexivity.
  - cbn in Hk. cbn. f_equal. apply IH. exact Hk.
Qed.

Lemma count_where_split (p : MailIndexRecord -> bool) (l : list MailIndexRecord)
    (k : nat) (x : MailIndexRecord) :
  l !! k = Some x ->
  count_where p l
  = (count_where p (take k l) + (if p x then 1 else 0) + count_where p (drop (S k) l))%nat.
Proof.
  intros Hk. rewrite <- (take_drop_middle l k x Hk) at 1.
  rewrite count_where_app. cbn [count_where]. destruct (p x); lia.
Qed.

Lemma count_where_alter (p : MailIndexRecord -> bool) (f : MailIndexRecord -> MailIndexRecord)
    (l : list MailIndexRecord) (k : nat) (x : MailIndexRecord) :
  l !! k = Some x ->
  (count_where p (alter f k l) + (if p x then 1 else 0)
   = count_where p l + (if p (f x) then 1 else 0))%nat.
Proof.
  intros Hk. rewrite (alter_split f l k x Hk), (count_where_split p l k x Hk).
  rewrite count_where_app. cbn [count_where]. destruct (p x), (p (f x)); lia.
Qed.

Lemma count_flag_le_live (f : Z) (l : list MailIndexRecord) :
  (count_flag f l <= count_live l)%nat.
Proof.
  induction l as [|r l IH]; cbn; [lia|].
  destruct (is_live r); cbn; [destruct (has_flag _ _)|]; lia.
Qed.

(** What one call of the flag bookkeeping does to the two counters. *)
Lemma mark_flag_counts (w : World) (rec : MailIndexRecord) (old_flags new_flags : Z) :
  let w' := index_mark_flag_changes w rec old_flags new_flags in
  let so := has_flag old_flags MAIL_SEEN in
  let sn := has_flag new_flags MAIL_SEEN in
  let do := has_flag old_flags MAIL_DELETED in
  let dn := has_flag new_flags MAIL_DELETED in
  seen_messages_count (file_hdr w')
  = (if negb so && sn then wrap (seen_messages_count (file_hdr w) + 1)
     else if so && negb sn then wrap (seen_messages_count (file_hdr w) - 1)
     else seen_messages_count (file_hdr w))
  /\ deleted_messages_count (file_hdr w')
     = (if xorb so sn then deleted_messages_count (file_hdr w)
        else if negb do && dn then wrap (deleted_messages_count (file_hdr w) + 1)
        else if do && negb dn then wrap (deleted_messages_count (file_hdr w) - 1)
        else deleted_messages_count (file_hdr w)).
Proof.
  cbn zeta. unfold index_mark_flag_changes. rewrite !has_flag_eq0.
  destruct (has_flag old_flags MAIL_SEEN), (has_flag new_flags MAIL_SEEN),
    (has_flag old_flags MAIL_DELETED), (has_flag new_flags MAIL_DELETED);
    cbn [negb andb xorb];
    repeat match goal with
           | |- context [if ?c then _ else _] => destruct c
           end;
    split; reflexivity.
Qed.

Lemma has_flag_0 (f : Z) : has_flag 0 f = false.
Proof. unfold has_flag. rewrite Z.land_0_l. reflexivity. Qed.

(** The records and the two counters behind "update message counts". *)
Lemma expunge_update_counts_more (w : World) (r : MailIndexRecord) :
  let w' := expunge_update_counts E w r in
  seen_messages_count (file_hdr w')
  = (if has_flag (msg_flags r) MAIL_SEEN
     then wrap (seen_messages_count (file_hdr w) - 1)
     else seen_messages_count (file_hdr w))
  /\ deleted_messages_count (file_hdr w')
     = (if has_flag (msg_flags r) MAIL_SEEN then deleted_messages_count (file_hdr w)
        else if has_flag (msg_flags r) MAIL_DELETED
             then wrap (deleted_messages_count (file_hdr w) - 1)
             else deleted_messages_count (file_hdr w))
  /\ (file_recs w' = file_recs w
      \/ messages_count (file_hdr w') = 0 /\ file_recs w' = [])
  /\ (messages_count (file_hdr w') = 0 ->
      file_recs w' = [] \/ exists evs, trace w' = EvFtruncate HSIZE false :: evs).
Proof.
  cbn zeta. unfold expunge_update_counts.
  set (w0 := with_hdr (fun h => h_messages_count (wrap (messages_count h - 1)) h) w).
  pose proof (mark_flag_counts w0 r (msg_flags r) 0) as Hc. cbn zeta in Hc.
  rewrite !has_flag_0 in Hc.
  pose proof (index_mark_flag_changes_frame w0 r (msg_flags r) 0) as Hf. cbn zeta in Hf.
  destruct Hf as (_ & _ & Hrecs & _).
  set (w1 := index_mark_flag_changes w0 r (msg_flags r) 0) in *.
  destruct Hc as (Hs & Hd).
  assert (Hs' : seen_messages_count (file_hdr w1)
                = (if has_flag (msg_flags r) MAIL_SEEN
                   then wrap (seen_messages_count (file_hdr w) - 1)
                   else seen_messages_count (file_hdr w))).
  { rewrite Hs. destruct (has_flag (msg_flags r) MAIL_SEEN); reflexivity. }
  assert (Hd' : deleted_messages_count (file_hdr w1)
                = (if has_flag (msg_flags r) MAIL_SEEN then deleted_messages_count (file_hdr w)
                   else if has_flag (msg_flags r) MAIL_DELETED
                        then wrap (deleted_messages_count (file_hdr w) - 1)
                        else deleted_messages_count (file_hdr w))).
  { rewrite Hd. destruct (has_flag (msg_flags r) MAIL_SEEN),
      (has_flag (msg_flags r) MAIL_DELETED); reflexivity. }
  clearbody w1.
  destruct (Z.eqb_spec (messages_count (file_hdr w1)) 0) as [Hz|Hnz].
  - unfold mail_index_truncate, ftruncate.
    destruct (env_ftruncate_ok E _ HSIZE) eqn:Hok; cbn.
    + rewrite Hs', Hd'. unfold whole_slots. rewrite Z.sub_diag, Zdiv_0_l. cbn.
      repeat split; try reflexivity.
      * right. split; [exact Hz | reflexivity].
      * intros _. left. reflexivity.
    + rewrite Hs', Hd'. repeat split; try reflexivity.
      * left. exact Hrecs.
      * intros _. right. eexists. reflexivity.
  - cbn. rewrite Hs', Hd'. repeat split; try reflexivity.
    + left. exact Hrecs.
    + intros Hz. contradiction.
Qed.

Lemma same_but_hole_counts (w w' : World) :
  same_but_hole w w' ->
  messages_count (file_hdr w') = messages_count (file_hdr w)
  /\ seen_messages_count (file_hdr w') = seen_messages_count (file_hdr w)
  /\ deleted_messages_count (file_hdr w') = deleted_messages_count (file_hdr w)
  /\ file_recs w' = file_recs w.
Proof.
  intros (_ & _ & Hrecs & _ & Hh).
  pose proof (f_equal messages_count Hh) as H1.
  pose proof (f_equal seen_messages_count Hh) as H2.
  pose proof (f_equal deleted_messages_count Hh) as H3.
  cbn in H1, H2, H3. repeat split; assumption.
Qed.

(** The record count and the flag counts of the records once [r] at slot
    [k] is a tombstone. *)
Lemma count_flag_after_tombstone (f : Z) (l : list MailIndexRecord)
    (k : nat) (r : MailIndexRecord) :
  l !! k = Some r -> uid r <> 0 ->
  (count_flag f (alter (r_uid 0) k l) + (if has_flag (msg_flags r) f then 1 else 0)
   = count_flag f l)%nat.
Proof.
  intros Hk Hu. unfold count_flag.
  pose proof (count_where_alter (fun x => is_live x && has_flag (msg_flags x) f)
                (r_uid 0) l k r Hk) as Hc.
  cbn beta in Hc.
  assert (Hl : is_live r = true).
  { unfold is_live. destruct (Z.eqb_spec (uid r) 0); [contradiction | reflexivity]. }
  change (is_live (r_uid 0 r)) with false in Hc. rewrite Hl in Hc.
  cbn [andb] in Hc. lia.
Qed.

Lemma count_live_after_tombstone (l : list MailIndexRecord) (k : nat) (r : MailIndexRecord) :
  l !! k = Some r -> uid r <> 0 ->
  (count_live (alter (r_uid 0) k l) + 1 = count_live l)%nat.
Proof.
  intros Hk Hu.
  pose proof (count_where_alter is_live (r_uid 0) l k r Hk) as Hc.
  assert (Hl : is_live r = true).
  { unfold is_live. destruct (Z.eqb_spec (uid r) 0); [contradiction | reflexivity]. }
  change (is_live (r_uid 0 r)) with false in Hc. rewrite Hl in Hc.
  unfold count_live. lia.
Qed.

(** X9.  A successful expunge keeps [messages_count] and
    [seen_messages_count] equal to the number of live records and of
    live records with SEEN - whether or not the file is then emptied. *)
Theorem expunge_keeps_counts (w w' : World) (rec seq : Z) (ext : bool) :
  Z.of_nat (length (file_recs w)) <= UINT_MAX ->
  count_ok w -> seen_ok w ->
  mail_index_expunge E w rec seq ext = Done (true, w') ->
  count_ok w' /\ seen_ok w'.
Proof.
  intros Hmax Hcount Hseen Hrun.
  destruct (mail_index_expunge_stages E w w' rec seq ext Hrun)
    as (r & k & w_t & w_mid & _ & Hread & Hu & Hslot & Hrecs_t & Hhdr_t & _ & _ & _ & _
        & Hhole & ->).
  destruct (read_rec_live w rec r Hread Hu) as (k' & Hslot' & _ & Hk).
  rewrite Hslot in Hslot'. injection Hslot' as <-.
  destruct (same_but_hole_counts w_t w_mid (expunge_update_first_hole_frame w_t w_mid rec Hhole))
    as (Hmc & Hsc & _ & Hrecs_mid).
  rewrite Hhdr_t in Hmc, Hsc. rewrite Hrecs_t in Hrecs_mid.
  pose proof (expunge_update_counts_spec E w_mid (r_uid 0 r)) as Hspec. cbn zeta in Hspec.
  destruct Hspec as (_ & Hmc' & _ & _).
  pose proof (expunge_update_counts_more w_mid (r_uid 0 r)) as Hmore. cbn zeta in Hmore.
  destruct Hmore as (Hsc' & _ & Hrecs' & _).
  cbn [r_uid msg_flags] in Hsc'.
  set (w' := expunge_update_counts E w_mid (r_uid 0 r)) in *. clearbody w'.
  pose proof (count_live_after_tombstone (file_recs w) k r Hk Hu) as Hlive.
  pose proof (count_flag_after_tombstone MAIL_SEEN (file_recs w) k r Hk Hu) as Hflag.
  pose proof (count_where_le is_live (file_recs w)) as Hle. fold count_live in Hle.
  pose proof (count_flag_le_live MAIL_SEEN (file_recs w)) as Hfle.
  pose proof (count_flag_le_live MAIL_SEEN (alter (r_uid 0) k (file_recs w))) as Hfle'.
  unfold count_ok, seen_ok in *.
  rewrite Hmc, Hcount in Hmc'. rewrite Hsc, Hseen in Hsc'.
  rewrite wrap_small in Hmc' by lia.
  assert (Hseen' : seen_messages_count (file_hdr w')
                   = Z.of_nat (count_flag MAIL_SEEN (alter (r_uid 0) k (file_recs w)))).
  { rewrite Hsc'. destruct (has_flag (msg_flags r) MAIL_SEEN); cbv iota in Hflag.
    - rewrite wrap_small by lia. lia.
    - lia. }
  destruct Hrecs' as [Hsame | (Hz & Hnil)].
  - rewrite Hsame, Hrecs_mid. split; [lia | exact Hseen'].
  - rewrite Hnil. cbn. split; [exact Hz|].
    rewrite Hseen'. rewrite Hz in Hmc'. lia.
Qed.

(** X10.  [deleted_messages_count] under expunge: it follows the live
    records with DELETED unless the expunged message carried SEEN and
    DELETED together - then the counter is left alone and ends up one
    above the number of live records with DELETED. *)
Theorem expunge_deleted_count (w w' : World) (rec seq : Z) (ext : bool)
    (r : MailIndexRecord) :
  Z.of_nat (length (file_recs w)) <= UINT_MAX ->
  count_ok w -> deleted_ok w ->
  read_rec w rec = Done r ->
  mail_index_expunge E w rec seq ext = Done (true, w') ->
  deleted_messages_count (file_hdr w')
  = Z.of_nat (count_flag MAIL_DELETED (file_recs w'))
    + (if has_flag (msg_flags r) MAIL_SEEN && has_flag (msg_flags r) MAIL_DELETED
       then 1 else 0).
Proof.
  intros Hmax Hcount Hdel Hread0 Hrun.
  destruct (mail_index_expunge_stages E w w' rec seq ext Hrun)
    as (r' & k & w_t & w_mid & _ & Hread & Hu & Hslot & Hrecs_t & Hhdr_t & _ & _ & _ & _
        & Hhole & ->).
  rewrite Hread0 in Hread. injection Hread as <-.
  destruct (read_rec_live w rec r Hread0 Hu) as (k' & Hslot' & _ & Hk).
  rewrite Hslot in Hslot'. injection Hslot' as <-.
  destruct (same_but_hole_counts w_t w_mid (expunge_update_first_hole_frame w_t w_mid rec Hhole))
    as (Hmc & _ & Hdc & Hrecs_mid).
  rewrite Hhdr_t in Hmc, Hdc. rewrite Hrecs_t in Hrecs_mid.
  pose proof (expunge_update_counts_spec E w_mid (r_uid 0 r)) as Hspec. cbn zeta in Hspec.
  destruct Hspec as (_ & Hmc' & _ & _).
  pose proof (expunge_update_counts_more w_mid (r_uid 0 r)) as Hmore. cbn zeta in Hmore.
  destruct Hmore as (_ & Hdc' & Hrecs' & _).
  cbn [r_uid msg_flags] in Hdc'.
  set (w' := expunge_update_counts E w_mid (r_uid 0 r)) in *. clearbody w'.
  pose proof (count_live_after_tombstone (file_recs w) k r Hk Hu) as Hlive.
  pose proof (count_flag_after_tombstone MAIL_DELETED (file_recs w) k r Hk Hu) as Hflag.
  pose proof (count_where_le is_live (file_recs w)) as Hle. fold count_live in Hle.
  pose proof (count_flag_le_live MAIL_DELETED (file_recs w)) as Hfle.
  pose proof (count_flag_le_live MAIL_DELETED (alter (r_uid 0) k (file_recs w))) as Hfle'.
  unfold count_ok, deleted_ok in *.
  rewrite Hmc, Hcount in Hmc'. rewrite Hdc, Hdel in Hdc'.
  rewrite wrap_small in Hmc' by lia.
  assert (Hdel' : deleted_messages_count (file_hdr w')
                  = Z.of_nat (count_flag MAIL_DELETED (alter (r_uid 0) k (file_recs w)))
                    + (if has_flag (msg_flags r) MAIL_SEEN && has_flag (msg_flags r) MAIL_DELETED
                       then 1 else 0)).
  { rewrite Hdc'. destruct (has_flag (msg_flags r) MAIL_SEEN),
      (has_flag (msg_flags r) MAIL_DELETED); cbn [andb]; cbv iota in Hflag;
      try rewrite wrap_small by lia; lia. }
  destruct Hrecs' as [Hsame | (Hz & Hnil)].
  - rewrite Hsame, Hrecs_mid. exact Hdel'.
  - rewrite Hnil. cbn [count_flag count_where]. rewrite Hdel'.
    rewrite Hz in Hmc'. f_equal. lia.
Qed.

Lemma tombstone_run_dead (l : list MailIndexRecord) :
  Forall (fun r => uid r = 0) (take (tombstone_run l) l)
  /\ (tombstone_run l <= length l)%nat.
Proof.
  induction l as [|r l (IH1 & IH2)]; cbn; [split; [constructor | lia]|].
  destruct (Z.eqb_spec (uid r) 0) as [Hz|Hnz]; cbn.
  - split; [constructor; assumption | lia].
  - split; [constructor | lia].
Qed.

Lemma hole_ok_ext (w w2 : World) :
  first_hole_position (file_hdr w2) = first_hole_position (file_hdr w) ->
  first_hole_records (file_hdr w2) = first_hole_records (file_hdr w) ->
  file_recs w2 = file_recs w ->
  hole_ok w -> hole_ok w2.
Proof.
  intros Hp Hn Hr [(Hz & Hall) | (pre & hole & post & Hsplit)].
  - left. rewrite Hp, Hr. split; assumption.
  - right. exists pre, hole, post. unfold hole_splits in *. rewrite Hp, Hn, Hr. exact Hsplit.
Qed.

(** The hole descriptor that "update first hole" computes describes the
    records with the expunged one turned into a tombstone. *)
Lemma hole_after_expunge_ok (w w2 : World) (k : nat) (r : MailIndexRecord) :
  PlatformOk ->
  Z.of_nat (length (file_recs w)) < UINT_MAX ->
  hole_ok w ->
  file_recs w !! k = Some r -> uid r <> 0 ->
  file_recs w2 = alter (r_uid 0) k (file_recs w) ->
  (first_hole_position (file_hdr w2), first_hole_records (file_hdr w2))
  = fst (hole_after_expunge (first_hole_position (file_hdr w))
           (first_hole_records (file_hdr w)) (slot k) (file_recs w2)) ->
  hole_ok w2.
Proof.
  intros Hok Hmax Hhole Hk Hu Hrecs2 Hdesc.
  pose proof (hsize_pos Hok) as Hh. pose proof (rsize_pos Hok) as Hrs.
  pose proof (lookup_lt_Some _ _ _ Hk) as Hklt.
  right. unfold hole_after_expunge in Hdesc.
  destruct Hhole as [(Hz & Hall) | (pre & hole & post & Hsplit)].
  - (* first hole *)
    rewrite Hz in Hdesc. cbn in Hdesc. injection Hdesc as Hp Hn.
    exists (take k (file_recs w)), [r_uid 0 r], (drop (S k) (file_recs w)).
    repeat split.
    + rewrite Hrecs2. apply alter_split. exact Hk.
    + apply Forall_take. exact Hall.
    + constructor; [reflexivity | constructor].
    + discriminate.
    + rewrite Hp, length_take. do 3 f_equal. lia.
    + rewrite Hn. reflexivity.
  - destruct (hole_splits_length w pre hole post Hsplit) as (Hlenr & Hhpos).
    pose proof Hsplit as (Hrecs & Hpre & Hhl & Hhne & Hfhp & Hfhr).
    assert (Hside : (k < length pre)%nat \/ (length pre + length hole <= k)%nat).
    { destruct (Nat.lt_ge_cases k (length pre)) as [Hlt|Hge]; [left; exact Hlt|].
      destruct (Nat.le_gt_cases (length pre + length hole) k) as [Hle|Hgt]; [right; exact Hle|].
      exfalso. apply Hu. rewrite Hrecs in Hk.
      rewrite lookup_app_r in Hk by lia. rewrite lookup_app_l in Hk by lia.
      rewrite Forall_lookup in Hhl. exact (Hhl _ _ Hk). }
    rewrite Hfhp, Hfhr in Hdesc.
    assert (Hnz : (slot (length pre) =? 0) = false) by (apply Z.eqb_neq; nia).
    rewrite Hnz in Hdesc.
    destruct (Z.eqb_spec (slot k + RSIZE) (slot (length pre))) as [Hb|Hnb].
    + (* just in front of the hole *)
      assert (Hkp : S k = length pre) by nia.
      cbn in Hdesc. injection Hdesc as Hp Hn.
      rewrite wrap_small in Hn by lia.
      assert (Hkpre : pre !! k = Some r).
      { rewrite Hrecs in Hk. rewrite lookup_app_l in Hk by lia. exact Hk. }
      exists (take k pre), (r_uid 0 r :: hole), post.
      repeat split.
      * rewrite Hrecs2, Hrecs. rewrite alter_app_l by lia.
        rewrite (alter_split _ pre k r Hkpre).
        rewrite drop_ge by lia. rewrite <- !app_assoc. reflexivity.
      * apply Forall_take. exact Hpre.
      * constructor; [reflexivity | exact Hhl].
      * discriminate.
      * rewrite Hp, length_take. nia.
      * rewrite Hn. cbn [length]. lia.
    + destruct (Z.eqb_spec (slot k) (slot (length pre) + Z.of_nat (length hole) * RSIZE))
        as [Ha|Hna].
      * (* just behind the hole *)
        assert (Hkh : k = (length pre + length hole)%nat) by nia.
        cbn in Hdesc. injection Hdesc as Hp Hn.
        rewrite (wrap_small (Z.of_nat (length hole) + 1)) in Hn by lia.
        assert (Hpost0 : post !! 0%nat = Some r).
        { rewrite <- (hole_splits_post w pre hole post 0 Hsplit).
          replace (length pre + length hole + 0)%nat with k by lia. exact Hk. }
        destruct post as [|r' post0]; [discriminate|].
        cbn in Hpost0. injection Hpost0 as ->.
        assert (Hrecs2' : file_recs w2 = pre ++ hole ++ r_uid 0 r :: post0).
        { rewrite Hrecs2, Hrecs. rewrite alter_app_r_alt by lia.
          rewrite alter_app_r_alt by lia.
          replace (k - length pre - length hole)%nat with 0%nat by lia. reflexivity. }
        assert (Ht : tombstones_at (file_recs w2)
                       (slot (length pre) + (Z.of_nat (length hole) + 1) * RSIZE)
                     = Z.of_nat (tombstone_run post0)).
        { unfold tombstones_at.
          replace (slot (length pre) + (Z.of_nat (length hole) + 1) * RSIZE)
            with (slot (S (length pre + length hole))) by lia.
          rewrite (slot_of_slot_pos _ Hrs). rewrite Hrecs2'.
          rewrite app_assoc.
          replace (S (length pre + length hole)) with (length (pre ++ hole) + 1)%nat
            by (rewrite length_app; lia).
          rewrite <- drop_drop. rewrite drop_app_length. reflexivity. }
        rewrite Ht in Hn.
        destruct (tombstone_run_dead post0) as (Hdead & Hrun).
        cbn [length] in Hlenr.
        rewrite wrap_small in Hn by lia.
        exists pre, (hole ++ r_uid 0 r :: take (tombstone_run post0) post0),
          (drop (tombstone_run post0) post0).
        repeat split.
        -- rewrite Hrecs2'. rewrite <- !app_assoc. cbn [app].
           rewrite take_drop. reflexivity.
        -- exact Hpre.
        -- apply Forall_app. split; [exact Hhl|]. constructor; [reflexivity | exact Hdead].
        -- destruct hole; discriminate.
        -- rewrite Hp. reflexivity.
        -- rewrite Hn, length_app. cbn [length]. rewrite length_take. lia.
      * (* a second hole *)
        cbn in Hdesc. injection Hdesc as Hp Hn.
        destruct Hside as [Hlt|Hge].
        -- assert (Hltp : (slot k <? slot (length pre)) = true) by (apply Z.ltb_lt; nia).
           rewrite Hltp in Hn. rewrite Z.min_r in Hp by nia.
           assert (Hkpre : pre !! k = Some r).
           { rewrite Hrecs in Hk. rewrite lookup_app_l in Hk by lia. exact Hk. }
           exists (take k pre), [r_uid 0 r], (drop (S k) pre ++ hole ++ post).
           repeat split.
           ++ rewrite Hrecs2, Hrecs. rewrite alter_app_l by lia.
              rewrite (alter_split _ pre k r Hkpre).
              rewrite <- !app_assoc. reflexivity.
           ++ apply Forall_take. exact Hpre.
           ++ constructor; [reflexivity | constructor].
           ++ discriminate.
           ++ rewrite Hp, length_take. do 3 f_equal. lia.
           ++ rewrite Hn. reflexivity.
        -- assert (Hltp : (slot k <? slot (length pre)) = false) by (apply Z.ltb_ge; nia).
           rewrite Hltp in Hn. rewrite Z.min_l in Hp by nia.
           exists pre, hole, (alter (r_uid 0) (k - length pre - length hole)%nat post).
           repeat split.
           ++ rewrite Hrecs2, Hrecs. rewrite alter_app_r_alt by lia.
              rewrite alter_app_r_alt by lia. reflexivity.
           ++ exact Hpre.
           ++ exact Hhl.
           ++ exact Hhne.
           ++ rewrite Hp. reflexivity.
           ++ rewrite Hn. reflexivity.
Qed.

(** X11.  A successful expunge keeps the hole descriptor true: after it
    the header again names a run of tombstones with only live records in
    front - except when the last message went and the file could not be
    truncated, which leaves tombstones behind a cleared descriptor. *)
Theorem expunge_keeps_hole (w w' : World) (rec seq : Z) (ext : bool) :
  PlatformOk ->
  mmap_length (idx w) = HSIZE + Z.of_nat (length (file_recs w)) * RSIZE ->
  Z.of_nat (length (file_recs w)) < UINT_MAX ->
  hole_ok w ->
  mail_index_expunge E w rec seq ext = Done (true, w') ->
  hole_ok w'
  \/ (messages_count (file_hdr w') = 0
      /\ exists evs, trace w' = EvFtruncate HSIZE false :: evs).
Proof.
  intros Hok Hlen Hmax Hhole Hrun.
  pose proof (rsize_pos Hok) as Hrs.
  destruct (mail_index_expunge_stages E w w' rec seq ext Hrun)
    as (r & k & w_t & w_mid & _ & Hread & Hu & Hslot & Hrecs_t & Hhdr_t & _ & _ & Hlen_t & _
        & Hstep & ->).
  destruct (read_rec_live w rec r Hread Hu) as (k' & Hslot' & _ & Hk).
  rewrite Hslot in Hslot'. injection Hslot' as <-.
  pose proof (slot_of_inv rec k Hrs Hslot) as ->.
  assert (Hlen_t' : mmap_length (idx w_t)
                    = HSIZE + Z.of_nat (length (file_recs w_t)) * RSIZE).
  { rewrite Hlen_t, Hrecs_t, length_alter. exact Hlen. }
  destruct (expunge_update_first_hole_spec w_t w_mid _ Hrs Hlen_t' Hstep)
    as ((_ & _ & Hrecs_mid & _) & Hdesc).
  rewrite Hhdr_t in Hdesc. rewrite Hrecs_t in Hrecs_mid.
  assert (Hmid : hole_ok w_mid).
  { apply (hole_after_expunge_ok w w_mid k r Hok Hmax Hhole Hk Hu Hrecs_mid).
    rewrite Hrecs_mid, <- Hrecs_t.
    destruct (hole_after_expunge _ _ _ _) as ((p & n) & c).
    injection Hdesc as -> -> _. reflexivity. }
  pose proof (expunge_update_counts_spec E w_mid (r_uid 0 r)) as Hspec. cbn zeta in Hspec.
  destruct Hspec as (_ & _ & Hzero & Hnonzero).
  pose proof (expunge_update_counts_more w_mid (r_uid 0 r)) as Hmore. cbn zeta in Hmore.
  destruct Hmore as (_ & _ & _ & Hzero').
  set (w' := expunge_update_counts E w_mid (r_uid 0 r)) in *. clearbody w'.
  destruct (Z.eq_dec (messages_count (file_hdr w')) 0) as [Hz|Hnz].
  - destruct (Hzero Hz) as (Hp & _). destruct (Hzero' Hz) as [Hnil | Hfail].
    + left. left. split; [exact Hp|]. rewrite Hnil. constructor.
    + right. split; assumption.
  - destruct (Hnonzero Hnz) as (Hp & Hn & _ & _ & Hr).
    left. apply (hole_ok_ext w_mid w' Hp Hn Hr Hmid).
Qed.

(** *** The counters and the hole under append *)

(** What a successful append leaves behind, for a file that ends on a
    slot border. *)
Lemma append_success_inv (w w' : World) (rec : MailIndexRecord) (ref : RecRef) :
  PlatformOk ->
  file_size w = HSIZE + Z.of_nat (length (file_recs w)) * RSIZE ->
  mail_index_append E w rec = Done (true, ref, w') ->
  let new := r_uid (next_uid (file_hdr w)) rec in
  ref = InMapping (file_size w)
  /\ file_recs w' = file_recs w ++ [new]
  /\ mapped w'
  /\ last_lookup (idx w') = last_lookup (idx w)
  /\ last_lookup_seq (idx w') = last_lookup_seq (idx w)
  /\ lock_type (idx w') = MAIL_LOCK_EXCLUSIVE
  /\ messages_count (file_hdr w') = wrap (messages_count (file_hdr w) + 1)
  /\ seen_messages_count (file_hdr w')
     = (if has_flag (msg_flags rec) MAIL_SEEN
        then wrap (seen_messages_count (file_hdr w) + 1)
        else seen_messages_count (file_hdr w))
  /\ deleted_messages_count (file_hdr w')
     = (if has_flag (msg_flags rec) MAIL_SEEN then deleted_messages_count (file_hdr w)
        else if has_flag (msg_flags rec) MAIL_DELETED
             then wrap (deleted_messages_count (file_hdr w) + 1)
             else deleted_messages_count (file_hdr w))
  /\ first_hole_position (file_hdr w') = first_hole_position (file_hdr w)
  /\ first_hole_records (file_hdr w') = first_hole_records (file_hdr w)
  /\ hash (idx w')
     = (m ← hash (idx w); Some (<[next_uid (file_hdr w) := file_size w]> m)).
Proof.
  intros HP Hwf Happ new.
  pose proof (rsize_pos HP) as HR.
  unfold mail_index_append in Happ.
  destruct (lock_type (idx w)) eqn:Hlock; cbn in Happ; try discriminate.
  set (w1 := with_hdr (fun h => h_next_uid (wrap (next_uid h + 1)) h) w) in Happ.
  destruct (env_lseek_ok E w1); cbn in Happ; [|discriminate].
  destruct (env_write_ok E w1); cbn in Happ; [|discriminate].
  fold new in Happ.
  set (w2 := file_write E (file_size w) RSIZE new w1) in Happ.
  set (w3 := index_mark_flag_changes _ new 0 (msg_flags rec)) in Happ.
  assert (Hw2 : file_recs w2 = file_recs w ++ [new] /\ file_size w2 = file_size w + RSIZE
                /\ file_hdr w2 = file_hdr w1 /\ idx w2 = idx w).
  { unfold w2. change (file_size w) with (file_size w1).
    rewrite (file_write_aligned E w1 new HR Hwf). repeat split. }
  destruct Hw2 as (Hrecs2 & Hsize2 & Hhdr2 & Hidx2).
  set (w2' := with_hdr (fun h => h_messages_count (wrap (messages_count h + 1)) h)
                (emit (EvWrite (file_size w) new true) w2)) in *.
  destruct (index_mark_flag_changes_frame w2' new 0 (msg_flags rec))
    as (Hi3 & Hs3 & Hr3 & _ & _ & Hm3 & Hp3 & Hn3 & _).
  destruct (mark_flag_counts w2' new 0 (msg_flags rec)) as (Hsc3 & Hdc3).
  fold w3 in Hi3, Hs3, Hr3, Hm3, Hp3, Hn3, Hsc3, Hdc3.
  rewrite !has_flag_0 in Hsc3, Hdc3. cbn [negb andb xorb] in Hsc3, Hdc3.
  cbn in Hi3, Hs3, Hr3, Hm3, Hp3, Hn3. cbn [w2' with_hdr emit file_hdr h_messages_count
    seen_messages_count deleted_messages_count] in Hsc3, Hdc3.
  rewrite Hhdr2 in Hm3, Hp3, Hn3, Hsc3, Hdc3. cbn in Hm3, Hp3, Hn3, Hsc3, Hdc3.
  rewrite Hidx2 in Hi3.
  assert (Hrest : forall w4,
            lock_type (idx w4) = lock_type (idx w3)
            /\ last_lookup (idx w4) = last_lookup (idx w3)
            /\ last_lookup_seq (idx w4) = last_lookup_seq (idx w3) ->
            file_size w4 = file_size w3 -> file_hdr w4 = file_hdr w3 ->
            file_recs w4 = file_recs w3 ->
            (let '(ok, w5) := mmap_update E (with_idx (ix_dirty_mmap true) w4) in
             if negb ok then Done (false, InBuffer new, w5)
             else Done (true, InMapping (file_size w), w5)) = Done (true, ref, w') ->
            ref = InMapping (file_size w) /\ file_recs w' = file_recs w ++ [new]
            /\ file_hdr w' = file_hdr w3
            /\ mapped w'
            /\ lock_type (idx w') = lock_type (idx w3)
            /\ last_lookup (idx w') = last_lookup (idx w3)
            /\ last_lookup_seq (idx w') = last_lookup_seq (idx w3)
            /\ hash (idx w') = hash (idx w4)).
  { intros w4 (Hl4 & Hc4 & Hq4) Hs4 Hh4 Hr4 Hm.
    destruct (mmap_update E (with_idx (ix_dirty_mmap true) w4)) as [ok w5] eqn:Hmu.
    destruct ok; cbn in Hm; [|discriminate].
    injection Hm as <- <-.
    apply mmap_update_dirty_aligned in Hmu; [|reflexivity|].
    - destruct Hmu as [_ ->]. cbn. rewrite Hr4, Hr3, Hh4, Hs4, Hs3, Hrecs2, Hsize2.
      repeat split; try assumption.
      cbn. rewrite ?Hr4, ?Hr3, ?Hrecs2, Hwf, length_app. cbn [length]. lia.
    - cbn. rewrite Hs4, Hs3, Hsize2, Hwf.
      replace (HSIZE + Z.of_nat (length (file_recs w)) * RSIZE + RSIZE - HSIZE)
        with ((Z.of_nat (length (file_recs w)) + 1) * RSIZE) by lia.
      apply Z.mod_mul. lia. }
  assert (Hfin : ref = InMapping (file_size w) /\ file_recs w' = file_recs w ++ [new]
                 /\ file_hdr w' = file_hdr w3
                 /\ mapped w'
                 /\ lock_type (idx w') = lock_type (idx w3)
                 /\ last_lookup (idx w') = last_lookup (idx w3)
                 /\ last_lookup_seq (idx w') = last_lookup_seq (idx w3)
                 /\ hash (idx w')
                    = (m ← hash (idx w3); Some (<[next_uid (file_hdr w) := file_size w]> m))).
  { destruct (hash (idx w3)) eqn:Hh; cbn in Happ.
    - unfold mail_hash_update in Happ. rewrite Hh in Happ. cbn in Happ.
      eapply Hrest in Happ; cbn; eauto.
    - eapply Hrest in Happ; cbn; eauto. rewrite Hh in Happ. exact Happ. }
  destruct Hfin as (Href & Hrecs & Hhdr & Hmapped & Hl & Hc & Hq & Hhash).
  rewrite Hi3 in Hl, Hc, Hq, Hhash. rewrite Hhdr, Hl.
  repeat split; try assumption; try apply Hmapped.
Qed.

Lemma count_where_snoc (p : MailIndexRecord -> bool) (l : list MailIndexRecord)
    (x : MailIndexRecord) :
  count_where p (l ++ [x]) = (count_where p l + (if p x then 1 else 0))%nat.
Proof. rewrite count_where_app. cbn. destruct (p x); lia. Qed.

(** X12.  A successful append of a record with a uid other than 0 keeps
    the header true to the records: the message and seen counts, the
    hole descriptor, and - unless the new record carries SEEN and
    DELETED together - the deleted count; and it leaves the mapping
    current. *)
Theorem append_keeps_invariants (w w' : World) (rec : MailIndexRecord) (ref : RecRef) :
  PlatformOk ->
  file_size w = HSIZE + Z.of_nat (length (file_recs w)) * RSIZE ->
  Z.of_nat (length (file_recs w)) < UINT_MAX ->
  next_uid (file_hdr w) <> 0 ->
  count_ok w -> seen_ok w -> hole_ok w ->
  mail_index_append E w rec = Done (true, ref, w') ->
  count_ok w' /\ seen_ok w' /\ hole_ok w' /\ mapped w'
  /\ (deleted_ok w ->
      has_flag (msg_flags rec) MAIL_SEEN && has_flag (msg_flags rec) MAIL_DELETED = false ->
      deleted_ok w').
Proof.
  intros Hok Hwf Hmax Hnu Hcount Hseen Hhole Happ.
  destruct (append_success_inv w w' rec ref Hok Hwf Happ)
    as (_ & Hrecs & Hmapped & _ & _ & _ & Hmc & Hsc & Hdc & Hp & Hn & _).
  set (new := r_uid (next_uid (file_hdr w)) rec) in *.
  assert (Hlive : is_live new = true).
  { unfold is_live, new. cbn. destruct (Z.eqb_spec (next_uid (file_hdr w)) 0);
      [contradiction | reflexivity]. }
  pose proof (count_where_le is_live (file_recs w)) as Hle. fold count_live in Hle.
  pose proof (count_flag_le_live MAIL_SEEN (file_recs w)) as Hsle.
  pose proof (count_flag_le_live MAIL_DELETED (file_recs w)) as Hdle.
  unfold count_ok, seen_ok, deleted_ok in *.
  split; [|split; [|split; [|split]]].
  - rewrite Hmc, Hrecs. unfold count_live. rewrite count_where_snoc, Hlive.
    fold count_live. rewrite Hcount, wrap_small by lia. lia.
  - rewrite Hsc, Hrecs. unfold count_flag. rewrite count_where_snoc, Hlive.
    fold (count_flag MAIL_SEEN). cbn [andb new r_uid msg_flags]. rewrite Hseen.
    destruct (has_flag (msg_flags rec) MAIL_SEEN); [rewrite wrap_small by lia|]; lia.
  - destruct Hhole as [(Hz & Hall) | (pre & hole & post & Hsplit)].
    + left. rewrite Hp, Hrecs. split; [exact Hz|].
      apply Forall_app. split; [exact Hall|]. constructor; [exact Hnu | constructor].
    + right. exists pre, hole, (post ++ [new]).
      destruct Hsplit as (Hr & Hpre & Hhl & Hne & Hfhp & Hfhr).
      unfold hole_splits. rewrite Hp, Hn, Hrecs, Hr.
      repeat split; try assumption. rewrite <- !app_assoc. reflexivity.
  - exact Hmapped.
  - intros Hdel Hboth. rewrite Hdc, Hrecs. unfold count_flag.
    rewrite count_where_snoc, Hlive.
    fold (count_flag MAIL_DELETED). cbn [andb new r_uid msg_flags]. rewrite Hdel.
    destruct (has_flag (msg_flags rec) MAIL_SEEN), (has_flag (msg_flags rec) MAIL_DELETED);
      try discriminate; try rewrite wrap_small by lia; lia.
Qed.

(** X13.  Append, then look up: with no hole but the header's, a file
    of whole records, [messages_count] true to the records, a
    [next_uid] other than 0 and no lookup remembered ([last_lookup] is
    NULL), the record just appended is what a lookup of sequence number
    [messages_count] returns. *)
Theorem append_then_lookup (w w' : World) (rec : MailIndexRecord) (ref : RecRef) :
  PlatformOk -> 1 < RSIZE ->
  file_size w = HSIZE + Z.of_nat (length (file_recs w)) * RSIZE ->
  Z.of_nat (length (file_recs w)) + 1 < UINT_MAX ->
  next_uid (file_hdr w) <> 0 ->
  count_ok w -> one_hole w ->
  last_lookup (idx w) = None ->
  mail_index_append E w rec = Done (true, ref, w') ->
  exists w'',
    mail_index_lookup E E2 w' (messages_count (file_hdr w'))
    = Done (Some (file_size w), w'')
    /\ ref = InMapping (file_size w)
    /\ read_rec w'' (file_size w) = Done (r_uid (next_uid (file_hdr w)) rec).
Proof.
  intros Hok Hr1 Hwf Hmax Hnu Hcount Hone Hnone Happ.
  pose proof (hsize_pos Hok) as Hh. pose proof (rsize_pos Hok) as Hrs.
  destruct (append_success_inv w w' rec ref Hok Hwf Happ)
    as (Href & Hrecs & Hmapped & Hc & _ & Hl & Hmc & _ & _ & Hp & Hn & _).
  set (new := r_uid (next_uid (file_hdr w)) rec) in *.
  assert (Hl' : lock_type (idx w') <> MAIL_LOCK_UNLOCK) by (rewrite Hl; discriminate).
  rewrite Hnone in Hc.
  pose proof (count_where_le is_live (file_recs w)) as Hle. fold count_live in Hle.
  unfold count_ok in Hcount. rewrite Hcount, wrap_small in Hmc by lia.
  assert (Hlen' : length (file_recs w') = S (length (file_recs w))).
  { rewrite Hrecs, length_app. cbn. lia. }
  assert (Hnew : file_recs w' !! length (file_recs w) = Some new).
  { rewrite Hrecs. rewrite lookup_app_r by lia. rewrite Nat.sub_diag. reflexivity. }
  assert (Hread : forall res seq,
            read_rec (remember_lookup res seq w') (file_size w) = Done new).
  { intros res seq. rewrite Hwf.
    apply (mapped_read (remember_lookup res seq w') _ new Hok); [exact Hmapped | exact Hnew]. }
  destruct Hone as [(Hz & Hall) | (pre & hole & post & Hsplit & Hpost)].
  - rewrite (count_live_all _ Hall) in Hmc.
    eexists. split; [|split; [exact Href | apply Hread]].
    rewrite Hmc, Hwf.
    apply (lookup_expected_slot w' (length (file_recs w)) new Hok Hmapped Hl'
             (or_introl Hc)); [lia | exact Hnew | exact Hnu |].
    left. rewrite Hp. exact Hz.
  - destruct (hole_splits_length w pre hole post Hsplit) as (Hlenr & Hhpos).
    pose proof Hsplit as (Hr & Hpre & Hhl & Hne & Hfhp & Hfhr).
    assert (Hcnt : count_live (file_recs w) = (length pre + length post)%nat).
    { rewrite Hr. unfold count_live. rewrite !count_where_app. fold count_live.
      rewrite (count_live_all pre Hpre), (count_live_none hole Hhl),
        (count_live_all post Hpost). lia. }
    rewrite Hcnt in Hmc.
    assert (Hsplit' : hole_splits w' pre hole (post ++ [new])).
    { unfold hole_splits. rewrite Hp, Hn, Hrecs, Hr.
      repeat split; try assumption. rewrite <- !app_assoc. reflexivity. }
    assert (Hpost' : Forall (fun r => uid r <> 0) (post ++ [new])).
    { apply Forall_app. split; [exact Hpost|]. constructor; [exact Hnu | constructor]. }
    assert (Hj : (post ++ [new]) !! length post = Some new).
    { rewrite lookup_app_r by lia. rewrite Nat.sub_diag. reflexivity. }
    destruct (lookup_behind_hole w' pre hole (post ++ [new]) (length post) new
                Hok Hr1 Hmapped Hsplit' Hpost' Hl' (or_introl Hc)) as (Hrun & _);
      [lia | exact Hj |].
    eexists. split; [|split; [exact Href | apply Hread]].
    rewrite Hmc, Hwf, Hlenr.
    replace (Z.of_nat (length pre + length post) + 1)
      with (Z.of_nat (length pre + 1 + length post)) by lia.
    exact Hrun.
Qed.

(** *** mail_index_update_flags *)

(** The body of [mail_index_update_flags] for a record that is there. *)
Lemma update_flags_run (w : World) (k : nat) (r : MailIndexRecord)
    (seq new_flags : Z) (ext : bool) :
  PlatformOk -> mapped w ->
  lock_type (idx w) = MAIL_LOCK_EXCLUSIVE -> seq <> 0 ->
  file_recs w !! k = Some r ->
  new_flags <> msg_flags r ->
  let w1 := with_recs (alter (r_msg_flags new_flags) k)
              (index_mark_flag_changes w r (msg_flags r) new_flags) in
  let ok := env_modifylog_add_flags_ok E2 w1 in
  mail_index_update_flags E2 w (slot k) seq new_flags ext
  = Done (ok, emit (ev_modifylog_flags E2 seq (uid r) ext ok) w1).
Proof.
  intros Hok Hm Hl Hseq Hk Hne. cbn zeta.
  pose proof (rsize_pos Hok) as Hrs.
  unfold mail_index_update_flags. rewrite Hl. cbn [lock_eqb i_assert mbind outcome_bind].
  destruct (Z.eqb_spec seq 0) as [|_]; [contradiction|]. cbn [negb mbind outcome_bind].
  rewrite (mapped_read w k r Hok Hm Hk). cbn [mbind outcome_bind].
  destruct (Z.eqb_spec new_flags (msg_flags r)) as [|_]; [contradiction|].
  rewrite (slot_of_slot_pos k Hrs). reflexivity.
Qed.

Lemma count_flag_after_update (f new_flags : Z) (l : list MailIndexRecord)
    (k : nat) (r : MailIndexRecord) :
  l !! k = Some r -> uid r <> 0 ->
  (count_flag f (alter (r_msg_flags new_flags) k l)
   + (if has_flag (msg_flags r) f then 1 else 0)
   = count_flag f l + (if has_flag new_flags f then 1 else 0))%nat.
Proof.
  intros Hk Hu. unfold count_flag.
  pose proof (count_where_alter (fun x => is_live x && has_flag (msg_flags x) f)
                (r_msg_flags new_flags) l k r Hk) as Hc.
  cbn beta in Hc.
  assert (Hl : is_live r = true).
  { unfold is_live. destruct (Z.eqb_spec (uid r) 0); [contradiction | reflexivity]. }
  change (is_live (r_msg_flags new_flags r)) with (is_live r) in Hc.
  change (msg_flags (r_msg_flags new_flags r)) with new_flags in Hc.
  rewrite Hl in Hc. cbn [andb] in Hc. exact Hc.
Qed.

Lemma count_live_after_update (new_flags : Z) (l : list MailIndexRecord) (k : nat) :
  count_live (alter (r_msg_flags new_flags) k l) = count_live l.
Proof.
  revert k. induction l as [|x l IH]; intros [|k]; cbn; try reflexivity.
  - unfold count_live in *. cbn. destruct (is_live x); [f_equal|]; apply IH.
Qed.

(** X14.  Changing the flags of a live message keeps [messages_count]
    and [seen_messages_count] exact, and [deleted_messages_count] too as
    long as the call does not change SEEN as well - whether or not the
    modification log took the entry. *)
Theorem update_flags_keeps_counts (w : World) (k : nat) (r : MailIndexRecord)
    (seq new_flags : Z) (ext : bool) :
  PlatformOk -> mapped w ->
  lock_type (idx w) = MAIL_LOCK_EXCLUSIVE -> seq <> 0 ->
  Z.of_nat (length (file_recs w)) <= UINT_MAX ->
  file_recs w !! k = Some r -> uid r <> 0 ->
  count_ok w -> seen_ok w ->
  exists b w',
    mail_index_update_flags E2 w (slot k) seq new_flags ext = Done (b, w')
    /\ count_ok w' /\ seen_ok w'
    /\ (deleted_ok w ->
        has_flag new_flags MAIL_SEEN = has_flag (msg_flags r) MAIL_SEEN ->
        deleted_ok w').
Proof.
  intros Hok Hm Hl Hseq Hmax Hk Hu Hcount Hseen.
  pose proof (rsize_pos Hok) as Hrs.
  destruct (Z.eq_dec new_flags (msg_flags r)) as [Heq|Hne].
  - exists true, w. split.
    + unfold mail_index_update_flags. rewrite Hl. cbn [lock_eqb i_assert mbind outcome_bind].
      destruct (Z.eqb_spec seq 0) as [|_]; [contradiction|]. cbn [negb mbind outcome_bind].
      rewrite (mapped_read w k r Hok Hm Hk). cbn [mbind outcome_bind].
      rewrite Heq, Z.eqb_refl. reflexivity.
    + repeat split; try assumption. intros Hdel _. exact Hdel.
  - eexists _, _. split; [apply (update_flags_run w k r seq new_flags ext); assumption|].
    destruct (index_mark_flag_changes_frame w r (msg_flags r) new_flags)
      as (_ & _ & Hrecs & _ & _ & Hmc & _).
    destruct (mark_flag_counts w r (msg_flags r) new_flags) as (Hsc & Hdc).
    set (w1 := index_mark_flag_changes w r (msg_flags r) new_flags) in *. clearbody w1.
    pose proof (count_live_after_update new_flags (file_recs w) k) as Hlive.
    pose proof (count_flag_after_update MAIL_SEEN new_flags (file_recs w) k r Hk Hu) as Hfs.
    pose proof (count_flag_after_update MAIL_DELETED new_flags (file_recs w) k r Hk Hu) as Hfd.
    pose proof (count_where_le is_live (file_recs w)) as Hle. fold count_live in Hle.
    pose proof (count_flag_le_live MAIL_SEEN (file_recs w)) as Hsle.
    pose proof (count_flag_le_live MAIL_DELETED (file_recs w)) as Hdle.
    pose proof (count_flag_le_live MAIL_SEEN
                  (alter (r_msg_flags new_flags) k (file_recs w))) as Hsle'.
    pose proof (count_flag_le_live MAIL_DELETED
                  (alter (r_msg_flags new_flags) k (file_recs w))) as Hdle'.
    unfold count_ok, seen_ok, deleted_ok in *.
    cbn [emit with_recs file_hdr file_recs]. rewrite Hrecs.
    split; [|split].
    + rewrite Hmc, Hlive. exact Hcount.
    + rewrite Hsc, Hseen.
      destruct (has_flag (msg_flags r) MAIL_SEEN), (has_flag new_flags MAIL_SEEN);
        cbn [negb andb]; cbv iota in Hfs; try rewrite wrap_small by lia; lia.
    + intros Hdel Hsame. rewrite Hdc, Hdel, Hsame.
      rewrite xorb_nilpotent.
      destruct (has_flag (msg_flags r) MAIL_DELETED), (has_flag new_flags MAIL_DELETED);
        cbn [negb andb]; cbv iota in Hfd; try rewrite wrap_small by lia; lia.
Qed.

(** X15.  The flag change is not taken back when the modification log
    refuses the entry: the call returns FALSE with the new flags stored
    in the record and the counters already moved. *)
Theorem update_flags_log_failure (w : World) (k : nat) (r : MailIndexRecord)
    (seq new_flags : Z) (ext : bool) :
  PlatformOk -> mapped w ->
  lock_type (idx w) = MAIL_LOCK_EXCLUSIVE -> seq <> 0 ->
  file_recs w !! k = Some r ->
  new_flags <> msg_flags r ->
  (forall w1, env_modifylog_add_flags_ok E2 w1 = false) ->
  exists w',
    mail_index_update_flags E2 w (slot k) seq new_flags ext = Done (false, w')
    /\ read_rec w' (slot k) = Done (r_msg_flags new_flags r)
    /\ file_hdr w' = file_hdr (index_mark_flag_changes w r (msg_flags r) new_flags)
    /\ trace w' = ev_modifylog_flags E2 seq (uid r) ext false :: trace w.
Proof.
  intros Hok Hm Hl Hseq Hk Hne Hfail.
  pose proof (update_flags_run w k r seq new_flags ext Hok Hm Hl Hseq Hk Hne) as Hrun.
  cbn zeta in Hrun. rewrite Hfail in Hrun.
  eexists. split; [exact Hrun|].
  destruct (index_mark_flag_changes_frame w r (msg_flags r) new_flags)
    as (Hidx & _ & Hrecs & Htr & _).
  set (w1 := index_mark_flag_changes w r (msg_flags r) new_flags) in *. clearbody w1.
  split; [|split].
  - apply (mapped_read _ k _ Hok).
    + destruct Hm as (Hd & Hb & Hh & Hlen). unfold mapped.
      cbn [emit with_recs idx file_recs]. rewrite Hidx, Hrecs, length_alter.
      repeat split; assumption.
    + cbn [emit with_recs file_recs]. rewrite Hrecs, list_lookup_alter, Hk.
      destruct (decide (k = k)); [reflexivity | contradiction].
  - reflexivity.
  - cbn [emit with_recs trace]. rewrite Htr. reflexivity.
Qed.

(** *** Expunge between lookups *)

(** What an expunge does to the handle: the cache of the last lookup is
    adjusted, the mapping is left as it is. *)
Lemma mail_index_expunge_handle (w w' : World) (rec seq : Z) (ext : bool) :
  mail_index_expunge E w rec seq ext = Done (true, w') ->
  lock_type (idx w') = lock_type (idx w)
  /\ dirty_mmap (idx w') = dirty_mmap (idx w)
  /\ mmap_base (idx w') = mmap_base (idx w)
  /\ header (idx w') = header (idx w)
  /\ mmap_length (idx w') = mmap_length (idx w)
  /\ last_lookup (idx w')
     = (if negb (seq =? 0) && (seq =? last_lookup_seq (idx w))
        then None else last_lookup (idx w))
  /\ last_lookup_seq (idx w')
     = (if negb (seq =? 0) && negb (seq =? last_lookup_seq (idx w))
           && (seq <? last_lookup_seq (idx w))
        then wrap (last_lookup_seq (idx w) - 1) else last_lookup_seq (idx w))
  /\ exists r m, read_rec w rec = Done r /\ hash (idx w) = Some m
                 /\ hash (idx w') = Some (<[uid r := 0]> m).
Proof.
  unfold mail_index_expunge.
  destruct (lock_type (idx w)) eqn:Hlock; cbn; try discriminate.
  destruct (read_rec w rec) as [r| | |] eqn:Hread; cbn; try discriminate.
  destruct (Z.eqb_spec (uid r) 0) as [|Hlive]; cbn; [discriminate|].
  unfold mail_modifylog_add_expunge, mail_hash_update.
  assert (Hrest : forall w_t,
    match expunge_update_first_hole w_t rec with
    | Done w_mid => Done (true, expunge_update_counts E w_mid (r_uid 0 r))
    | AssertFailed => AssertFailed
    | WildAccess => WildAccess
    | OutOfFuel => OutOfFuel
    end = Done (true, w') ->
    lock_type (idx w') = lock_type (idx w_t)
    /\ dirty_mmap (idx w') = dirty_mmap (idx w_t)
    /\ mmap_base (idx w') = mmap_base (idx w_t)
    /\ header (idx w') = header (idx w_t)
    /\ mmap_length (idx w') = mmap_length (idx w_t)
    /\ last_lookup (idx w') = last_lookup (idx w_t)
    /\ last_lookup_seq (idx w') = last_lookup_seq (idx w_t)
    /\ hash (idx w') = hash (idx w_t)).
  { intros w_t Hrun.
    destruct (expunge_update_first_hole w_t rec) as [w_mid| | |] eqn:Hh; try discriminate.
    injection Hrun as <-.
    pose proof (expunge_update_counts_spec E w_mid (r_uid 0 r)) as Hspec. cbn zeta in Hspec.
    destruct Hspec as (-> & _).
    destruct (expunge_update_first_hole_frame w_t w_mid rec Hh) as (Hidx & _).
    pose proof (f_equal lock_type Hidx). pose proof (f_equal dirty_mmap Hidx).
    pose proof (f_equal mmap_base Hidx). pose proof (f_equal header Hidx).
    pose proof (f_equal mmap_length Hidx). pose proof (f_equal last_lookup Hidx).
    pose proof (f_equal last_lookup_seq Hidx). pose proof (f_equal hash Hidx).
    repeat split; assumption. }
  destruct (Z.eqb_spec seq 0) as [Hseq|Hseq]; cbn [negb andb].
  - cbn. destruct (hash (idx w)) as [m|]; cbn; [|discriminate].
    intros Hrun. apply Hrest in Hrun. cbn in Hrun. rewrite Hlock in Hrun.
    destruct Hrun as (H1 & H2 & H3 & H4 & H5 & H6 & H7 & H8).
    repeat split; try assumption. exists r, m. repeat split. exact H8.
  - cbn. destruct (env_modifylog_add_ok E w); cbn; [|discriminate].
    destruct (hash (idx w)) as [m|]; cbn; [|discriminate].
    intros Hrun. apply Hrest in Hrun.
    destruct Hrun as (H1 & H2 & H3 & H4 & H5 & H6 & H7 & H8).
    rewrite H1, H2, H3, H4, H5, H6, H7.
    assert (Hh : exists r0 m0, Done r = Done r0 /\ Some m = Some m0
                               /\ hash (idx w') = Some (<[uid r0 := 0]> m0)).
    { exists r, m. repeat split. rewrite H8.
      destruct (seq =? last_lookup_seq (idx w)); cbn; [reflexivity|].
      destruct (seq <? last_lookup_seq (idx w)); reflexivity. }
    destruct (seq =? last_lookup_seq (idx w)); cbn; [rewrite Hlock; repeat split; exact Hh|].
    destruct (seq <? last_lookup_seq (idx w)); cbn; rewrite Hlock; repeat split; exact Hh.
Qed.

Lemma expunge_update_counts_truncates (w : World) (r : MailIndexRecord) :
  (forall w0 len, env_ftruncate_ok E w0 len = true) ->
  messages_count (file_hdr (expunge_update_counts E w r)) = 0 ->
  file_recs (expunge_update_counts E w r) = []
  /\ file_size (expunge_update_counts E w r) = HSIZE.
Proof.
  intros Hok. unfold expunge_update_counts.
  set (w1 := index_mark_flag_changes _ r (msg_flags r) 0). clearbody w1.
  destruct (Z.eqb_spec (messages_count (file_hdr w1)) 0) as [Hz|Hnz].
  - intros _. unfold mail_index_truncate, ftruncate. rewrite Hok. cbn.
    unfold whole_slots. rewrite Z.sub_diag, Zdiv_0_l. split; reflexivity.
  - cbn. intros Hz. contradiction.
Qed.

(** Reading the first slot of a mapping whose file has no record. *)
Lemma read_rec_empty (w : World) :
  0 < RSIZE -> file_recs w = [] -> file_size w = HSIZE ->
  HSIZE + RSIZE <= mmap_length (idx w) ->
  read_rec w HSIZE
  = if HSIZE + RSIZE <=? page_end HSIZE then Done zero_rec else WildAccess.
Proof.
  intros Hrs Hnil Hsize Hlen. unfold read_rec.
  replace HSIZE with (HSIZE + Z.of_nat 0 * RSIZE) at 1 by lia.
  rewrite (slot_of_slot_pos _ Hrs), Hnil, Hsize.
  destruct (Z.leb_spec (HSIZE + RSIZE) (mmap_length (idx w))); [|lia].
  rewrite Z.leb_refl. reflexivity.
Qed.

(** X16.  The expunge that empties the index truncates the file but
    leaves the mapping at its old length and not marked dirty: the
    next lookup of sequence 1 (with no lookup of that sequence
    remembered) reads the first record slot of the mapping, where the
    file has ended.  If the slot lies in the file's last page it reads
    as zero bytes: the lookup returns NULL, sets the "first_hole_position
    wasn't updated properly" error and asks for a rebuild, though the
    index is merely empty.  If it lies behind that page, the read
    faults. *)
Theorem lookup_after_emptying_expunge (w w' : World) (rec seq : Z) (ext : bool) :
  PlatformOk -> mapped w ->
  (forall w0 len, env_ftruncate_ok E w0 len = true) ->
  mail_index_expunge E w rec seq ext = Done (true, w') ->
  messages_count (file_hdr w') = 0 ->
  last_lookup (idx w') = None \/ last_lookup_seq (idx w') <> 1 ->
  file_size w' = HSIZE
  /\ HSIZE + RSIZE <= mmap_length (idx w')
  /\ dirty_mmap (idx w') = false
  /\ (HSIZE + RSIZE <= page_end HSIZE ->
      exists w'',
        mail_index_lookup E E2 w' 1 = Done (None, w'')
        /\ error (idx w'') = Some (msg_hole_not_updated E2)
        /\ has_flag (set_flags (idx w'')) MAIL_INDEX_FLAG_REBUILD = true
        /\ file_recs w'' = [] /\ messages_count (file_hdr w'') = 0)
  /\ (page_end HSIZE < HSIZE + RSIZE ->
      mail_index_lookup E E2 w' 1 = WildAccess).
Proof.
  intros Hok Hm Htrunc Hrun Hzero Hcache.
  pose proof (hsize_pos Hok) as Hh. pose proof (rsize_pos Hok) as Hrs.
  destruct (mail_index_expunge_handle w w' rec seq ext Hrun)
    as (Hl & Hd & Hb & Hhd & Hlen & _).
  destruct (mail_index_expunge_stages E w w' rec seq ext Hrun)
    as (r & k & w_t & w_mid & Hlock & Hread & Hu & _ & _ & _ & _ & _ & _ & _ & _ & Hw').
  destruct (read_rec_live w rec r Hread Hu) as (k' & Hslot & Hin & Hk).
  pose proof (slot_of_inv rec k' Hrs Hslot) as Hrec.
  pose proof (expunge_update_counts_spec E w_mid (r_uid 0 r)) as Hspec. cbn zeta in Hspec.
  destruct Hspec as (_ & _ & Hz & _).
  pose proof Hzero as Hzero'.
  rewrite Hw' in Hzero.
  destruct (expunge_update_counts_truncates w_mid (r_uid 0 r) Htrunc Hzero) as (Hnil & Hsize).
  destruct (Hz Hzero) as (Hfhp & _).
  rewrite <- Hw' in Hnil, Hsize, Hfhp.
  pose proof Hm as (Hd0 & Hb0 & Hh0 & Hlen0).
  assert (Hm' : dirty_mmap (idx w') = false) by (rewrite Hd; exact Hd0).
  assert (Hlen' : HSIZE + RSIZE <= mmap_length (idx w')) by (rewrite Hlen; nia).
  split; [exact Hsize|]. split; [exact Hlen'|]. split; [exact Hm'|].
  assert (Hrun1 : mail_index_lookup E E2 w' 1
                  = (r0 ← (if HSIZE + RSIZE <=? page_end HSIZE
                           then Done zero_rec else WildAccess);
                     if uid r0 =? 0 then
                       Done (None,
                             remember_lookup None 1
                               (INDEX_MARK_CORRUPTED
                                  (index_set_error (msg_hole_not_updated E2)
                                     (with_idx (fun i => ix_header (mmap_base i) i) w'))))
                     else Done (Some HSIZE,
                                remember_lookup (Some HSIZE) 1
                                  (with_idx (fun i => ix_header (mmap_base i) i) w')))).
  { unfold mail_index_lookup. rewrite Hl, Hlock.
    change (0 <? 1) with true.
    cbn [lock_eqb negb i_assert mbind outcome_bind].
    unfold mmap_update. rewrite Hm'. cbn [negb].
    set (w2 := with_idx _ w').
    rewrite lookup_mapped_miss by exact Hcache. cbn zeta.
    change (file_hdr w2) with (file_hdr w'). rewrite Hfhp.
    change (0 =? 0) with true. cbn [orb].
    change (mmap_length (idx w2)) with (mmap_length (idx w')).
    replace (wrap (1 - 1)) with 0 by reflexivity.
    replace (HSIZE + 0 * RSIZE) with HSIZE by lia.
    assert (Hin' : (mmap_length (idx w') - RSIZE <? HSIZE) = false).
    { apply Z.ltb_ge. lia. }
    rewrite Hin'.
    rewrite (read_rec_empty w2 Hrs Hnil Hsize Hlen').
    destruct (HSIZE + RSIZE <=? page_end HSIZE); reflexivity. }
  split.
  - intros Hpage. apply Z.leb_le in Hpage. rewrite Hpage in Hrun1.
    eexists. split; [exact Hrun1|]. cbn.
    split; [reflexivity|]. split; [|split; [exact Hnil|exact Hzero']].
    apply has_flag_lor. pose proof (rebuild_bit Hok). lia.
  - intros Hpage. apply Z.leb_gt in Hpage. rewrite Hpage in Hrun1. exact Hrun1.
Qed.

(** X17.  Look up, expunge, look up again: in an index without holes,
    once message [seq] is expunged the same sequence number gives the
    message that followed it. *)
Theorem expunge_shifts_sequence (w : World) (k : nat) (r r_next : MailIndexRecord)
    (ext : bool) (m : gmap Z Z) :
  PlatformOk -> 1 < RSIZE -> mapped w ->
  lock_type (idx w) = MAIL_LOCK_EXCLUSIVE ->
  hash (idx w) = Some m ->
  first_hole_position (file_hdr w) = 0 ->
  first_hole_records (file_hdr w) = 0 ->
  Forall (fun r => uid r <> 0) (file_recs w) ->
  count_ok w ->
  Z.of_nat (length (file_recs w)) < UINT_MAX ->
  last_lookup (idx w) = None \/ last_lookup_seq (idx w) <> Z.of_nat k + 1 ->
  file_recs w !! k = Some r -> file_recs w !! S k = Some r_next ->
  (forall w0, env_modifylog_add_ok E w0 = true) ->
  let seq := Z.of_nat k + 1 in
  exists w1 w2 w3,
    mail_index_lookup E E2 w seq = Done (Some (slot k), w1)
    /\ mail_index_expunge E w1 (slot k) seq ext = Done (true, w2)
    /\ mail_index_lookup E E2 w2 seq = Done (Some (slot (S k)), w3)
    /\ read_rec w3 (slot (S k)) = Done r_next.
Proof.
  intros Hok Hr1 Hm Hl Hhash Hfhp Hfhr Hall Hcount Hmax Hmiss Hk Hk1 Hlog seq.
  pose proof (hsize_pos Hok) as Hh. pose proof (rsize_pos Hok) as Hrs.
  pose proof (lookup_lt_Some _ _ _ Hk1) as Hlt.
  pose proof Hm as (Hd0 & Hb0 & Hh0 & Hlen0).
  assert (Hu : uid r <> 0) by (rewrite Forall_lookup in Hall; exact (Hall k r Hk)).
  assert (Hun : uid r_next <> 0) by (rewrite Forall_lookup in Hall; exact (Hall _ _ Hk1)).
  assert (Hl' : lock_type (idx w) <> MAIL_LOCK_UNLOCK) by (rewrite Hl; discriminate).
  set (w1 := remember_lookup (Some (slot k)) seq w).
  assert (Hm1 : mapped w1) by exact Hm.
  (* the expunge returns *)
  destruct (mail_index_expunge_returns E w1 (slot k) seq ext r m Hok Hlen0 Hl
              (mapped_read w1 k r Hok Hm1 Hk) Hu Hhash) as (b & w2 & Hrun & Hb).
  { change (file_hdr w1) with (file_hdr w). rewrite Hfhr. unfold UINT_MAX. lia. }
  rewrite Hlog, orb_true_r in Hb. subst b.
  (* its stages *)
  destruct (mail_index_expunge_handle w1 w2 _ seq ext Hrun)
    as (Hl2 & Hd2 & Hb2 & Hh2 & Hlen2 & Hc2 & _ & _).
  destruct (mail_index_expunge_stages E w1 w2 _ seq ext Hrun)
    as (r' & k' & w_t & w_mid & _ & Hread & _ & Hslot & Hrecs_t & Hhdr_t & _ & _ & Hlen_t & _
        & Hstep & Hw2).
  rewrite (mapped_read w1 k r Hok Hm1 Hk) in Hread. injection Hread as <-.
  rewrite (slot_of_slot_pos k Hrs) in Hslot. injection Hslot as <-.
  change (file_recs w1) with (file_recs w) in Hrecs_t.
  change (file_hdr w1) with (file_hdr w) in Hhdr_t.
  assert (Hlen_t' : mmap_length (idx w_t)
                    = HSIZE + Z.of_nat (length (file_recs w_t)) * RSIZE).
  { rewrite Hlen_t, Hrecs_t, length_alter. exact Hlen0. }
  destruct (expunge_update_first_hole_spec w_t w_mid _ Hrs Hlen_t' Hstep) as (Hsame & Hdesc).
  destruct (same_but_hole_counts w_t w_mid Hsame) as (Hmc & _ & _ & Hrecs_mid).
  rewrite Hhdr_t in Hdesc, Hmc. rewrite Hrecs_t in Hrecs_mid.
  unfold hole_after_expunge in Hdesc. rewrite Hfhp in Hdesc.
  change (0 =? 0) with true in Hdesc. cbn iota beta in Hdesc.
  injection Hdesc as Hp_mid Hn_mid _.
  pose proof (expunge_update_counts_spec E w_mid (r_uid 0 r)) as Hspec. cbn zeta in Hspec.
  destruct Hspec as (_ & Hmc' & _ & Hnonzero).
  rewrite <- Hw2 in Hmc', Hnonzero.
  unfold count_ok in Hcount. rewrite Hmc, Hcount, (count_live_all _ Hall) in Hmc'.
  rewrite wrap_small in Hmc' by lia.
  destruct Hnonzero as (Hp2 & Hn2 & _ & _ & Hrecs2); [lia|].
  rewrite Hp_mid in Hp2. rewrite Hn_mid in Hn2. rewrite Hrecs_mid in Hrecs2.
  (* the world after the expunge *)
  assert (Hm2 : mapped w2).
  { unfold mapped. rewrite Hd2, Hb2, Hh2, Hlen2, Hrecs2, length_alter. exact Hm. }
  assert (Hc2' : last_lookup (idx w2) = None).
  { rewrite Hc2. change (last_lookup_seq (idx w1)) with seq. rewrite Z.eqb_refl.
    destruct (Z.eqb_spec seq 0) as [Hz|_]; [unfold seq in Hz; lia | reflexivity]. }
  assert (Hsplit : hole_splits w2 (take k (file_recs w)) [r_uid 0 r]
                     (drop (S k) (file_recs w))).
  { unfold hole_splits. rewrite Hrecs2, Hp2, Hn2, length_take.
    repeat split.
    - apply alter_split. exact Hk.
    - apply Forall_take. exact Hall.
    - constructor; [reflexivity | constructor].
    - discriminate.
    - do 3 f_equal. lia. }
  assert (Hpost : Forall (fun r => uid r <> 0) (drop (S k) (file_recs w)))
    by (apply Forall_drop; exact Hall).
  assert (Hj : drop (S k) (file_recs w) !! 0%nat = Some r_next).
  { rewrite lookup_drop. rewrite Nat.add_0_r. exact Hk1. }
  destruct (lookup_behind_hole w2 _ _ _ 0 r_next Hok Hr1 Hm2 Hsplit Hpost) as (Hrun3 & Hk3).
  { rewrite Hl2. exact Hl'. }
  { left. exact Hc2'. }
  { rewrite Hrecs2, length_alter. exact Hmax. }
  { exact Hj. }
  rewrite length_take in Hrun3, Hk3. cbn [length] in Hrun3, Hk3.
  replace (k `min` length (file_recs w))%nat with k in Hrun3, Hk3 by lia.
  replace (k + 1 + 0)%nat with (S k) in Hrun3, Hk3 by lia.
  assert (Hseq : seq = Z.of_nat (S k)) by (unfold seq; lia).
  eexists w1, w2, _. split; [|split; [exact Hrun | split]].
  - apply (lookup_expected_slot w k r); try assumption; [lia | left; exact Hfhp].
  - rewrite Hseq. exact Hrun3.
  - apply (mapped_read _ (S k) r_next Hok); [exact Hm2 | exact Hk3].
Qed.

(** *** The uid hash after append and expunge *)

Lemma lookup_uid_single (fuel : nat) (w : World) (u : Z) (m : gmap Z Z) :
  mapped w -> lock_type (idx w) <> MAIL_LOCK_UNLOCK ->
  hash (idx w) = Some m -> 0 < u < UINT_MAX ->
  mail_index_lookup_uid_range E (S (S fuel)) w u u
  = Done (match m !! u with
          | Some pos => if pos =? 0 then None else Some pos
          | None => None
          end, emit (EvHashLookup u) w).
Proof.
  intros Hm Hl Hhash Hu. unfold mail_index_lookup_uid_range.
  rewrite (lock_eqb_unlock _ Hl).
  assert (Hpos : (0 <? u) = true) by (apply Z.ltb_lt; lia).
  rewrite Hpos, Z.ltb_irrefl. cbn [negb andb i_assert mbind outcome_bind].
  rewrite (mapped_mmap_update w Hm). cbn [negb].
  rewrite Z.sub_diag. change (wrap 0 <? 10) with true. cbn iota.
  cbn [probe_loop]. rewrite Z.leb_refl.
  unfold mail_hash_lookup_uid. rewrite Hhash. cbn [mbind outcome_bind].
  assert (Hnext : (wrap (u + 1) <=? u) = false).
  { apply Z.leb_gt. rewrite wrap_small by lia. lia. }
  destruct (m !! u) as [pos|].
  - change (default 0 (Some pos)) with pos.
    destruct (Z.eqb_spec pos 0) as [Hz|Hnz]; cbn [negb].
    + rewrite Hnext. cbn. rewrite Z.eqb_refl. reflexivity.
    + reflexivity.
  - change (default 0 (@None Z)) with 0.
    change (0 =? 0) with true. cbn [negb]. rewrite Hnext. cbn.
    rewrite Z.eqb_refl. reflexivity.
Qed.

(** X18.  Append, then ask for the new uid: the hash has learnt the
    record's offset, and the range lookup for that one uid returns the
    record just appended. *)
Theorem append_then_lookup_uid (fuel : nat) (w w' : World) (rec : MailIndexRecord)
    (ref : RecRef) (m : gmap Z Z) :
  PlatformOk ->
  file_size w = HSIZE + Z.of_nat (length (file_recs w)) * RSIZE ->
  hash (idx w) = Some m ->
  0 < next_uid (file_hdr w) < UINT_MAX ->
  mail_index_append E w rec = Done (true, ref, w') ->
  let u := next_uid (file_hdr w) in
  mail_index_lookup_uid_range E (S (S fuel)) w' u u
  = Done (Some (file_size w), emit (EvHashLookup u) w')
  /\ read_rec w' (file_size w) = Done (r_uid u rec).
Proof.
  intros Hok Hwf Hhash Hu Happ u.
  pose proof (hsize_pos Hok) as Hh. pose proof (rsize_pos Hok) as Hrs.
  destruct (append_success_inv w w' rec ref Hok Hwf Happ)
    as (_ & Hrecs & Hmapped & _ & _ & Hl & _ & _ & _ & _ & _ & Hhash').
  rewrite Hhash in Hhash'. cbn in Hhash'.
  split.
  - rewrite (lookup_uid_single fuel w' u _ Hmapped) by
      (try exact Hhash'; try exact Hu; rewrite Hl; discriminate).
    fold u. rewrite lookup_insert_eq.
    destruct (Z.eqb_spec (file_size w) 0) as [Hz|_]; [nia | reflexivity].
  - rewrite Hwf. apply (mapped_read w' _ _ Hok Hmapped).
    rewrite Hrecs. rewrite lookup_app_r by lia. rewrite Nat.sub_diag. reflexivity.
Qed.

(** X19.  Expunge, then ask for the expunged uid: the hash now maps it
    to 0, and the range lookup for that one uid finds nothing. *)
Theorem expunge_then_lookup_uid (fuel : nat) (w w' : World) (rec seq : Z) (ext : bool)
    (r : MailIndexRecord) :
  mapped w ->
  read_rec w rec = Done r -> 0 < uid r < UINT_MAX ->
  mail_index_expunge E w rec seq ext = Done (true, w') ->
  mail_index_lookup_uid_range E (S (S fuel)) w' (uid r) (uid r)
  = Done (None, emit (EvHashLookup (uid r)) w').
Proof.
  intros Hm Hread Hu Hrun.
  destruct (mail_index_expunge_handle w w' rec seq ext Hrun)
    as (Hl & Hd & Hb & Hh & Hlen & _ & _ & r' & m & Hread' & Hhash & Hhash').
  rewrite Hread in Hread'. injection Hread' as <-.
  destruct (mail_index_expunge_stages E w w' rec seq ext Hrun) as (_ & _ & _ & _ & Hlock & _).
  destruct Hm as (Hd0 & Hb0 & Hh0 & _).
  unfold mail_index_lookup_uid_range.
  rewrite Hl, Hlock.
  assert (Hpos : (0 <? uid r) = true) by (apply Z.ltb_lt; lia).
  rewrite Hpos, Z.ltb_irrefl. cbn [lock_eqb negb andb i_assert mbind outcome_bind].
  assert (Hmu : mmap_update E w' = (true, w')).
  { unfold mmap_update. rewrite Hd, Hd0. cbn [negb]. f_equal.
    rewrite Hb0 in Hb. rewrite Hh0 in Hh. clear -Hb Hh.
    destruct w' as [i ? ? ? ?]. destruct i. cbn in *. subst. reflexivity. }
  rewrite Hmu. cbn [negb].
  rewrite Z.sub_diag. change (wrap 0 <? 10) with true. cbn iota.
  cbn [probe_loop]. rewrite Z.leb_refl.
  unfold mail_hash_lookup_uid. rewrite Hhash'. cbn [mbind outcome_bind].
  rewrite lookup_insert_eq. change (default 0 (Some 0)) with 0.
  change (0 =? 0) with true. cbn [negb].
  assert (Hnext : (wrap (uid r + 1) <=? uid r) = false).
  { apply Z.leb_gt. rewrite wrap_small by lia. lia. }
  rewrite Hnext. cbn. rewrite Z.eqb_refl. reflexivity.
Qed.

(** *** mail_index_lookup_field and the release of the lock *)

Variable MAIL_INDEX_FLAG_CACHE_FIELDS : Z.

(** X20.  A request for a field that neither the record nor the header
    has is noted in [set_cache_fields]; the next release of the
    exclusive lock stores that set as the header's [cache_fields],
    so the fields the header listed before are no longer listed. *)
Theorem lookup_field_request_replaces (fuel : nat) (w : World) (k : nat)
    (r : MailIndexRecord) (field : Z) :
  PlatformOk -> mapped w ->
  lock_type (idx w) = MAIL_LOCK_EXCLUSIVE -> inconsistent (idx w) = false ->
  updating (idx w) = false ->
  file_recs w !! k = Some r ->
  Z.land (cached_fields r) field <> field ->
  Z.land (cache_fields (file_hdr w)) field = 0 ->
  set_cache_fields (idx w) = 0 ->
  has_flag (Z.lor (Z.land (flags (file_hdr w)) (Z.lnot MAIL_INDEX_FLAG_FSCK))
              (set_flags (idx w))) MAIL_INDEX_FLAG_REBUILD = false ->
  (forall w0 l, env_fcntl_ok E w0 l = true) ->
  exists w1 w2,
    mail_index_lookup_field E2 MAIL_INDEX_FLAG_CACHE_FIELDS w (slot k) field
    = Done (None, w1)
    /\ mail_index_set_lock E (S fuel) w1 MAIL_LOCK_UNLOCK = Done (true, w2)
    /\ cache_fields (file_hdr w2) = field
    /\ Z.land (cache_fields (file_hdr w2)) (cache_fields (file_hdr w)) = 0.
Proof.
  intros Hok Hm Hl Hinc Hupd Hk Hrec Hhdr Hset Hnoreb Hfcntl.
  set (w1 := with_idx (fun i => ix_set_cache_fields (Z.lor (set_cache_fields i) field) i) w).
  assert (Hfield : field <> 0).
  { intros ->. apply Hrec. apply Z.land_0_r. }
  assert (Hset1 : set_cache_fields (idx w1) = field).
  { cbn. rewrite Hset. apply Z.lor_0_l. }
  assert (Hrel : released_header w1
                 = h_cache_fields field
                     (h_flags (Z.lor (Z.land (flags (file_hdr w)) (Z.lnot MAIL_INDEX_FLAG_FSCK))
                                 (set_flags (idx w))) (file_hdr w))).
  { unfold released_header. rewrite Hset1.
    destruct (Z.eqb_spec field 0); [contradiction|]. reflexivity. }
  assert (Hmapped1 : header_mapped w1 = true).
  { destruct Hm as (_ & Hb & Hh & Hlen). unfold header_mapped.
    change (idx w1) with (ix_set_cache_fields (Z.lor (set_cache_fields (idx w)) field) (idx w)).
    cbn [header mmap_base mmap_length ix_set_cache_fields]. rewrite Hh, Hb. cbn [andb].
    apply Z.leb_le. rewrite Hlen. pose proof (rsize_pos Hok). nia. }
  destruct (header_mapped_inv w1 Hmapped1) as (Hh1 & Hb1 & _).
  destruct (release_exclusive_spec E w1 Hl Hmapped1)
    as (w_rel & Hrelq & Hhdr_rel & _ & _ & Hidx & _ & _ & _).
  assert (Hlt : lock_type (idx w_rel) = MAIL_LOCK_EXCLUSIVE).
  { apply (f_equal lock_type) in Hidx. cbn in Hidx. rewrite Hidx. exact Hl. }
  pose proof (set_lock_leaves_exclusive E fuel w1 w_rel MAIL_LOCK_UNLOCK Hl Hinc
                ltac:(discriminate) Hrelq Hlt) as Heq.
  rewrite Hfcntl in Heq.
  destruct (set_lock_granted_clean E fuel
              (emit (EvFcntl MAIL_LOCK_UNLOCK true (file_hdr w_rel)) w_rel) MAIL_LOCK_UNLOCK)
    as (w2 & Hrun & _ & Hhdr2 & _).
  { discriminate. }
  { exact Hlt. }
  { cbn. apply (f_equal header) in Hidx. cbn in Hidx. rewrite Hidx. exact Hh1. }
  { cbn. apply (f_equal mmap_base) in Hidx. cbn in Hidx. rewrite Hidx. exact Hb1. }
  { cbn. apply (f_equal updating) in Hidx. cbn in Hidx.
    rewrite Hidx, Hhdr_rel, Hrel. cbn [flags h_cache_fields h_flags].
    rewrite Hupd, Hnoreb. reflexivity. }
  { discriminate. }
  rewrite <- Heq in Hrun. cbn [emit file_hdr] in Hhdr2. rewrite Hhdr_rel in Hhdr2.
  exists w1, w2. split; [|split; [exact Hrun|]].
  - unfold mail_index_lookup_field. rewrite Hl.
    cbn [lock_eqb negb i_assert mbind outcome_bind].
    rewrite (mapped_read w k r Hok Hm Hk). cbn [mbind outcome_bind].
    destruct (Z.eqb_spec (Z.land (cached_fields r) field) field); [contradiction|].
    cbn [negb]. rewrite Hhdr, Z.eqb_refl. reflexivity.
  - rewrite Hhdr2, Hrel. cbn [cache_fields h_cache_fields h_flags].
    split; [reflexivity|]. rewrite Z.land_comm. exact Hhdr.
Qed.

(** *** mail_index_sync_file and the rebuild at release *)

(** X21.  When the hash file or the modification log cannot be synced,
    [mail_index_sync_file] still goes on to [utime] and [fsync], and
    then returns FALSE without having set an error message. *)
Theorem sync_file_silent_failure (w : World) :
  (forall w0, env_data_sync_ok E w0 = true) ->
  (forall w0, env_msync_ok E w0 = true) ->
  (forall w0, env_utime_ok E w0 = true) ->
  (forall w0, env_fsync_ok E w0 = true) ->
  (forall w0, env_hash_sync_ok E w0 = false)
  \/ (forall w0, env_modifylog_sync_ok E w0 = false) ->
  exists w',
    mail_index_sync_file E w = (false, w')
    /\ error (idx w') = error (idx w)
    /\ trace w' = EvFsync true
                  :: (if mmap_base (idx w)
                      then [EvMsync (mmap_length (idx w)) true (file_hdr w)] else [])
                  ++ trace w.
Proof.
  intros Hdata Hmsync Hutime Hfsync Hfail.
  assert (Hfailed : forall w0,
            (if negb (env_modifylog_sync_ok E w0) then true
             else negb (env_hash_sync_ok E w0)) = true).
  { intros w0. destruct Hfail as [Hh | Hl].
    - rewrite Hh. destruct (env_modifylog_sync_ok E w0); reflexivity.
    - rewrite Hl. reflexivity. }
  unfold mail_index_sync_file. rewrite Hdata. cbn [negb].
  unfold msync, fsync.
  destruct (mmap_base (idx w)); rewrite ?Hmsync; cbn [negb];
    rewrite Hutime; cbn [negb]; rewrite Hfsync; cbn [negb]; rewrite Hfailed;
    eexists; (split; [reflexivity|]); split; reflexivity.
Qed.

(** X22.  A rebuild that fails while a lock is being released leaves
    [updating] set: the release returns FALSE, and from then on the
    handle takes locks without ever rebuilding, although the header
    still asks for it. *)
Theorem set_lock_failed_rebuild_sticks (fuel : nat) (w : World) :
  mapped w ->
  lock_type (idx w) = MAIL_LOCK_SHARED ->
  inconsistent (idx w) = false -> updating (idx w) = false ->
  indexid (idx w) = hdr_indexid (file_hdr w) ->
  set_flags (idx w) = 0 -> set_cache_fields (idx w) = 0 ->
  has_flag (flags (file_hdr w)) MAIL_INDEX_FLAG_REBUILD = true ->
  (forall w0 l, env_fcntl_ok E w0 l = true) ->
  (forall w0, env_rebuild E w0 = (false, w0)) ->
  exists w' w'',
    mail_index_set_lock E (S fuel) w MAIL_LOCK_UNLOCK = Done (false, w')
    /\ updating (idx w') = true /\ lock_type (idx w') = MAIL_LOCK_UNLOCK
    /\ mail_index_set_lock E (S fuel) w' MAIL_LOCK_SHARED = Done (true, w'')
    /\ lock_type (idx w'') = MAIL_LOCK_SHARED
    /\ has_flag (flags (file_hdr w'')) MAIL_INDEX_FLAG_REBUILD = true
    /\ trace w'' = EvFcntl MAIL_LOCK_SHARED true (file_hdr w)
                   :: EvFcntl MAIL_LOCK_UNLOCK true (file_hdr w) :: trace w.
Proof.
  intros (Hd & Hb & Hh & Hlen) Hl Hinc Hupd Hid Hsf Hsc Hreb Hfcntl Hrebuild.
  assert (Hhdr : (HSIZE <=? mmap_length (idx w)) = true).
  { apply Z.leb_le. rewrite Hlen. pose proof rsize_nonneg. nia. }
  eexists _, _. split; [|split; [|split; [|split]]].
  - cbn [mail_index_set_lock]. rewrite Hinc, Hl. cbn [lock_eqb negb orb andb i_assert
      mbind outcome_bind]. unfold set_lock_request, fcntl_setlkw. rewrite Hfcntl.
    cbn [negb]. unfold set_lock_granted, set_lock_finish, deref_header, header_mapped.
    cbn [lock_eqb negb orb andb idx with_idx emit lock_type ix_lock_type ix_last_lookup
         file_hdr set_flags set_cache_fields header mmap_base mmap_length].
    rewrite Hl, Hh, Hb, Hhdr, Hsf, Hsc, !Z.lor_0_r, !Z.eqb_refl.
    cbn [lock_eqb negb orb andb mbind outcome_bind].
    cbn [idx with_idx emit header updating ix_lock_type ix_last_lookup file_hdr].
    rewrite Hh, Hupd, Hreb. cbn [negb andb mbind outcome_bind].
    unfold mail_index_rebuild_all. rewrite Hrebuild. cbn [negb]. reflexivity.
  - reflexivity.
  - reflexivity.
  - cbn [mail_index_set_lock].
    cbn [idx with_idx emit inconsistent lock_type updating ix_updating ix_lock_type
         ix_last_lookup].
    rewrite Hinc. cbn [lock_eqb negb orb andb i_assert mbind outcome_bind].
    unfold set_lock_request, fcntl_setlkw. rewrite Hfcntl. cbn [negb lock_eqb].
    unfold set_lock_granted, set_lock_finish. cbn [negb lock_eqb].
    unfold mmap_update at 1.
    cbn [idx with_idx emit dirty_mmap ix_updating ix_lock_type ix_last_lookup].
    rewrite Hd. cbn [negb].
    cbn [idx with_idx emit indexid file_hdr ix_updating ix_lock_type ix_last_lookup
         ix_header].
    rewrite Hid, Z.eqb_refl. cbn [negb lock_eqb mbind outcome_bind].
    cbn [idx with_idx emit header updating ix_updating ix_lock_type ix_last_lookup
         ix_header mmap_base].
    rewrite Hb. cbn [negb andb]. reflexivity.
  - repeat split. exact Hreb.
Qed.

(** *** mail_index_try_lock *)

(** X23.  [mail_index_try_lock] never records the lock it was granted:
    [lock_type] stays as it was, so on a handle that was unlocked the
    operations that need a lock still trip their assertion. *)
Theorem try_lock_records_nothing (w w' : World) (lock : MailLockType) (b : bool)
    (seq : Z) :
  mail_index_try_lock E2 w lock = (b, w') ->
  lock_type (idx w') = lock_type (idx w)
  /\ file_hdr w' = file_hdr w /\ file_recs w' = file_recs w
  /\ (lock_type (idx w) = MAIL_LOCK_UNLOCK ->
      mail_index_lookup E E2 w' seq = AssertFailed).
Proof.
  intros Hrun. unfold mail_index_try_lock in Hrun.
  assert (Hlock : lock_type (idx w') = lock_type (idx w)
                  /\ file_hdr w' = file_hdr w /\ file_recs w' = file_recs w).
  { destruct (lock_eqb (lock_type (idx w)) lock).
    - injection Hrun as _ <-. repeat split.
    - destruct (env_setlk E2 w lock); injection Hrun as _ <-; repeat split. }
  destruct Hlock as (Hlock & Hh & Hr). repeat split; try assumption.
  intros Hun. unfold mail_index_lookup. rewrite Hlock, Hun.
  destruct (0 <? seq); reflexivity.
Qed.

(** *** mmap_update *)

(** X24.  After a successful refresh the mapping holds the header and
    whole records only, and a second refresh changes nothing. *)
Theorem mmap_update_settles (w w1 : World) :
  PlatformOk ->
  dirty_mmap (idx w) = true ->
  mmap_update E w = (true, w1) ->
  HSIZE <= mmap_length (idx w1)
  /\ (mmap_length (idx w1) - HSIZE) mod RSIZE = 0
  /\ mmap_length (idx w1) <= file_size w
  /\ mmap_update E w1 = (true, w1).
Proof.
  intros Hok Hd Hrun.
  pose proof (rsize_pos Hok) as Hrs.
  unfold mmap_update in Hrun. rewrite Hd in Hrun. cbn [negb] in Hrun.
  destruct (env_mmap_ok E w); cbn [negb] in Hrun; [|discriminate].
  cbn [idx with_idx mmap_length ix_mmap_length ix_mmap_base] in Hrun.
  destruct (Z.ltb_spec (file_size w) HSIZE) as [|Hge]; [discriminate|].
  assert (Hmod : 0 <= (file_size w - HSIZE) mod RSIZE < RSIZE)
    by (apply Z.mod_pos_bound; lia).
  assert (Hdiv : file_size w - HSIZE
                 = RSIZE * ((file_size w - HSIZE) / RSIZE) + (file_size w - HSIZE) mod RSIZE)
    by (apply Z.div_mod; lia).
  assert (Hq : 0 <= (file_size w - HSIZE) / RSIZE) by (apply Z.div_pos; lia).
  injection Hrun as <-.
  destruct (Z.eqb_spec ((file_size w - HSIZE) mod RSIZE) 0) as [Hz|Hnz]; cbn [negb].
  - cbn. repeat split; lia.
  - unfold ftruncate. cbn.
    destruct (env_ftruncate_ok E _ _); cbn.
    all: repeat split; try nia.
    all: replace (file_size w - (file_size w - HSIZE) mod RSIZE - HSIZE)
           with (((file_size w - HSIZE) / RSIZE) * RSIZE) by lia;
         apply Z.mod_mul; lia.
Qed.

(** X25.  Sequence numbers and records correspond: with no hole but the
    header's and nothing remembered, the sequence number that
    [mail_index_get_sequence] gives for a live record is the one for
    which [mail_index_lookup] returns that record. *)
Theorem get_sequence_then_lookup (w : World) (k : nat) (r : MailIndexRecord) :
  PlatformOk -> 1 < RSIZE -> mapped w -> one_hole w ->
  lock_type (idx w) <> MAIL_LOCK_UNLOCK ->
  last_lookup (idx w) = None ->
  Z.of_nat (length (file_recs w)) < UINT_MAX ->
  file_recs w !! k = Some r -> uid r <> 0 ->
  exists seq,
    mail_index_get_sequence w (slot k) = Done seq
    /\ mail_index_lookup E E2 w seq
       = Done (Some (slot k), remember_lookup (Some (slot k)) seq w).
Proof.
  intros Hok Hr1 Hm Hone Hl Hnone Hmax Hk Hu.
  pose proof (hsize_pos Hok) as Hh. pose proof (rsize_pos Hok) as Hrs.
  pose proof (lookup_lt_Some _ _ _ Hk) as Hklt.
  assert (Hhole : hole_ok w).
  { destruct Hone as [Hleft | (pre & hole & post & Hsplit & _)];
      [left; exact Hleft | right; exists pre, hole, post; exact Hsplit]. }
  assert (Hmiss : last_lookup (idx w) <> Some (slot k)) by (rewrite Hnone; discriminate).
  exists (Z.of_nat (count_live (take k (file_recs w))) + 1).
  split.
  { apply (get_sequence_rank w k r); assumption. }
  destruct Hone as [(Hz & Hall) | (pre & hole & post & Hsplit & Hpost)].
  - rewrite count_live_all by (apply Forall_take; exact Hall).
    rewrite length_take. replace (k `min` length (file_recs w))%nat with k by lia.
    apply (lookup_expected_slot w k r); try assumption;
      [left; exact Hnone | lia | left; exact Hz].
  - destruct (hole_splits_length w pre hole post Hsplit) as (Hlenr & Hhpos).
    pose proof Hsplit as (Hrecs & Hpre & Hhl & Hhne & Hfhp & Hfhr).
    destruct (Nat.lt_ge_cases k (length pre)) as [Hlt|Hge].
    + rewrite Hrecs. rewrite take_app_le by lia.
      rewrite count_live_all by (apply Forall_take; exact Hpre).
      rewrite length_take. replace (k `min` length pre)%nat with k by lia.
      apply (lookup_expected_slot w k r); try assumption;
        [left; exact Hnone | lia |].
      right. rewrite Hfhp. nia.
    + assert (Hkh : (length pre + length hole <= k)%nat).
      { destruct (Nat.le_gt_cases (length pre + length hole) k) as [Hle|Hgt]; [exact Hle|].
        exfalso. apply Hu. rewrite Hrecs in Hk.
        rewrite lookup_app_r in Hk by lia. rewrite lookup_app_l in Hk by lia.
        rewrite Forall_lookup in Hhl. exact (Hhl _ _ Hk). }
      set (j := (k - length pre - length hole)%nat).
      assert (Hj : post !! j = Some r).
      { rewrite <- (hole_splits_post w pre hole post j Hsplit).
        replace (length pre + length hole + j)%nat with k by (unfold j; lia). exact Hk. }
      assert (Hcnt : count_live (take k (file_recs w)) = (length pre + j)%nat).
      { rewrite Hrecs. rewrite take_app_ge by lia. rewrite take_app_ge by lia.
        unfold count_live. rewrite !count_where_app. fold count_live.
        rewrite (count_live_all pre Hpre), (count_live_none hole Hhl).
        rewrite count_live_all by (apply Forall_take; exact Hpost).
        rewrite length_take. apply lookup_lt_Some in Hj. unfold j in *. lia. }
      rewrite Hcnt.
      destruct (lookup_behind_hole w pre hole post j r Hok Hr1 Hm Hsplit Hpost Hl
                  (or_introl Hnone) Hmax Hj) as (Hrun & _).
      replace (Z.of_nat (length pre + j) + 1) with (Z.of_nat (length pre + 1 + j)) by lia.
      replace k with (length pre + length hole + j)%nat at 1 2 by (unfold j; lia).
      exact Hrun.
Qed.

(** X26.  With no lookup remembered ([last_lookup] is NULL),
    [mail_index_next] advances the sequence number by one: the record
    it returns for a live record has the sequence number that follows,
    by [mail_index_get_sequence] - with any number of holes, as long as
    the header describes the first of them. *)
Theorem next_advances_sequence (w : World) (k : nat) (r : MailIndexRecord) (p : Z) :
  PlatformOk -> mapped w -> hole_ok w ->
  lock_type (idx w) <> MAIL_LOCK_UNLOCK ->
  last_lookup (idx w) = None ->
  Z.of_nat (length (file_recs w)) < UINT_MAX ->
  file_recs w !! k = Some r -> uid r <> 0 ->
  mail_index_next w (Some (slot k)) = Done (Some p) ->
  exists seq,
    mail_index_get_sequence w (slot k) = Done seq
    /\ mail_index_get_sequence w p = Done (seq + 1).
Proof.
  intros Hok Hm Hhole Hl Hnone Hmax Hk Hu Hnext.
  destruct (next_walk_finds w k Hok Hm Hl) as (res & Hrun & Hres).
  rewrite Hnext in Hrun. injection Hrun as <-.
  destruct Hres as (j & rj & -> & Hkj & Hj & Huj & Hdead).
  pose proof (lookup_lt_Some _ _ _ Hj) as Hjlt.
  assert (Hmiss : forall i, last_lookup (idx w) <> Some (slot i))
    by (intros i; rewrite Hnone; discriminate).
  exists (Z.of_nat (count_live (take k (file_recs w))) + 1). split.
  - apply (get_sequence_rank w k r); try assumption. apply Hmiss.
  - rewrite (get_sequence_rank w j rj); try assumption; try apply Hmiss.
    do 2 f_equal.
    assert (Hseg : count_live (take j (file_recs w))
                   = (count_live (take k (file_recs w)) + 1)%nat).
    { replace j with (k + S (j - S k))%nat at 1 by lia.
      rewrite <- take_take_drop. unfold count_live. rewrite count_where_app.
      fold count_live. rewrite (drop_S _ _ _ Hk). cbn [take].
      assert (Hlive : is_live r = true).
      { unfold is_live. destruct (Z.eqb_spec (uid r) 0); [contradiction | reflexivity]. }
      unfold count_live at 2. cbn [count_where]. rewrite Hlive. fold count_live.
      rewrite (count_live_none (take (j - S k) (drop (S k) (file_recs w)))); [lia|].
      apply Forall_lookup. intros i ri Hi.
      rewrite lookup_take_Some in Hi. destruct Hi as (Hi & Hlt).
      rewrite lookup_drop in Hi.
      apply (Hdead (S k + i)%nat ri); [lia | exact Hi]. }
    rewrite Hseg. lia.
Qed.

End SequencesAndCounters.

(** ** The properties above at concrete indexes *)

Lemma lookup_before_hole_witness :
  @mail_index_lookup sample_platform calm_env sample_env2
    (three_messages MAIL_LOCK_SHARED) 2
  = Done (Some 120, remember_lookup (Some 120) 2 (three_messages MAIL_LOCK_SHARED))
  /\ Z.of_nat (count_live (take 1 three_records)) + 1 = 2.
Proof.
  destruct (@lookup_before_hole sample_platform calm_env sample_env2
              (three_messages MAIL_LOCK_SHARED) 1 (mkRecord 2 8 0 10))
    as (Hrun & _ & Hcnt).
  - exact sample_platform_ok.
  - repeat split.
  - left. split; [reflexivity | repeat constructor; discriminate].
  - discriminate.
  - left. reflexivity.
  - cbn. unfold UINT_MAX. lia.
  - reflexivity.
  - left. reflexivity.
  - split; [exact Hrun | exact Hcnt].
Defined.

Lemma lookup_tombstone_detected_witness :
  exists w',
    @mail_index_lookup sample_platform calm_env sample_env2
      (unnoticed_tombstone MAIL_LOCK_SHARED) 2 = Done (None, w')
    /\ has_flag (set_flags (idx w')) (@MAIL_INDEX_FLAG_REBUILD sample_platform) = true.
Proof.
  destruct (@lookup_tombstone_detected sample_platform calm_env sample_env2
              (unnoticed_tombstone MAIL_LOCK_SHARED) 1 (mkRecord 0 8 0 10))
    as (w' & Hrun & Hflag & _).
  - exact sample_platform_ok.
  - repeat split.
  - discriminate.
  - left. reflexivity.
  - cbn. unfold UINT_MAX. lia.
  - reflexivity.
  - reflexivity.
  - left. reflexivity.
  - exists w'. split; [exact Hrun | exact Hflag].
Defined.

Lemma lookup_out_of_range_witness :
  @mail_index_lookup sample_platform calm_env sample_env2
    (three_messages MAIL_LOCK_SHARED) 4
  = Done (None, remember_lookup None 4 (three_messages MAIL_LOCK_SHARED)).
Proof.
  apply (@lookup_out_of_range sample_platform calm_env sample_env2).
  - exact sample_platform_ok.
  - repeat split.
  - discriminate.
  - left. reflexivity.
  - cbn. unfold UINT_MAX. lia.
Defined.

Lemma lookup_after_hole_witness :
  @mail_index_lookup sample_platform calm_env sample_env2
    (holed_messages MAIL_LOCK_SHARED) 2
  = Done (Some 160, remember_lookup (Some 160) 2 (holed_messages MAIL_LOCK_SHARED))
  /\ file_recs (holed_messages MAIL_LOCK_SHARED) !! 2%nat = Some (mkRecord 3 4 0 10).
Proof.
  destruct (@lookup_after_hole sample_platform calm_env sample_env2
              (holed_messages MAIL_LOCK_SHARED)
              [mkRecord 1 0 0 10] [mkRecord 0 8 0 10] [mkRecord 3 4 0 10]
              0 (mkRecord 3 4 0 10))
    as (Hrun & Hk & _).
  - exact sample_platform_ok.
  - cbn. lia.
  - repeat split.
  - repeat split; [repeat constructor; discriminate | repeat constructor | discriminate].
  - repeat constructor; discriminate.
  - discriminate.
  - left. reflexivity.
  - cbn. unfold UINT_MAX. lia.
  - reflexivity.
  - split; [exact Hrun | exact Hk].
Defined.

Lemma lookup_past_last_message_witness :
  @mail_index_lookup sample_platform calm_env sample_env2
    (holed_messages MAIL_LOCK_SHARED) 3
  = Done (Some 200, remember_lookup (Some 200) 3 (holed_messages MAIL_LOCK_SHARED))
  /\ @read_rec sample_platform
       (remember_lookup (Some 200) 3 (holed_messages MAIL_LOCK_SHARED)) 200
     = WildAccess.
Proof.
  apply (@lookup_past_last_message sample_platform calm_env sample_env2
           (holed_messages MAIL_LOCK_SHARED)
           [mkRecord 1 0 0 10] [mkRecord 0 8 0 10] [mkRecord 3 4 0 10] 3).
  - exact sample_platform_ok.
  - cbn. lia.
  - repeat split.
  - repeat split; [repeat constructor; discriminate | repeat constructor | discriminate].
  - repeat constructor; discriminate.
  - discriminate.
  - left. reflexivity.
  - cbn. unfold UINT_MAX. lia.
  - cbn. lia.
Defined.

Lemma lookup_cached_across_hole_witness :
  let w := holed_messages MAIL_LOCK_SHARED in
  @mail_index_lookup sample_platform calm_env sample_env2 w 1
  = Done (Some 80, remember_lookup (Some 80) 1 w)
  /\ @mail_index_lookup sample_platform calm_env sample_env2
       (remember_lookup (Some 80) 1 w) 2
     = Done (Some 120, remember_lookup (Some 120) 2 w)
  /\ exists r, @read_rec sample_platform (remember_lookup (Some 120) 2 w) 120 = Done r
               /\ uid r = 0.
Proof.
  apply (@lookup_cached_across_hole sample_platform calm_env sample_env2
           (holed_messages MAIL_LOCK_SHARED)
           [mkRecord 1 0 0 10] [mkRecord 0 8 0 10] [mkRecord 3 4 0 10]).
  - exact sample_platform_ok.
  - repeat split.
  - repeat split; [repeat constructor; discriminate | repeat constructor | discriminate].
  - discriminate.
  - discriminate.
  - reflexivity.
  - cbn. unfold UINT_MAX. lia.
Defined.

Lemma get_sequence_counts_live_witness :
  @mail_index_get_sequence sample_platform (holed_messages MAIL_LOCK_SHARED) 160
  = Done 2.
Proof.
  apply (@get_sequence_counts_live sample_platform (holed_messages MAIL_LOCK_SHARED)
           2 (mkRecord 3 4 0 10)).
  - exact sample_platform_ok.
  - repeat split.
  - right. exists [mkRecord 1 0 0 10], [mkRecord 0 8 0 10], [mkRecord 3 4 0 10].
    repeat split; [repeat constructor; discriminate | repeat constructor | discriminate].
  - discriminate.
  - discriminate.
  - cbn. unfold UINT_MAX. lia.
  - reflexivity.
  - discriminate.
Defined.

Lemma next_skips_tombstones_witness :
  exists res,
    @mail_index_next sample_platform (holed_messages MAIL_LOCK_SHARED) (Some 80)
    = Done res
    /\ match res with
       | Some p =>
           exists (j : nat) (r : MailIndexRecord),
             p = 80 + Z.of_nat j * 40 /\ (0 < j)%nat
             /\ file_recs (holed_messages MAIL_LOCK_SHARED) !! j = Some r /\ uid r <> 0
             /\ forall i ri, (0 < i < j)%nat ->
                  file_recs (holed_messages MAIL_LOCK_SHARED) !! i = Some ri -> uid ri = 0
       | None =>
           forall i ri, (0 < i)%nat ->
             file_recs (holed_messages MAIL_LOCK_SHARED) !! i = Some ri -> uid ri = 0
       end.
Proof.
  apply (@next_skips_tombstones sample_platform (holed_messages MAIL_LOCK_SHARED) 0).
  - exact sample_platform_ok.
  - repeat split.
  - discriminate.
Defined.

Lemma expunge_keeps_counts_witness :
  exists w',
    @mail_index_expunge sample_platform calm_env (three_messages MAIL_LOCK_EXCLUSIVE)
      120 2 false = Done (true, w')
    /\ count_ok w' /\ @seen_ok sample_platform w'.
Proof.
  eexists. split; [vm_compute; reflexivity|].
  match goal with |- count_ok ?x /\ _ => set (w' := x) end.
  assert (Hrun : @mail_index_expunge sample_platform calm_env
                   (three_messages MAIL_LOCK_EXCLUSIVE) 120 2 false = Done (true, w')).
  { vm_compute. reflexivity. }
  clearbody w'.
  apply (@expunge_keeps_counts sample_platform calm_env
           (three_messages MAIL_LOCK_EXCLUSIVE) w' 120 2 false).
  - cbn. unfold UINT_MAX. lia.
  - reflexivity.
  - reflexivity.
  - exact Hrun.
Defined.

Lemma expunge_deleted_count_witness :
  exists w',
    @mail_index_expunge sample_platform calm_env (seen_deleted_message MAIL_LOCK_EXCLUSIVE)
      80 1 false = Done (true, w')
    /\ deleted_messages_count (file_hdr w')
       = Z.of_nat (count_flag (@MAIL_DELETED sample_platform) (file_recs w')) + 1.
Proof.
  eexists. split; [vm_compute; reflexivity|].
  match goal with |- context [file_hdr ?x] => set (w' := x) end.
  assert (Hrun : @mail_index_expunge sample_platform calm_env
                   (seen_deleted_message MAIL_LOCK_EXCLUSIVE) 80 1 false = Done (true, w')).
  { vm_compute. reflexivity. }
  clearbody w'.
  apply (@expunge_deleted_count sample_platform calm_env
           (seen_deleted_message MAIL_LOCK_EXCLUSIVE) w' 80 1 false (mkRecord 1 12 0 10)).
  - cbn. unfold UINT_MAX. lia.
  - reflexivity.
  - reflexivity.
  - reflexivity.
  - exact Hrun.
Defined.

Lemma expunge_keeps_hole_witness :
  exists w',
    @mail_index_expunge sample_platform calm_env (holed_messages MAIL_LOCK_EXCLUSIVE)
      160 2 false = Done (true, w')
    /\ (@hole_ok sample_platform w'
        \/ (messages_count (file_hdr w') = 0
            /\ exists evs, trace w' = EvFtruncate (@HSIZE sample_platform) false :: evs)).
Proof.
  eexists. split; [vm_compute; reflexivity|].
  match goal with |- hole_ok ?x \/ _ => set (w' := x) end.
  assert (Hrun : @mail_index_expunge sample_platform calm_env
                   (holed_messages MAIL_LOCK_EXCLUSIVE) 160 2 false = Done (true, w')).
  { vm_compute. reflexivity. }
  clearbody w'.
  apply (@expunge_keeps_hole sample_platform calm_env
           (holed_messages MAIL_LOCK_EXCLUSIVE) w' 160 2 false).
  - exact sample_platform_ok.
  - reflexivity.
  - cbn. unfold UINT_MAX. lia.
  - right. exists [mkRecord 1 0 0 10], [mkRecord 0 8 0 10], [mkRecord 3 4 0 10].
    repeat split; [repeat constructor; discriminate | repeat constructor | discriminate].
  - exact Hrun.
Defined.

Lemma append_keeps_invariants_witness :
  exists w',
    @mail_index_append sample_platform calm_env (three_messages MAIL_LOCK_EXCLUSIVE)
      (mkRecord 0 8 0 10) = Done (true, InMapping 200, w')
    /\ count_ok w' /\ @seen_ok sample_platform w' /\ @hole_ok sample_platform w'
    /\ @mapped sample_platform w' /\ @deleted_ok sample_platform w'.
Proof.
  eexists. split; [vm_compute; reflexivity|].
  match goal with |- count_ok ?x /\ _ => set (w' := x) end.
  assert (Hrun : @mail_index_append sample_platform calm_env
                   (three_messages MAIL_LOCK_EXCLUSIVE) (mkRecord 0 8 0 10)
                 = Done (true, InMapping 200, w')).
  { vm_compute. reflexivity. }
  clearbody w'.
  destruct (@append_keeps_invariants sample_platform calm_env
              (three_messages MAIL_LOCK_EXCLUSIVE) w' (mkRecord 0 8 0 10) (InMapping 200))
    as (Hc & Hs & Hh & Hm & Hd).
  - exact sample_platform_ok.
  - reflexivity.
  - cbn. unfold UINT_MAX. lia.
  - discriminate.
  - reflexivity.
  - reflexivity.
  - left. split; [reflexivity | repeat constructor; discriminate].
  - exact Hrun.
  - repeat split; try assumption; try apply Hm. apply Hd; reflexivity.
Defined.

Lemma append_then_lookup_witness :
  exists w' w'',
    @mail_index_append sample_platform calm_env (holed_messages MAIL_LOCK_EXCLUSIVE)
      (mkRecord 0 8 0 10) = Done (true, InMapping 200, w')
    /\ @mail_index_lookup sample_platform calm_env sample_env2 w'
         (messages_count (file_hdr w')) = Done (Some 200, w'')
    /\ @read_rec sample_platform w'' 200 = Done (mkRecord 4 8 0 10).
Proof.
  eexists.
  match goal with |- exists w'', ?a = Done (_, _, ?x) /\ _ => set (w' := x) end.
  assert (Hrun : @mail_index_append sample_platform calm_env
                   (holed_messages MAIL_LOCK_EXCLUSIVE) (mkRecord 0 8 0 10)
                 = Done (true, InMapping 200, w')).
  { unfold w'. vm_compute. reflexivity. }
  destruct (@append_then_lookup sample_platform calm_env sample_env2
              (holed_messages MAIL_LOCK_EXCLUSIVE) w' (mkRecord 0 8 0 10) (InMapping 200))
    as (w'' & Hlook & _ & Hread).
  - exact sample_platform_ok.
  - cbn. lia.
  - reflexivity.
  - cbn. unfold UINT_MAX. lia.
  - discriminate.
  - reflexivity.
  - right. exists [mkRecord 1 0 0 10], [mkRecord 0 8 0 10], [mkRecord 3 4 0 10].
    split; [|repeat constructor; discriminate].
    repeat split; [repeat constructor; discriminate | repeat constructor | discriminate].
  - reflexivity.
  - exact Hrun.
  - exists w''. split; [exact Hrun|]. split; [exact Hlook | exact Hread].
Defined.

Lemma update_flags_keeps_counts_witness :
  exists b w',
    @mail_index_update_flags sample_platform sample_env2
      (three_messages MAIL_LOCK_EXCLUSIVE) 80 1 4 false = Done (b, w')
    /\ count_ok w' /\ @seen_ok sample_platform w' /\ @deleted_ok sample_platform w'.
Proof.
  destruct (@update_flags_keeps_counts sample_platform sample_env2
              (three_messages MAIL_LOCK_EXCLUSIVE) 0 (mkRecord 1 0 0 10) 1 4 false)
    as (b & w' & Hrun & Hc & Hs & Hd).
  - exact sample_platform_ok.
  - repeat split.
  - reflexivity.
  - discriminate.
  - cbn. unfold UINT_MAX. lia.
  - reflexivity.
  - discriminate.
  - reflexivity.
  - reflexivity.
  - exists b, w'. split; [exact Hrun|]. split; [exact Hc|]. split; [exact Hs|].
    apply Hd; reflexivity.
Defined.

Lemma update_flags_log_failure_witness :
  exists w',
    @mail_index_update_flags sample_platform deaf_log_env2
      (three_messages MAIL_LOCK_EXCLUSIVE) 80 1 8 false = Done (false, w')
    /\ @read_rec sample_platform w' 80 = Done (mkRecord 1 8 0 10)
    /\ seen_messages_count (file_hdr w') = 2.
Proof.
  destruct (@update_flags_log_failure sample_platform deaf_log_env2
              (three_messages MAIL_LOCK_EXCLUSIVE) 0 (mkRecord 1 0 0 10) 1 8 false)
    as (w' & Hrun & Hread & Hhdr & _).
  - exact sample_platform_ok.
  - repeat split.
  - reflexivity.
  - discriminate.
  - reflexivity.
  - discriminate.
  - intros w1. reflexivity.
  - exists w'. split; [exact Hrun|]. split; [exact Hread|]. rewrite Hhdr. reflexivity.
Defined.

Lemma lookup_after_emptying_expunge_witness :
  exists w' w'',
    @mail_index_expunge sample_platform calm_env (one_message MAIL_LOCK_EXCLUSIVE)
      80 1 false = Done (true, w')
    /\ file_size w' = 80 /\ mmap_length (idx w') = 120
    /\ @mail_index_lookup sample_platform calm_env sample_env2 w' 1 = Done (None, w'')
    /\ error (idx w'') = Some (msg_hole_not_updated sample_env2)
    /\ has_flag (set_flags (idx w'')) (@MAIL_INDEX_FLAG_REBUILD sample_platform) = true.
Proof.
  assert (Hex : exists w', @mail_index_expunge sample_platform calm_env
                   (one_message MAIL_LOCK_EXCLUSIVE) 80 1 false = Done (true, w')
                   /\ mmap_length (idx w') = 120
                   /\ messages_count (file_hdr w') = 0
                   /\ last_lookup (idx w') = None).
  { eexists. split; [vm_compute; reflexivity|]. repeat split. }
  destruct Hex as (w' & Hrun & Hlen & Hzero & Hcache).
  destruct (@lookup_after_emptying_expunge sample_platform calm_env sample_env2
              (one_message MAIL_LOCK_EXCLUSIVE) w' 80 1 false)
    as (Hsize & _ & _ & Hzeros & _).
  - exact sample_platform_ok.
  - repeat split.
  - intros w0 len. reflexivity.
  - exact Hrun.
  - exact Hzero.
  - left. exact Hcache.
  - destruct Hzeros as (w'' & Hlook & Herr & Hreb & _); [vm_compute; discriminate|].
    exists w', w''. split; [exact Hrun|]. split; [exact Hsize|]. split; [exact Hlen|].
    split; [exact Hlook|]. split; [exact Herr | exact Hreb].
Defined.

Lemma expunge_shifts_sequence_witness :
  exists w1 w2 w3,
    @mail_index_lookup sample_platform calm_env sample_env2
      (three_messages MAIL_LOCK_EXCLUSIVE) 1 = Done (Some 80, w1)
    /\ @mail_index_expunge sample_platform calm_env w1 80 1 false = Done (true, w2)
    /\ @mail_index_lookup sample_platform calm_env sample_env2 w2 1 = Done (Some 120, w3)
    /\ @read_rec sample_platform w3 120 = Done (mkRecord 2 8 0 10).
Proof.
  apply (@expunge_shifts_sequence sample_platform calm_env sample_env2
           (three_messages MAIL_LOCK_EXCLUSIVE) 0
           (mkRecord 1 0 0 10) (mkRecord 2 8 0 10) false
           (<[3 := 160]> (<[2 := 120]> (<[1 := 80]> ∅)))).
  - exact sample_platform_ok.
  - cbn. lia.
  - repeat split.
  - reflexivity.
  - reflexivity.
  - reflexivity.
  - reflexivity.
  - repeat constructor; discriminate.
  - reflexivity.
  - cbn. unfold UINT_MAX. lia.
  - left. reflexivity.
  - reflexivity.
  - reflexivity.
  - intros w0. reflexivity.
Defined.

Lemma append_then_lookup_uid_witness :
  exists w',
    @mail_index_append sample_platform calm_env (three_messages MAIL_LOCK_EXCLUSIVE)
      (mkRecord 0 0 0 10) = Done (true, InMapping 200, w')
    /\ @mail_index_lookup_uid_range sample_platform calm_env 2 w' 4 4
       = Done (Some 200, emit (EvHashLookup 4) w')
    /\ @read_rec sample_platform w' 200 = Done (mkRecord 4 0 0 10).
Proof.
  eexists.
  match goal with |- ?a = Done (_, _, ?x) /\ _ => set (w' := x) end.
  assert (Hrun : @mail_index_append sample_platform calm_env
                   (three_messages MAIL_LOCK_EXCLUSIVE) (mkRecord 0 0 0 10)
                 = Done (true, InMapping 200, w')).
  { unfold w'. vm_compute. reflexivity. }
  split; [exact Hrun|].
  apply (@append_then_lookup_uid sample_platform calm_env 0
           (three_messages MAIL_LOCK_EXCLUSIVE) w' (mkRecord 0 0 0 10) (InMapping 200)
           (<[3 := 160]> (<[2 := 120]> (<[1 := 80]> ∅)))).
  - exact sample_platform_ok.
  - reflexivity.
  - reflexivity.
  - cbn. unfold UINT_MAX. lia.
  - exact Hrun.
Defined.

Lemma expunge_then_lookup_uid_witness :
  exists w',
    @mail_index_expunge sample_platform calm_env (three_messages MAIL_LOCK_EXCLUSIVE)
      120 2 false = Done (true, w')
    /\ @mail_index_lookup_uid_range sample_platform calm_env 2 w' 2 2
       = Done (None, emit (EvHashLookup 2) w').
Proof.
  eexists.
  match goal with |- ?a = Done (_, ?x) /\ _ => set (w' := x) end.
  assert (Hrun : @mail_index_expunge sample_platform calm_env
                   (three_messages MAIL_LOCK_EXCLUSIVE) 120 2 false = Done (true, w')).
  { unfold w'. vm_compute. reflexivity. }
  split; [exact Hrun|].
  apply (@expunge_then_lookup_uid sample_platform calm_env 0
           (three_messages MAIL_LOCK_EXCLUSIVE) w' 120 2 false (mkRecord 2 8 0 10)).
  - repeat split.
  - reflexivity.
  - cbn. unfold UINT_MAX. lia.
  - exact Hrun.
Defined.

Lemma lookup_field_request_replaces_witness :
  exists w1 w2,
    @mail_index_lookup_field sample_platform sample_env2 16 listed_field_world 80 2
    = Done (None, w1)
    /\ @mail_index_set_lock sample_platform calm_env 1 w1 MAIL_LOCK_UNLOCK = Done (true, w2)
    /\ cache_fields (file_hdr listed_field_world) = 1
    /\ cache_fields (file_hdr w2) = 2.
Proof.
  destruct (@lookup_field_request_replaces sample_platform calm_env sample_env2 16 0
              listed_field_world 0 (mkRecord 1 0 0 10) 2)
    as (w1 & w2 & Hask & Hrel & Hnew & _).
  - exact sample_platform_ok.
  - repeat split.
  - reflexivity.
  - reflexivity.
  - reflexivity.
  - reflexivity.
  - discriminate.
  - reflexivity.
  - reflexivity.
  - reflexivity.
  - intros w0 l. reflexivity.
  - exists w1, w2. split; [exact Hask|]. split; [exact Hrel|]. split; [reflexivity | exact Hnew].
Defined.

Lemma sync_file_silent_failure_witness :
  exists w',
    @mail_index_sync_file no_hash_sync_env (three_messages MAIL_LOCK_EXCLUSIVE) = (false, w')
    /\ error (idx w') = None.
Proof.
  destruct (sync_file_silent_failure no_hash_sync_env (three_messages MAIL_LOCK_EXCLUSIVE))
    as (w' & Hrun & Herr & _).
  - intros w0. reflexivity.
  - intros w0. reflexivity.
  - intros w0. reflexivity.
  - intros w0. reflexivity.
  - left. intros w0. reflexivity.
  - exists w'. split; [exact Hrun | exact Herr].
Defined.

Lemma set_lock_failed_rebuild_sticks_witness :
  exists w' w'',
    @mail_index_set_lock sample_platform no_rebuild_env 1 rebuild_wanted_world
      MAIL_LOCK_UNLOCK = Done (false, w')
    /\ updating (idx w') = true
    /\ @mail_index_set_lock sample_platform no_rebuild_env 1 w' MAIL_LOCK_SHARED
       = Done (true, w'')
    /\ has_flag (flags (file_hdr w'')) (@MAIL_INDEX_FLAG_REBUILD sample_platform) = true.
Proof.
  destruct (@set_lock_failed_rebuild_sticks sample_platform no_rebuild_env 0
              rebuild_wanted_world)
    as (w' & w'' & Hrel & Hupd & _ & Hacq & _ & Hflag & _).
  - repeat split.
  - reflexivity.
  - reflexivity.
  - reflexivity.
  - reflexivity.
  - reflexivity.
  - reflexivity.
  - reflexivity.
  - intros w0 l. reflexivity.
  - intros w0. reflexivity.
  - exists w', w''. split; [exact Hrel|]. split; [exact Hupd|]. split; [exact Hacq | exact Hflag].
Defined.

Lemma try_lock_records_nothing_witness :
  exists w',
    @mail_index_try_lock sample_env2 (empty_world MAIL_LOCK_UNLOCK) MAIL_LOCK_SHARED
    = (true, w')
    /\ lock_type (idx w') = MAIL_LOCK_UNLOCK
    /\ @mail_index_lookup sample_platform calm_env sample_env2 w' 1 = AssertFailed.
Proof.
  eexists. split; [reflexivity|].
  destruct (@try_lock_records_nothing sample_platform calm_env sample_env2
              (empty_world MAIL_LOCK_UNLOCK)
              (emit (EvFcntl MAIL_LOCK_SHARED true sample_header)
                 (empty_world MAIL_LOCK_UNLOCK))
              MAIL_LOCK_SHARED true 1)
    as (Hl & _ & _ & Hassert).
  - reflexivity.
  - split; [exact Hl|]. apply Hassert. reflexivity.
Defined.

Lemma mmap_update_settles_witness :
  exists w1,
    @mmap_update sample_platform calm_env stray_bytes_world = (true, w1)
    /\ mmap_length (idx w1) = 80
    /\ @mmap_update sample_platform calm_env w1 = (true, w1).
Proof.
  eexists. split; [vm_compute; reflexivity|].
  match goal with |- mmap_length (idx ?x) = _ /\ _ => set (w1 := x) end.
  assert (Hrun : @mmap_update sample_platform calm_env stray_bytes_world = (true, w1)).
  { vm_compute. reflexivity. }
  assert (Hlen : mmap_length (idx w1) = 80) by reflexivity.
  clearbody w1.
  destruct (@mmap_update_settles sample_platform calm_env stray_bytes_world w1)
    as (_ & _ & _ & Hagain).
  - exact sample_platform_ok.
  - reflexivity.
  - exact Hrun.
  - split; [exact Hlen | exact Hagain].
Defined.

Lemma get_sequence_then_lookup_witness :
  exists seq,
    @mail_index_get_sequence sample_platform (holed_messages MAIL_LOCK_SHARED) 160
    = Done seq
    /\ @mail_index_lookup sample_platform calm_env sample_env2
         (holed_messages MAIL_LOCK_SHARED) seq
       = Done (Some 160, remember_lookup (Some 160) seq (holed_messages MAIL_LOCK_SHARED)).
Proof.
  apply (@get_sequence_then_lookup sample_platform calm_env sample_env2
           (holed_messages MAIL_LOCK_SHARED) 2 (mkRecord 3 4 0 10)).
  - exact sample_platform_ok.
  - cbn. lia.
  - repeat split.
  - right. exists [mkRecord 1 0 0 10], [mkRecord 0 8 0 10], [mkRecord 3 4 0 10].
    split; [|repeat constructor; discriminate].
    repeat split; [repeat constructor; discriminate | repeat constructor | discriminate].
  - discriminate.
  - reflexivity.
  - cbn. unfold UINT_MAX. lia.
  - reflexivity.
  - discriminate.
Defined.

Lemma next_advances_sequence_witness :
  exists seq,
    @mail_index_get_sequence sample_platform (holed_messages MAIL_LOCK_SHARED) 80
    = Done seq
    /\ @mail_index_get_sequence sample_platform (holed_messages MAIL_LOCK_SHARED) 160
       = Done (seq + 1).
Proof.
  apply (@next_advances_sequence sample_platform (holed_messages MAIL_LOCK_SHARED)
           0 (mkRecord 1 0 0 10) 160).
  - exact sample_platform_ok.
  - repeat split.
  - right. exists [mkRecord 1 0 0 10], [mkRecord 0 8 0 10], [mkRecord 3 4 0 10].
    repeat split; [repeat constructor; discriminate | repeat constructor | discriminate].
  - discriminate.
  - reflexivity.
  - cbn. unfold UINT_MAX. lia.
  - reflexivity.
  - discriminate.
  - reflexivity.
Defined.
